(** * Data-Analysis: aggregation and statistics engine

    A shallow embedding of [src/src/data_aggregator.py] (class
    [DataAggregator]) and [src/src/data_analyzer.py] (class [DataAnalyzer]),
    and the properties the specification states about them; with them the
    column classification of [src/src/data_loader.py] ([_process_stream])
    and [load_csv] of [src/src/analyzer.py], which builds the two classes
    from a loader.

    - A record (CSV row) is a Python [dict] from column name to cell value;
      only [row.get] is ever used on it, so it is a [gmap string pyval].
    - Result dictionaries are insertion-ordered association lists, because
      the order of [dict.items()] is observable through [rank].
    - Python's [float] is an interface ([PyFloat]): every general theorem
      holds for any implementation of it; [binary64] instantiates it with the
      IEEE 754 double-precision numbers of the kernel.
    - A [str] is held as its UTF-8 encoding and read by code points, since
      [strip()] and [float()] know the white space and the digits of Unicode.
    - Exceptions are values of [result].
    - What the code takes from Python's library is modelled as CPython 3.11
      has it: [sum] adds from the left, [sorted] is stable, [float()]
      reads a numeral, [statistics.median] and [statistics.stdev] work on the
      sorted values and on exact fractions.  [sorted], [min] and [max] depend
      on the values only where [<] is a strict weak order on them, which it is
      on floats without a nan; the theorems on sorted values say so. *)

From stdpp Require Import base option list gmap strings pretty.
From Stdlib Require Import ZArith QArith Lia Ascii Sorted.
From Stdlib Require Import Floats.PrimFloat Floats.SpecFloat Floats.FloatOps.
From Stdlib Require Floats.FloatAxioms.

Local Open Scope string_scope.
Local Open Scope Z_scope.
Local Open Scope list_scope.

Set Warnings "-register-all,-clear-no-such-hyp".

(** ** Exceptions *)

Inductive exn :=
  | ValueError | TypeError | ZeroDivisionError | OverflowError | IndexError
  | KeyError | AttributeError | StatisticsError.

Inductive result (A : Type) :=
  | Ok (a : A)
  | Raise (e : exn).
Arguments Ok {A} a.
Arguments Raise {A} e.

Global Instance result_ret : MRet result := λ A a, Ok a.
Global Instance result_bind : MBind result :=
  λ A B f m, match m with Ok a => f a | Raise e => Raise e end.

Fixpoint result_mapM {A B} (f : A → result B) (l : list A) : result (list B) :=
  match l with
  | [] => Ok []
  | x :: l => y ← f x; ys ← result_mapM f l; Ok (y :: ys)
  end.

(** [functools.reduce] with a reducer that may raise. *)
Fixpoint reduceM {A B} (f : B → A → result B) (l : list A) (acc : B) : result B :=
  match l with
  | [] => Ok acc
  | x :: l => acc' ← f acc x; reduceM f l acc'
  end.

Definition is_ok {A} (r : result A) : bool :=
  match r with Ok _ => true | Raise _ => false end.

(** ** Python values found in records *)

(** A cell of a loaded row is a [str], or [None] for a field missing at the
    end of a short line; [int] is there for the defaults of [row.get(col, 0)]. *)
Inductive pyval :=
  | VNone
  | VStr (s : string)
  | VInt (z : Z).

Global Instance pyval_eq_dec : EqDecision pyval.
Proof. solve_decision. Defined.

Abbreviation row := (gmap string pyval).

(** [row.get(col)] and [row.get(col, d)]. *)
Definition get (r : row) (col : string) : pyval := default VNone (r !! col).
Definition get_or (r : row) (col : string) (d : pyval) : pyval := default d (r !! col).

(** ** Insertion-ordered dictionaries *)

Abbreviation dict K V := (list (K * V)).

Section dict.
Context {K V : Type} `{EqDecision K}.

(** [d.get(k)] *)
Fixpoint dict_get (k : K) (d : dict K V) : option V :=
  match d with
  | [] => None
  | (k', v) :: d => if decide (k = k') then Some v else dict_get k d
  end.

(** [d[k] = v]: an existing key keeps its position, a new key goes last. *)
Fixpoint dict_set (k : K) (v : V) (d : dict K V) : dict K V :=
  match d with
  | [] => [(k, v)]
  | (k', v') :: d => if decide (k = k') then (k, v) :: d else (k', v') :: dict_set k v d
  end.

Definition dict_keys (d : dict K V) : list K := d.*1.
Definition dict_values (d : dict K V) : list V := d.*2.
End dict.

(** [l[i]] and [l[:n]] *)
Definition index {A} (l : list A) (i : Z) : result A :=
  let j := if 0 <=? i then i else Z.of_nat (length l) + i in
  if j <? 0 then Raise IndexError
  else match l !! Z.to_nat j with Some x => Ok x | None => Raise IndexError end.

Definition slice_to {A} (l : list A) (n : Z) : list A :=
  if 0 <=? n then take (Z.to_nat n) l else take (Z.to_nat (Z.of_nat (length l) + n)) l.

(** [sorted(l)] under a "less than" test: the stable sort, written as an
    insertion sort.  An element is put in front of the sorted rest of the
    list and moves right only past the elements that are strictly less than
    it, so equal elements keep their order.  Python's own algorithm returns
    the same list whenever the test is a strict weak order, which [<] is on
    floats as long as no nan is among them. *)
Section sorted.
Context {A : Type} (lt : A → A → bool).

Fixpoint sorted_insert (x : A) (l : list A) : list A :=
  match l with
  | [] => [x]
  | y :: l' => if lt y x then y :: sorted_insert x l' else x :: l
  end.

Definition sorted (l : list A) : list A := foldr sorted_insert [] l.
End sorted.

(** ** Strings

    A Python [str] is held as its UTF-8 encoding, and [decode] reads the code
    points back: one to four bytes each.  A byte that starts no sequence,
    which the encoding of a [str] never has, is read as the lone surrogate
    [0xDC00 + byte]. *)
Definition continuation (a : ascii) : option Z :=
  let n := Z.of_nat (nat_of_ascii a) in
  if (128 <=? n) && (n <=? 191) then Some (n - 128) else None.

Fixpoint decode (s : list ascii) : list Z :=
  match s with
  | [] => []
  | a :: s1 =>
      let n := Z.of_nat (nat_of_ascii a) in
      let stray := λ _ : (), (56320 + n) :: decode s1 in
      if n <? 128 then n :: decode s1
      else
        match s1 with
        | b :: s2 =>
            match continuation b with
            | Some c1 =>
                if (192 <=? n) && (n <? 224) then ((n - 192) * 64 + c1) :: decode s2
                else
                  match s2 with
                  | c :: s3 =>
                      match continuation c with
                      | Some c2 =>
                          if (224 <=? n) && (n <? 240)
                          then ((n - 224) * 4096 + c1 * 64 + c2) :: decode s3
                          else
                            match s3 with
                            | d :: s4 =>
                                match continuation d with
                                | Some c3 =>
                                    if (240 <=? n) && (n <? 248)
                                    then ((n - 240) * 262144 + c1 * 4096 + c2 * 64 + c3)
                                           :: decode s4
                                    else stray ()
                                | None => stray ()
                                end
                            | [] => stray ()
                            end
                      | None => stray ()
                      end
                  | [] => stray ()
                  end
            | None => stray ()
            end
        | [] => stray ()
        end
  end.

Definition code_points (s : string) : list Z := decode (String.list_ascii_of_string s).

(** [str.isspace] on one character: the white space of Unicode, which is
    what [str.strip()] removes. *)
Definition is_space (c : Z) : bool :=
  (9 <=? c) && (c <=? 13) || (28 <=? c) && (c <=? 32)
  || bool_decide (c ∈ [133; 160; 5760; 8232; 8233; 8239; 8287; 12288])
  || (8192 <=? c) && (c <=? 8202).

(** The white space of C's [isspace], which is what [float()] skips around
    a numeral. *)
Definition is_c_space (c : Z) : bool := (9 <=? c) && (c <=? 13) || (c =? 32).

Fixpoint lstrip (space : Z → bool) (s : list Z) : list Z :=
  match s with
  | c :: s' => if space c then lstrip space s' else s
  | [] => []
  end.

Fixpoint rstrip (space : Z → bool) (s : list Z) : list Z :=
  match s with
  | c :: s' =>
      match rstrip space s' with
      | [] => if space c then [] else [c]
      | t => c :: t
      end
  | [] => []
  end.

(** [s.strip()] *)
Definition strip (s : string) : list Z := rstrip is_space (lstrip is_space (code_points s)).

Definition str_truthy (s : list Z) : bool := if s is [] then false else true.

(** ** Floating-point numbers *)

(** What the code asks of Python's [float]. *)
Class PyFloat (F : Type) := {
  f_of_Z : Z → F;                 (* int operand of a mixed operation, float(int) *)
  f_dec : Z → Z → F;              (* the literal m * 10^e, as the parser reads it *)
  f_of_str : string → option F;   (* float(str); None stands for ValueError *)
  f_add : F → F → F;
  f_sub : F → F → F;
  f_mul : F → F → F;
  f_div : F → F → F;              (* on a divisor that is not zero *)
  f_abs : F → F;
  f_eqb : F → F → bool;
  f_ltb : F → F → bool;
  f_leb : F → F → bool;
  f_trunc : F → result Z;         (* int(x); raises on nan and the infinities *)
}.

(** What [x ** 0.5] answers: a float, or a complex number when [x] is
    negative. *)
Inductive power (F : Type) :=
  | PReal (x : F)
  | PComplex.
Arguments PReal {F} x.
Arguments PComplex {F}.

Section num.
Context {F : Type} `{PyFloat F}.

(** A Python number: the code mixes [int] (0, [len]) and [float]. *)
Inductive num :=
  | NInt (z : Z)
  | NFloat (x : F).

Definition to_float (a : num) : F :=
  match a with NInt z => f_of_Z z | NFloat x => x end.

Definition arith (fz : Z → Z → Z) (ff : F → F → F) (a b : num) : num :=
  match a, b with
  | NInt x, NInt y => NInt (fz x y)
  | _, _ => NFloat (ff (to_float a) (to_float b))
  end.

Definition num_add := arith Z.add f_add.
Definition num_sub := arith Z.sub f_sub.
Definition num_mul := arith Z.mul f_mul.

Definition compare_with (cz : Z → Z → bool) (cf : F → F → bool) (a b : num) : bool :=
  match a, b with
  | NInt x, NInt y => cz x y
  | _, _ => cf (to_float a) (to_float b)
  end.

Definition num_eqb := compare_with Z.eqb f_eqb.
Definition num_ltb := compare_with Z.ltb f_ltb.
Definition num_leb := compare_with Z.leb f_leb.
Definition num_gtb (a b : num) := num_ltb b a.
Definition num_geb (a b : num) := num_leb b a.

(** [a / b] *)
Definition num_truediv (a b : num) : result num :=
  if num_eqb b (NInt 0) then Raise ZeroDivisionError
  else Ok (NFloat (f_div (to_float a) (to_float b))).

Definition num_abs (a : num) : num :=
  match a with NInt z => NInt (Z.abs z) | NFloat x => NFloat (f_abs x) end.

(** [float(v)] *)
Definition py_float (v : pyval) : result F :=
  match v with
  | VNone => Raise TypeError
  | VStr s => match f_of_str s with Some x => Ok x | None => Raise ValueError end
  | VInt z => Ok (f_of_Z z)
  end.

(** [sum(v)], [len(v)], [min(v)], [max(v)] *)
Definition py_sum (v : list num) : num := foldl num_add (NInt 0) v.
Definition py_len {A} (v : list A) : num := NInt (Z.of_nat (length v)).

Definition py_min (v : list F) : result F :=
  match v with
  | [] => Raise ValueError
  | x :: v => Ok (foldl (λ cur item, if f_ltb item cur then item else cur) x v)
  end.
Definition py_max (v : list F) : result F :=
  match v with
  | [] => Raise ValueError
  | x :: v => Ok (foldl (λ cur item, if f_ltb cur item then item else cur) x v)
  end.
End num.
Arguments num F : clear implicits.

(** ** [class DataAggregator] *)

Module DataAggregator.

Record self := { data : list row; headers : list string }.

(** The nested dictionary [group_by_multi] builds: a value is a number or
    another dictionary. *)
Inductive nested (F : Type) :=
  | NLeaf (x : num F)
  | NDict (items : dict pyval (nested F)).
Arguments NLeaf {F} x.
Arguments NDict {F} items.

Section methods.
Context {F : Type} `{PyFloat F}.

Definition _is_valid_number (val : pyval) : bool := is_ok (py_float val).

(** The table [ops] of [aggregate]. *)
Definition op_sum (v : list F) : result (num F) := Ok (py_sum (NFloat <$> v)).
Definition op_avg (v : list F) : result (num F) :=
  if v is [] then Ok (NInt 0) else num_truediv (py_sum (NFloat <$> v)) (py_len v).
Definition op_min (v : list F) : result (num F) :=
  if v is [] then Ok (NInt 0) else x ← py_min v; Ok (NFloat x).
Definition op_max (v : list F) : result (num F) :=
  if v is [] then Ok (NInt 0) else x ← py_max v; Ok (NFloat x).
Definition op_count (v : list F) : result (num F) := Ok (py_len v).

Definition ops : dict string (list F → result (num F)) :=
  [("sum", op_sum); ("avg", op_avg); ("min", op_min); ("max", op_max);
   ("count", op_count)].

(** Stream 1 of [aggregate]: a row becomes a (key, value) pair, or [None]. *)
Definition to_item (group_col value_col : string) (r : row) : result (option (pyval * F)) :=
  if _is_valid_number (get r value_col)
  then x ← py_float (get_or r value_col (VInt 0));
       Ok (Some (get_or r group_col (VStr "Unknown"), x))
  else Ok None.

(** Stream 2: [{**acc, item[0]: acc.get(item[0], []) + [item[1]]}] *)
Definition group_item (acc : dict pyval (list F)) (item : pyval * F) : dict pyval (list F) :=
  dict_set item.1 (default [] (dict_get item.1 acc) ++ [item.2]) acc.

Definition aggregate (s : self) (group_col value_col operation : string)
    : result (dict pyval (num F)) :=
  if bool_decide (group_col ∉ headers s) || bool_decide (value_col ∉ headers s)
  then Raise ValueError
  else
    mapped ← result_mapM (to_item group_col value_col) (data s);
    let stream := omap id mapped in
    let grouped := foldl group_item [] stream in
    let agg_func := default op_sum (dict_get operation ops) in
    result_mapM (λ kv, x ← agg_func kv.2; Ok (kv.1, x)) grouped.

(** [build_nested], on the dictionary [current] the loop has reached. *)
Fixpoint build_nested (keys : list pyval) (val : F) (current : dict pyval (nested F))
    : result (dict pyval (nested F)) :=
  match keys with
  | [] => Raise IndexError
  | [last_key] =>
      match default (NLeaf (NInt 0)) (dict_get last_key current) with
      | NLeaf x => Ok (dict_set last_key (NLeaf (num_add x (NFloat val))) current)
      | NDict _ => Raise TypeError
      end
  | key :: rest =>
      match dict_get key current with
      | None => sub ← build_nested rest val []; Ok (dict_set key (NDict sub) current)
      | Some (NDict sub) => sub' ← build_nested rest val sub; Ok (dict_set key (NDict sub') current)
      | Some (NLeaf _) => Raise AttributeError
      end
  end.

Definition to_key_value (group_cols : list string) (value_col : string) (r : row)
    : result (list pyval * F) :=
  x ← py_float (get_or r value_col (VInt 0));
  Ok ((λ col, get_or r col (VStr "Unknown")) <$> group_cols, x).

Definition group_by_multi (s : self) (group_cols : list string) (value_col operation : string)
    : result (dict pyval (nested F)) :=
  if bool_decide (group_cols = []) || bool_decide (value_col ∉ headers s)
  then Raise ValueError
  else
    let valid_rows := filter (λ r, _is_valid_number (get r value_col) = true) (data s) in
    key_value_pairs ← result_mapM (to_key_value group_cols value_col) valid_rows;
    reduceM (λ acc item, build_nested item.1 item.2 acc) key_value_pairs [].

(** [accumulate_metrics] of [compare_metrics]. *)
Definition append_metric (group_key : pyval) (r : row)
    (acc : dict pyval (dict string (list F))) (metric_col : string)
    : result (dict pyval (dict string (list F))) :=
  if _is_valid_number (get r metric_col)
  then
    match dict_get group_key acc with
    | None => Raise KeyError
    | Some metrics =>
        match dict_get metric_col metrics with
        | None => Raise KeyError
        | Some vals =>
            x ← py_float (get_or r metric_col (VInt 0));
            Ok (dict_set group_key (dict_set metric_col (vals ++ [x]) metrics) acc)
        end
    end
  else Ok acc.

Definition accumulate_metrics (group_col : string) (metric_cols : list string)
    (acc : dict pyval (dict string (list F))) (r : row)
    : result (dict pyval (dict string (list F))) :=
  let group_key := get_or r group_col (VStr "Unknown") in
  let acc :=
    if dict_get group_key acc is None
    then dict_set group_key (foldl (λ d col, dict_set col [] d) [] metric_cols) acc
    else acc in
  reduceM (append_metric group_key r) metric_cols acc.

Definition calc_avg (vals : list F) : result (num F) :=
  if vals is [] then Ok (NInt 0) else num_truediv (py_sum (NFloat <$> vals)) (py_len vals).

Definition compare_metrics (s : self) (group_col : string) (metric_cols : list string)
    : result (dict pyval (dict string (num F))) :=
  grouped_metrics ← reduceM (accumulate_metrics group_col metric_cols) (data s) [];
  result_mapM (λ gm,
      avgs ← result_mapM (λ cv, a ← calc_avg cv.2; Ok (cv.1, a)) gm.2;
      Ok (gm.1, avgs))
    grouped_metrics.

(** The comparison table of [filter_by_condition]. *)
Definition comparators : dict string (F → F → bool) :=
  [(">", λ x y, f_ltb y x); ("<", λ x y, f_ltb x y);
   (">=", λ x y, f_leb y x); ("<=", λ x y, f_leb x y);
   ("==", λ x y, f_eqb x y); ("!=", λ x y, negb (f_eqb x y))].

Definition filter_by_condition (s : self) (col operator : string) (value : F)
    : result (list row) :=
  let comparator := default (λ x y, f_eqb x y) (dict_get operator comparators) in
  kept ← result_mapM (λ r,
      if _is_valid_number (get r col)
      then x ← py_float (get_or r col (VInt 0)); Ok (comparator x value)
      else Ok false)
    (data s);
  Ok (filter (λ rk, rk.2 = true) (zip (data s) kept)).*1.
End methods.

Definition count_row (group_col : string) (acc : dict pyval Z) (r : row) : dict pyval Z :=
  let k := get_or r group_col (VStr "Unknown") in
  dict_set k (default 0 (dict_get k acc) + 1) acc.

Definition group_and_count (s : self) (group_col : string) : result (dict pyval Z) :=
  Ok (foldl (count_row group_col) [] (data s)).

Definition build_crosstab (col1 col2 : string) (acc : dict pyval (dict pyval Z)) (r : row)
    : dict pyval (dict pyval Z) :=
  let key1 := get_or r col1 (VStr "Unknown") in
  let key2 := get_or r col2 (VStr "Unknown") in
  let acc := if dict_get key1 acc is None then dict_set key1 [] acc else acc in
  let inner := default [] (dict_get key1 acc) in
  dict_set key1 (dict_set key2 (default 0 (dict_get key2 inner) + 1) inner) acc.

Definition cross_tabulation (s : self) (col1 col2 : string) : result (dict pyval (dict pyval Z)) :=
  Ok (foldl (build_crosstab col1 col2) [] (data s)).

End DataAggregator.

(** ** [class DataAnalyzer] *)

Module DataAnalyzer.

Record self := { data : list row; headers : list string; numeric_cols : list string }.

(** The dictionary [get_statistics] returns, by key. *)
Record statistics (F : Type) := {
  st_count : num F; st_sum : num F; st_avg : num F; st_min : num F;
  st_max : num F; st_median : num F; st_std_dev : num F; st_range : num F }.
Arguments Build_statistics {F}.
Arguments st_count {F}. Arguments st_sum {F}. Arguments st_avg {F}.
Arguments st_min {F}. Arguments st_max {F}. Arguments st_median {F}.
Arguments st_std_dev {F}. Arguments st_range {F}.

(** The dictionary [correlate_metrics] returns, by key. *)
Record correlation_result (F : Type) := {
  correlation : num F; strength : string; direction : string }.
Arguments Build_correlation_result {F}.
Arguments correlation {F}. Arguments strength {F}. Arguments direction {F}.

(** The accumulator of the reduction in [correlate_metrics]. *)
Record sums (F : Type) := {
  sum_x : num F; sum_y : num F; sum_xy : num F; sum_x2 : num F; sum_y2 : num F }.
Arguments Build_sums {F}.
Arguments sum_x {F}. Arguments sum_y {F}. Arguments sum_xy {F}.
Arguments sum_x2 {F}. Arguments sum_y2 {F}.

(** [val and str(val).strip()], as a truth value. *)
Definition nonblank (val : pyval) : bool :=
  match val with
  | VNone => false
  | VStr s => str_truthy (code_points s) && str_truthy (strip s)
  | VInt z => negb (z =? 0) && str_truthy (strip (pretty z))
  end.

Section methods.
Context {F : Type} `{PyFloat F}.
(** Library functions the class calls: [x ** 2], which raises
    [OverflowError] out of range, [x ** 0.5], [round(x, n)] and
    [statistics.stdev], which raises on values it cannot take. *)
Variable pow2 : F → result F.
Variable pow_half : F → power F.
Variable round_ndigits : F → Z → F.
Variable stdev : list F → result F.

Definition _is_valid_number (val : pyval) : bool := is_ok (py_float val).

(** [a ** 2] *)
Definition num_square (a : num F) : result (num F) :=
  match a with
  | NInt z => Ok (NInt (z * z))
  | NFloat x => y ← pow2 x; Ok (NFloat y)
  end.

(** [round(a, n)] *)
Definition num_round (a : num F) (n : Z) : num F :=
  match a with NInt z => NInt z | NFloat x => NFloat (round_ndigits x n) end.

(** The table [ops] of [rank]. *)
Definition op_sum (v : list F) : result (num F) := Ok (py_sum (NFloat <$> v)).
Definition op_avg (v : list F) : result (num F) :=
  if v is [] then Ok (NInt 0) else num_truediv (py_sum (NFloat <$> v)) (py_len v).
Definition op_count (v : list F) : result (num F) := Ok (py_len v).

Definition ops : dict string (list F → result (num F)) :=
  [("sum", op_sum); ("avg", op_avg); ("count", op_count)].

Definition to_item (rank_col value_col : string) (r : row) : result (option (pyval * F)) :=
  if _is_valid_number (get r value_col)
  then x ← py_float (get_or r value_col (VInt 0));
       Ok (Some (get_or r rank_col (VStr "Unknown"), x))
  else Ok None.

Definition aggregate_item (acc : dict pyval (list F)) (item : pyval * F) : dict pyval (list F) :=
  dict_set item.1 (default [] (dict_get item.1 acc) ++ [item.2]) acc.

(** [sorted(items, key=lambda x: x[1], reverse=True)]: an item goes
    before another when its value is strictly greater. *)
Definition by_value_desc {K} (lt : num F → num F → bool) (a b : K * num F) : bool :=
  lt b.2 a.2.

Definition rank (s : self) (rank_col value_col : string) (limit : Z) (operation : string)
    : result (list (pyval * num F)) :=
  mapped ← result_mapM (to_item rank_col value_col) (data s);
  let stream := omap id mapped in
  let aggregated := foldl aggregate_item [] stream in
  let op_func := default op_sum (dict_get operation ops) in
  results ← result_mapM (λ kv, x ← op_func kv.2; Ok (kv.1, x)) aggregated;
  Ok (slice_to (sorted (by_value_desc num_ltb) results) limit).

Definition get_distribution (s : self) (col : string) (top_n : Z) : result (dict pyval Z) :=
  let valid_values :=
    filter (λ val, nonblank val = true) ((λ r, get_or r col (VStr "Unknown")) <$> data s) in
  let distribution :=
    foldl (λ acc val, dict_set val (default 0 (dict_get val acc) + 1) acc) [] valid_values in
  let sorted_dist := sorted (λ a b : pyval * Z, b.2 <? a.2) distribution in
  Ok (foldl (λ d kv, dict_set kv.1 kv.2 d) [] (slice_to sorted_dist top_n)).

(** [statistics.median] *)
Definition median (values : list F) : result F :=
  let data := sorted f_ltb values in
  let n := Z.of_nat (length data) in
  if n =? 0 then Raise StatisticsError
  else if n `mod` 2 =? 1 then index data (n `div` 2)
  else
    let i := n `div` 2 in
    a ← index data (i - 1);
    b ← index data i;
    Ok (f_div (f_add a b) (f_of_Z 2)).

Definition zero_statistics : statistics F :=
  Build_statistics (NInt 0) (NInt 0) (NInt 0) (NInt 0) (NInt 0) (NInt 0) (NInt 0) (NInt 0).

Definition get_statistics (s : self) (col : string) : result (statistics F) :=
  values ← result_mapM py_float
    (filter (λ val, _is_valid_number val = true) ((λ r, get_or r col (VInt 0)) <$> data s));
  if values is [] then Ok zero_statistics
  else
    let total := foldl (λ acc x, num_add acc (NFloat x)) (NInt 0) values in
    let count := py_len values in
    avg ← num_truediv total count;
    min_val ← py_min values;
    max_val ← py_max values;
    median_val ← median values;
    std_dev ← (if num_gtb count (NInt 1) then x ← stdev values; Ok (NFloat x)
               else Ok (NInt 0));
    let range_val := f_sub max_val min_val in
    Ok (Build_statistics count total avg (NFloat min_val) (NFloat max_val)
          (NFloat median_val) std_dev (NFloat range_val)).

Definition to_pair (metric_col1 metric_col2 : string) (r : row) : result (option (F * F)) :=
  if _is_valid_number (get r metric_col1) && _is_valid_number (get r metric_col2)
  then x ← py_float (get_or r metric_col1 (VInt 0));
       y ← py_float (get_or r metric_col2 (VInt 0));
       Ok (Some (x, y))
  else Ok None.

Definition add_pair (acc : sums F) (pair : F * F) : result (sums F) :=
  x2 ← num_square (NFloat pair.1);
  y2 ← num_square (NFloat pair.2);
  Ok {| sum_x := num_add (sum_x acc) (NFloat pair.1);
        sum_y := num_add (sum_y acc) (NFloat pair.2);
        sum_xy := num_add (sum_xy acc) (NFloat (f_mul pair.1 pair.2));
        sum_x2 := num_add (sum_x2 acc) x2;
        sum_y2 := num_add (sum_y2 acc) y2 |}.

Definition classify_strength (correlation : num F) : string :=
  if num_geb (num_abs correlation) (NFloat (f_dec 9 (-1))) then "perfect"
  else if num_geb (num_abs correlation) (NFloat (f_dec 7 (-1))) then "strong"
  else if num_geb (num_abs correlation) (NFloat (f_dec 5 (-1))) then "moderate"
  else if num_gtb (num_abs correlation) (NInt 0) then "weak"
  else "none".

Definition classify_direction (correlation : num F) : string :=
  if num_gtb correlation (NInt 0) then "positive"
  else if num_ltb correlation (NInt 0) then "negative"
  else "none".

(** [correlate_metrics] from [if len(pairs) < 2] on.  When the power is
    complex, so are the denominator, which is then not 0, and the
    coefficient, and the comparison [correlation > 0] raises [TypeError]. *)
Definition correlate_pairs (pairs : list (F * F)) : result (correlation_result F) :=
  if Z.of_nat (length pairs) <? 2
  then Ok (Build_correlation_result (NInt 0) "none" "none")
  else
    let n := py_len pairs in
    stats ← reduceM add_pair pairs (Build_sums (NInt 0) (NInt 0) (NInt 0) (NInt 0) (NInt 0));
    let numerator := num_sub (num_mul n (sum_xy stats)) (num_mul (sum_x stats) (sum_y stats)) in
    sx ← num_square (sum_x stats);
    sy ← num_square (sum_y stats);
    match pow_half (to_float (num_mul (num_sub (num_mul n (sum_x2 stats)) sx)
                                      (num_sub (num_mul n (sum_y2 stats)) sy))) with
    | PComplex => Raise TypeError
    | PReal d =>
        let denominator := NFloat d in
        correlation ←
          (if negb (num_eqb denominator (NInt 0)) then num_truediv numerator denominator
           else Ok (NInt 0));
        Ok (Build_correlation_result (num_round correlation 4)
              (classify_strength correlation) (classify_direction correlation))
    end.

Definition correlate_metrics (s : self) (metric_col1 metric_col2 : string)
    : result (correlation_result F) :=
  mapped ← result_mapM (to_pair metric_col1 metric_col2) (data s);
  correlate_pairs (omap id mapped).

(** [find_outliers] once the values are floats.  A complex deviation makes
    the threshold complex, and the comparison with it raises [TypeError]. *)
Definition outliers_among (values : list F) (threshold : F) : result (list F) :=
  mean_val ← num_truediv (foldl (λ acc x, num_add acc (NFloat x)) (NInt 0) values)
                         (py_len values);
  squares ← reduceM (λ acc x, sq ← num_square (num_sub (NFloat x) mean_val);
                              Ok (num_add acc sq))
                    values (NInt 0);
  variance ← num_truediv squares (num_sub (py_len values) (NInt 1));
  match pow_half (to_float variance) with
  | PComplex => if values is [] then Ok [] else Raise TypeError
  | PReal stdev_val =>
      let outlier_threshold := num_mul (NFloat threshold) (NFloat stdev_val) in
      Ok (filter (λ x, num_gtb (num_abs (num_sub (NFloat x) mean_val)) outlier_threshold = true)
                 values)
  end.

Definition find_outliers (s : self) (col : string) (threshold : F) : result (list F) :=
  let values :=
    filter (λ val, _is_valid_number val = true) ((λ r, get_or r col (VInt 0)) <$> data s) in
  if Z.of_nat (length values) <? 2 then Ok []
  else
    values ← result_mapM py_float values;
    outliers_among values threshold.

(** [_is_valid_number] on a value that is a float already. *)
Definition _is_valid_float (val : F) : bool := true.

Definition percentile (s : self) (col : string) (p : F) : result (num F) :=
  floats ← result_mapM (λ r, py_float (get_or r col (VInt 0))) (data s);
  let values := sorted f_ltb (filter (λ val, _is_valid_float val = true) floats) in
  if values is [] then Ok (NInt 0)
  else
    q ← num_truediv (NFloat p) (NInt 100);
    i ← f_trunc (to_float (num_mul q (num_sub (py_len values) (NInt 1))));
    x ← index values i;
    Ok (NFloat x).
End methods.

End DataAnalyzer.

(** ** [class DataLoader]

    [_process_stream] is the part of the loader that is the program's own:
    it classifies the columns of what [csv.DictReader] hands over.  The
    reader is the library's, and enters as the field names of the first line
    ([None] for an empty stream) with one dictionary per data line. *)

Module DataLoader.

Record self := {
  headers : list string;
  data : list row;
  numeric_cols : list string;
  categorical_cols : list string }.

Definition __init__ : self := Build_self [] [] [] [].

Record DictReader := { fieldnames : option (list string); rows : list row }.

(** An entry of [type_confidence]. *)
Record confidence := { numeric : Z; total : Z }.

Section methods.
Context {F : Type} `{PyFloat F}.

(** The body of [for col in self.headers], for one row. *)
Definition count_value (r : row) (type_confidence : dict string confidence) (col : string)
    : dict string confidence :=
  let value := get_or r col (VStr "") in
  let seen := default (Build_confidence 0 0) (dict_get col type_confidence) in
  let seen := Build_confidence (numeric seen) (total seen + 1) in
  dict_set col
    (if DataAnalyzer.nonblank value && is_ok (py_float (F:=F) value)
     then Build_confidence (numeric seen + 1) (total seen)
     else seen)
    type_confidence.

(** [numeric / max(total, 1) >= 0.8] *)
Definition is_numeric (type_confidence : dict string confidence) (col : string) : result bool :=
  let seen := default (Build_confidence 0 0) (dict_get col type_confidence) in
  ratio ← num_truediv (F:=F) (NInt (numeric seen)) (NInt (Z.max (total seen) 1));
  Ok (num_geb ratio (NFloat (f_dec 8 (-1)))).

(** The loader after the call, and whether the call raised. *)
Definition _process_stream (s : self) (stream : DictReader) : self * result () :=
  let headers := default [] (fieldnames stream) in
  if headers is []
  then (Build_self headers (data s) (numeric_cols s) (categorical_cols s), Raise ValueError)
  else
    let type_confidence :=
      foldl (λ tc r, foldl (count_value r) tc headers) [] (rows stream) in
    let data := data s ++ rows stream in
    match result_mapM (λ col, b ← is_numeric type_confidence col; Ok (col, b)) headers with
    | Raise e => (Build_self headers data (numeric_cols s) (categorical_cols s), Raise e)
    | Ok flags =>
        let numeric_cols := (filter (λ cb, cb.2 = true) flags).*1 in
        (Build_self headers data numeric_cols (filter (λ col, col ∉ numeric_cols) headers),
         Ok ())
    end.
End methods.

End DataLoader.

(** ** [class AnalysisEngine]

    [load_csv] and the four properties.  [DataLoader.load] opens a file or a
    URL; it enters as what it does to a new loader. *)

Module AnalysisEngine.

Record self := {
  loader : option DataLoader.self;
  aggregator : option DataAggregator.self;
  analyzer : option DataAnalyzer.self }.

Definition __init__ : self := Build_self None None None.

Definition load_csv (load : DataLoader.self → DataLoader.self * result ()) (s : self)
    : self * result () :=
  let '(l, outcome) := load DataLoader.__init__ in
  match outcome with
  | Raise e => (Build_self (Some l) (aggregator s) (analyzer s), Raise e)
  | Ok _ =>
      (Build_self (Some l)
         (Some (DataAggregator.Build_self (DataLoader.data l) (DataLoader.headers l)))
         (Some (DataAnalyzer.Build_self (DataLoader.data l) (DataLoader.headers l)
                  (DataLoader.numeric_cols l))),
       Ok ())
  end.

Definition data (s : self) : list row :=
  if loader s is Some l then DataLoader.data l else [].
Definition numeric_cols (s : self) : list string :=
  if loader s is Some l then DataLoader.numeric_cols l else [].
Definition categorical_cols (s : self) : list string :=
  if loader s is Some l then DataLoader.categorical_cols l else [].
Definition headers (s : self) : list string :=
  if loader s is Some l then DataLoader.headers l else [].

End AnalysisEngine.

(** ** The binary64 floats

    CPython's [float] is the IEEE 754 double: the kernel's primitive floats,
    with round-to-nearest-even conversions from integers and decimal
    numerals, and the grammar of [float(str)]. *)

Module Binary64.

Definition of_Z (z : Z) : float := SF2Prim (binary_normalize prec emax z 0 false).

(** [p / q] rounded once, for [0 <= p] and [0 < q]: the quotient is cut
    after at least 64 bits, with one more bit that records a remainder. *)
Definition of_ratio (p q : Z) : float :=
  if p =? 0 then PrimFloat.zero
  else
    let k := Z.max 0 (64 + Z.log2 q - Z.log2 p) in
    let n := p * 2 ^ k in
    let sticky := if n `mod` q =? 0 then 0 else 1 in
    SF2Prim (binary_normalize prec emax (2 * (n `div` q) + sticky) (- k - 1) false).

Definition dec (m e : Z) : float :=
  let a := if 0 <=? e then of_Z (Z.abs m * 10 ^ e) else of_ratio (Z.abs m) (10 ^ (- e)) in
  if m <? 0 then PrimFloat.opp a else a.

Definition trunc (x : float) : result Z :=
  match Prim2SF x with
  | S754_zero _ => Ok 0
  | S754_finite sg m e =>
      let a := if 0 <=? e then Z.pos m * 2 ^ e else Z.pos m `div` 2 ^ (- e) in
      Ok (if sg then - a else a)
  | S754_infinity _ => Raise OverflowError
  | S754_nan => Raise ValueError
  end.

Definition digit (a : ascii) : option Z :=
  let n := nat_of_ascii a in
  if ((48 <=? n) && (n <=? 57))%nat then Some (Z.of_nat (n - 48)) else None.

Definition lower (a : ascii) : ascii :=
  let n := nat_of_ascii a in
  if ((65 <=? n) && (n <=? 90))%nat then ascii_of_nat (n + 32) else a.

(** The tail of a [digitpart]: digits, each one possibly after one
    underscore.  Returns the number read so far, how many digits it has,
    and what is left. *)
Fixpoint digits_tail (acc cnt : Z) (s : list ascii) : Z * Z * list ascii :=
  match s with
  | a :: s' =>
      match digit a with
      | Some d => digits_tail (10 * acc + d) (cnt + 1) s'
      | None =>
          if decide (a = "_"%char)
          then match s' with
               | b :: s'' =>
                   match digit b with
                   | Some d => digits_tail (10 * acc + d) (cnt + 1) s''
                   | None => (acc, cnt, s)
                   end
               | [] => (acc, cnt, s)
               end
          else (acc, cnt, s)
      end
  | [] => (acc, cnt, [])
  end.

Definition digitpart (acc : Z) (s : list ascii) : option (Z * Z * list ascii) :=
  match s with
  | a :: s' => d ← digit a; Some (digits_tail (10 * acc + d) 1 s')
  | [] => None
  end.

(** [number]: mantissa, count of digits after the point, rest. *)
Definition number (s : list ascii) : option (Z * Z * list ascii) :=
  match digitpart 0 s with
  | Some (m, _, rest) =>
      match rest with
      | "."%char :: rest' =>
          match digitpart m rest' with
          | Some (m', n, rest'') => Some (m', n, rest'')
          | None => Some (m, 0, rest')
          end
      | _ => Some (m, 0, rest)
      end
  | None =>
      match s with
      | "."%char :: rest' => digitpart 0 rest'
      | _ => None
      end
  end.

Definition sign (s : list ascii) : bool * list ascii :=
  match s with
  | "-"%char :: s' => (true, s')
  | "+"%char :: s' => (false, s')
  | _ => (false, s)
  end.

Definition exponent (s : list ascii) : option Z :=
  match s with
  | [] => Some 0
  | a :: s' =>
      if decide (lower a = "e"%char)
      then let '(neg, s'') := sign s' in
           match digitpart 0 s'' with
           | Some (e, _, []) => Some (if neg then - e else e)
           | _ => None
           end
      else None
  end.

Definition absfloatvalue (s : list ascii) : option float :=
  let word := String.string_of_list_ascii (lower <$> s) in
  if decide (word = "inf" ∨ word = "infinity") then Some PrimFloat.infinity
  else if decide (word = "nan") then Some PrimFloat.nan
  else
    '(m, n, rest) ← number s;
    e ← exponent rest;
    Some (dec m (e - n)).

(** The code points at which the ten decimal digits of a script start
    (Unicode 14, the digits of category Nd). *)
Definition digit_zeros : list Z :=
  [48; 1632; 1776; 1984; 2406; 2534; 2662; 2790; 2918; 3046; 3174; 3302; 3430; 3558;
   3664; 3792; 3872; 4160; 4240; 6112; 6160; 6470; 6608; 6784; 6800; 6992; 7088; 7232;
   7248; 42528; 43216; 43264; 43472; 43504; 43600; 44016; 65296; 66720; 68912; 69734;
   69872; 69942; 70096; 70384; 70736; 70864; 71248; 71360; 71472; 71904; 72016; 72784;
   73040; 73120; 92768; 92864; 93008; 120782; 120792; 120802; 120812; 120822; 123200;
   123632; 125264; 130032].

Definition decimal (c : Z) : option Z :=
  (λ iz, c - iz.2) <$> list_find (λ z, z <= c < z + 10) digit_zeros.

(** What [float()] makes of a [str] before it reads the numeral: a string
    with a character outside ASCII has its white space turned into blanks and
    its decimal digits into the digits 0 to 9, and any other character
    outside ASCII ends it with a question mark. *)
Definition to_ascii (s : list Z) : list Z :=
  if forallb (λ c, c <? 128) s then s
  else (λ c, if c <? 128 then c
             else if is_space c then 32
             else match decimal c with Some d => 48 + d | None => 63 end) <$> s.

Definition of_str (s : string) : option float :=
  let numeral := rstrip is_c_space (lstrip is_c_space (to_ascii (code_points s))) in
  let '(neg, body) := sign ((λ c, ascii_of_nat (Z.to_nat c)) <$> numeral) in
  x ← absfloatvalue body;
  Some (if neg then PrimFloat.opp x else x).

(** [x ** 2] is the C library's [pow(x, 2.0)]: it raises out of range, and
    its value is the square within one unit in the last place.  The library
    does not promise the nearest float; the square rounded once, which is
    what it returns wherever the square is a float itself, stands for it
    here. *)
Definition pow2 (x : float) : result float :=
  let y := PrimFloat.mul x x in
  if PrimFloat.is_infinity y && negb (PrimFloat.is_infinity x) then Raise OverflowError
  else Ok y.

(** [x ** 0.5] is [pow(x, 0.5)], and a complex number for a negative [x].
    Again the correctly rounded square root stands for the library's value,
    which may differ from it in the last place. *)
Definition pow_half (x : float) : power float :=
  if PrimFloat.is_nan x then PReal x
  else if PrimFloat.is_infinity x then PReal (PrimFloat.abs x)
  else if PrimFloat.eqb x PrimFloat.zero then PReal PrimFloat.zero
  else if PrimFloat.ltb x PrimFloat.zero then PComplex
  else PReal (PrimFloat.sqrt x).

(** ** [statistics.stdev] (Python 3.11)

    The library adds the values and their squares as exact fractions, so the
    sample variance is exact; the square root of that fraction is then
    rounded once.  An infinity or a nan has no fraction: the sum becomes a
    float, which has no numerator, and the call ends in [AttributeError].
    A [Fraction] is a rational number in lowest terms: a [Q], reduced where
    its numerator and denominator are read. *)

(** The fraction of [x.as_integer_ratio()]; [None] for an infinity or a
    nan. *)
Definition as_integer_ratio (x : float) : option Q :=
  match Prim2SF x with
  | S754_zero _ => Some (inject_Z 0)
  | S754_finite sg m e =>
      let n := if sg then Z.neg m else Z.pos m in
      Some (if 0 <=? e then inject_Z (n * 2 ^ e) else Qmake n (Z.to_pos (2 ^ (- e))))
  | _ => None
  end.

(** [sum] of fractions. *)
Definition Qsum (l : list Q) : Q := foldr Qplus (inject_Z 0) l.

(** [n.bit_length()] *)
Definition bit_length (n : Z) : Z := if n =? 0 then 0 else Z.log2 (Z.abs n) + 1.

(** [n / m] on two integers, [0 <= n] and [0 < m]: rounded once, and
    [OverflowError] when the quotient is too large for a float. *)
Definition int_truediv (n m : Z) : result float :=
  let x := of_ratio n m in
  if PrimFloat.is_infinity x then Raise OverflowError else Ok x.

Definition _integer_sqrt_of_frac_rto (n m : Z) : Z :=
  let a := Z.sqrt (n `div` m) in
  Z.lor a (if a * a * m =? n then 0 else 1).

Definition _float_sqrt_of_frac (n m : Z) : result float :=
  let q := (bit_length n - bit_length m - 109) `div` 2 in
  if 0 <=? q
  then int_truediv (Z.shiftl (_integer_sqrt_of_frac_rto n (Z.shiftl m (2 * q))) q) 1
  else int_truediv (_integer_sqrt_of_frac_rto (Z.shiftl n (- 2 * q)) m) (Z.shiftl 1 (- q)).

(** [_ss(data)]: the sum of the squared deviations from the mean, as
    [(count * sxx - sx * sx) / count]; [None] when it is a float. *)
Definition _ss (data : list float) : option Q :=
  ratios ← mapM as_integer_ratio data;
  let count := inject_Z (Z.of_nat (length data)) in
  let sx := Qsum ratios in
  let sxx := Qsum ((λ x, Qmult x x) <$> ratios) in
  Some (Qdiv (Qminus (Qmult count sxx) (Qmult sx sx)) count).

Definition stdev (data : list float) : result float :=
  let n := Z.of_nat (length data) in
  if n <? 2 then Raise StatisticsError
  else
    match _ss data with
    | None => Raise AttributeError
    | Some ss =>
        let mss := Qred (Qdiv ss (inject_Z (n - 1))) in
        _float_sqrt_of_frac (Qnum mss) (Z.pos (Qden mss))
    end.

(** The place of a float in the order of [<], as a triple that is compared
    from the left: the sign with the kind, the exponent and the mantissa.  A
    nan has no place and sits with the zeros. *)
Definition order_key (x : spec_float) : Z * Z * Z :=
  match x with
  | S754_infinity true => (-2, 0, 0)
  | S754_finite true m e => (-1, - e, - Z.pos m)
  | S754_zero _ | S754_nan => (0, 0, 0)
  | S754_finite false m e => (1, e, Z.pos m)
  | S754_infinity false => (2, 0, 0)
  end.

Definition key_lt (a b : Z * Z * Z) : Prop :=
  a.1.1 < b.1.1 ∨ a.1.1 = b.1.1 ∧ (a.1.2 < b.1.2 ∨ a.1.2 = b.1.2 ∧ a.2 < b.2).

(** Whether the floats of the integers from [- bound] to [bound] add
    without rounding. *)
Definition exact_sums (bound : Z) : bool :=
  let range := seqZ (- bound) (2 * bound + 1) in
  forallb (λ m, forallb (λ n,
    PrimFloat.Leibniz.eqb (PrimFloat.add (of_Z m) (of_Z n)) (of_Z (m + n))) range) range.

Global Instance binary64 : PyFloat float := {|
  f_of_Z := of_Z;
  f_dec := dec;
  f_of_str := of_str;
  f_add := PrimFloat.add;
  f_sub := PrimFloat.sub;
  f_mul := PrimFloat.mul;
  f_div := PrimFloat.div;
  f_abs := PrimFloat.abs;
  f_eqb := PrimFloat.eqb;
  f_ltb := PrimFloat.ltb;
  f_leb := PrimFloat.leb;
  f_trunc := trunc;
|}.

End Binary64.

(** ** Example datasets *)

(** A string given by the bytes of its UTF-8 encoding, for characters that
    do not show in print. *)
Definition of_bytes (bytes : list Z) : string :=
  String.string_of_list_ascii ((λ b, ascii_of_nat (Z.to_nat b)) <$> bytes).

(** A table as the loader builds it from a header line and the lines below:
    one record per line, every cell a string. *)
Definition table (header : list string) (lines : list (list string)) : list row :=
  (λ cells, list_to_map (zip header (VStr <$> cells))) <$> lines.

Definition small_rows : list row :=
  table ["g"; "v"] [["a"; "1"]; ["a"; "2"]; ["b"; "5"]].

Definition large_rows : list row :=
  table ["g"; "v"] [["a"; "10000000000000000"]; ["b"; "-10000000000000000"]; ["a"; "1"]].

Definition text_rows : list row := table ["g"; "v"] [["a"; "abc"]].

Definition blank_rows : list row := table ["g"; "v"] [[""; "1"]].

(** A constant column [x] beside a column [y]. *)
Definition constant_rows : list row :=
  table ["x"; "y"] [["1.3"; "1"]; ["1.3"; "2"]; ["1.3"; "3"]].

Definition proportional_rows : list row :=
  table ["x"; "y"] [["1"; "2"]; ["2"; "4"]; ["3"; "6"]; ["4"; "8"]].

Definition aggregator (rows : list row) : DataAggregator.self :=
  {| DataAggregator.data := rows; DataAggregator.headers := ["g"; "v"] |}.

Definition analyzer (rows : list row) : DataAnalyzer.self :=
  {| DataAnalyzer.data := rows; DataAnalyzer.headers := ["g"; "v"];
     DataAnalyzer.numeric_cols := ["v"] |}.

Definition xy_analyzer (rows : list row) : DataAnalyzer.self :=
  {| DataAnalyzer.data := rows; DataAnalyzer.headers := ["x"; "y"];
     DataAnalyzer.numeric_cols := ["x"; "y"] |}.

Definition values_analyzer (cells : list string) : DataAnalyzer.self :=
  {| DataAnalyzer.data := table ["Value"] ((λ v, [v]) <$> cells);
     DataAnalyzer.headers := ["Value"];
     DataAnalyzer.numeric_cols := ["Value"] |}.

(** ** Notions the specification uses *)

Definition sumZ (l : list Z) : Z := foldr Z.add 0 l.

(** The sum of the counts of all cells of a cross-tabulation. *)
Definition crosstab_total (t : dict pyval (dict pyval Z)) : Z :=
  sumZ ((λ kv, sumZ (dict_values kv.2)) <$> t).

(** A cross-tabulation as a set of cells. *)
Definition crosstab_cell (t : dict pyval (dict pyval Z)) (k1 k2 : pyval) (n : Z) : Prop :=
  ∃ inner, (k1, inner) ∈ t ∧ (k2, n) ∈ inner.

(** [t[k1][k2]], when both keys are there. *)
Definition crosstab_get (t : dict pyval (dict pyval Z)) (k1 k2 : pyval) : option Z :=
  inner ← dict_get k1 t; dict_get k2 inner.

(** No key occurs twice, at either level. *)
Definition crosstab_wf (t : dict pyval (dict pyval Z)) : Prop :=
  NoDup (dict_keys t) ∧ ∀ k1 inner, (k1, inner) ∈ t → NoDup (dict_keys inner).

(** *** Orders

    Python sorts, and takes a minimum or a maximum, with [<] alone.  The
    values decide the outcome when [<] is a strict weak order on them:
    nothing is less than itself, [<] is transitive, and a value less than
    another is less than any third one unless the third is less than the
    other.  On floats that is the case as long as none of them is a nan. *)
Definition weak_order {A} (lt : A → A → bool) (l : list A) : Prop :=
  ∀ x y z, x ∈ l → y ∈ l → z ∈ l →
    lt x x = false ∧
    (lt x y = true → lt y z = true → lt x z = true) ∧
    (lt x y = true → lt x z = true ∨ lt z y = true).

(** The same as a test, for a list at hand. *)
Definition weak_orderb {A} (lt : A → A → bool) (l : list A) : bool :=
  forallb (λ x, forallb (λ y, forallb (λ z,
    negb (lt x x) && implb (lt x y && lt y z) (lt x z)
    && implb (lt x y) (lt x z || lt z y)) l) l) l.

(** Two values neither of which is less than the other. *)
Definition tied {A} (lt : A → A → bool) (x y : A) : Prop := lt x y = false ∧ lt y x = false.

Global Instance tied_dec {A} (lt : A → A → bool) (x y : A) : Decision (tied lt x y).
Proof. unfold tied. apply _. Defined.

(** [sv] is [l] sorted: the same elements, none of them followed by one
    that is less, and tied elements in the order they have in [l]. *)
Definition stable_sort_of {A} (lt : A → A → bool) (l sv : list A) : Prop :=
  sv ≡ₚ l ∧
  StronglySorted (λ a b, lt b a = false) sv ∧
  ∀ x, x ∈ l → filter (tied lt x) sv = filter (tied lt x) l.

(** [m] is the minimum of [l] as [min] returns it, the first of the least
    elements: it is less than every element before it, and no element after
    it is less. *)
Definition minimum_of {A} (lt : A → A → bool) (l : list A) (m : A) : Prop :=
  ∃ l1 l2, l = l1 ++ m :: l2 ∧ Forall (λ y, lt m y = true) l1 ∧ Forall (λ y, lt y m = false) l2.

(** The maximum as [max] returns it, the first of the greatest elements. *)
Definition maximum_of {A} (lt : A → A → bool) (l : list A) (m : A) : Prop :=
  ∃ l1 l2, l = l1 ++ m :: l2 ∧ Forall (λ y, lt y m = true) l1 ∧ Forall (λ y, lt m y = false) l2.

(** The sample variance of exact values: the sum of their squared
    deviations from the mean, divided by [n - 1]. *)
Definition sample_variance (xs : list Q) : Q :=
  let n := inject_Z (Z.of_nat (length xs)) in
  let mean := Qdiv (Binary64.Qsum xs) n in
  Qdiv (Binary64.Qsum ((λ x, Qmult (Qminus x mean) (Qminus x mean)) <$> xs))
       (Qminus n (inject_Z 1)).

Section notions.
Context {F : Type} `{PyFloat F}.

(** The float a value parses as, if any. *)
Definition float_of (v : pyval) : option F :=
  match py_float v with Ok x => Some x | Raise _ => None end.

(** The value of a cell when it parses as a float. *)
Definition parsed (r : row) (col : string) : option F := float_of (get r col).

(** The values [get_statistics], [find_outliers] and [percentile] read from
    a column: a record without the column counts as the integer 0. *)
Definition stat_values (rows : list row) (col : string) : list F :=
  omap float_of ((λ r, get_or r col (VInt 0)) <$> rows).

(** The median as the specification words it, on a sorted list: the middle
    element of an odd number of values, the average of the two middle
    elements of an even number. *)
Definition middle_of (sv : list F) : option F :=
  let n := length sv in
  if Nat.odd n then sv !! (n / 2)%nat
  else a ← sv !! (n / 2 - 1)%nat; b ← sv !! (n / 2)%nat; Some (f_div (f_add a b) (f_of_Z 2)).

(** The records with a float in both columns, as pairs (x, y). *)
Definition valid_pairs (rows : list row) (col1 col2 : string) : list (F * F) :=
  omap (λ r, x ← parsed r col1; y ← parsed r col2; Some (x, y)) rows.

(** Pearson's coefficient by the sum formula
    [r = (n Σxy − Σx Σy) / sqrt((n Σx² − (Σx)²) (n Σy² − (Σy)²))],
    and [r = 0] when the denominator is 0, over a squaring function [sq] and
    a square root [rt]. *)
Section pearson.
Variable sq : F → F.
Variable rt : F → F.
Variable pairs : list (F * F).

Definition square (a : num F) : num F :=
  match a with NInt z => NInt (z * z) | NFloat x => NFloat (sq x) end.
Definition n_pairs : num F := NInt (Z.of_nat (length pairs)).
Definition Σx : num F := py_sum ((λ p, NFloat p.1) <$> pairs).
Definition Σy : num F := py_sum ((λ p, NFloat p.2) <$> pairs).
Definition Σxy : num F := py_sum ((λ p, NFloat (f_mul p.1 p.2)) <$> pairs).
Definition Σx2 : num F := py_sum ((λ p, NFloat (sq p.1)) <$> pairs).
Definition Σy2 : num F := py_sum ((λ p, NFloat (sq p.2)) <$> pairs).

Definition pearson_numerator : num F :=
  num_sub (num_mul n_pairs Σxy) (num_mul Σx Σy).
Definition pearson_denominator : num F :=
  NFloat (rt (to_float (num_mul (num_sub (num_mul n_pairs Σx2) (square Σx))
                                (num_sub (num_mul n_pairs Σy2) (square Σy))))).
Definition pearson : num F :=
  if num_eqb pearson_denominator (NInt 0) then NInt 0
  else NFloat (f_div (to_float pearson_numerator) (to_float pearson_denominator)).
End pearson.

(** The labels of a coefficient [r]. *)
Definition at_least (a : num F) (m e : Z) : bool := num_leb (NFloat (f_dec m e)) a.

Definition strength_label (r : num F) : string :=
  if at_least (num_abs r) 9 (-1) then "perfect"
  else if at_least (num_abs r) 7 (-1) then "strong"
  else if at_least (num_abs r) 5 (-1) then "moderate"
  else if num_ltb (NInt 0) (num_abs r) then "weak"
  else "none".

Definition direction_label (r : num F) : string :=
  if num_ltb (NInt 0) r then "positive"
  else if num_ltb r (NInt 0) then "negative"
  else "none".

(** What [correlate_metrics] is to return on the valid pairs. *)
Definition correlation_of (sq rt : F → F) (round_ndigits : F → Z → F)
    (pairs : list (F * F)) : DataAnalyzer.correlation_result F :=
  if (length pairs <? 2)%nat
  then DataAnalyzer.Build_correlation_result (NInt 0) "none" "none"
  else
    let r := pearson sq rt pairs in
    DataAnalyzer.Build_correlation_result
      (DataAnalyzer.num_round round_ndigits r 4) (strength_label r) (direction_label r).

(** What [find_outliers] computes from the valid values of a column. *)
Definition outliers_of (pow2 : F → result F) (pow_half : F → power F)
    (vs : list F) (threshold : F) : result (list F) :=
  if (length vs <? 2)%nat then Ok [] else DataAnalyzer.outliers_among pow2 pow_half vs threshold.

(** The statistics record of the valid values [vs] of a column, which are
    not none, with [std_dev] for the standard deviation: the count, the sum
    from the left, the mean as the sum by the count, the minimum, the maximum,
    the median of the sorted values and the range. *)
Definition statistics_of (vs : list F) (std_dev : num F) (st : DataAnalyzer.statistics F)
    : Prop :=
  ∃ mn mx sv med,
    minimum_of f_ltb vs mn ∧ maximum_of f_ltb vs mx ∧
    stable_sort_of f_ltb vs sv ∧ middle_of sv = Some med ∧
    st = DataAnalyzer.Build_statistics
           (NInt (Z.of_nat (length vs)))
           (py_sum (NFloat <$> vs))
           (NFloat (f_div (to_float (py_sum (NFloat <$> vs))) (f_of_Z (Z.of_nat (length vs)))))
           (NFloat mn) (NFloat mx) (NFloat med) std_dev (NFloat (f_sub mx mn)).

(** The standard deviation of the record: 0 for a single value, and what
    [stdev] returns for more. *)
Definition deviation_of (stdev : list F → result F) (vs : list F) (std_dev : num F) : Prop :=
  if decide (length vs = 1%nat) then std_dev = NInt 0
  else ∃ x, stdev vs = Ok x ∧ std_dev = NFloat x.

(** The group key of a record under a grouping column. *)
Definition group_key (r : row) (col : string) : pyval :=
  match r !! col with Some v => v | None => VStr "Unknown" end.

(** The (key, value) pair of a record whose value parses. *)
Definition item_of (group_col value_col : string) (r : row) : option (pyval * F) :=
  x ← parsed r value_col; Some (group_key r group_col, x).

Definition items (rows : list row) (group_col value_col : string) : list (pyval * F) :=
  omap (item_of group_col value_col) rows.

(** The values of the pairs with key [k], in order. *)
Definition item_values (k : pyval) (its : list (pyval * F)) : list F :=
  omap (λ it, if decide (it.1 = k) then Some it.2 else None) its.

(** The parsed values of [value_col] over the records of group [k]. *)
Definition group_values (rows : list row) (group_col value_col : string) (k : pyval) : list F :=
  item_values k (items rows group_col value_col).

(** All parsed values of [value_col]. *)
Definition column_values (rows : list row) (value_col : string) : list F :=
  omap (λ r, parsed r value_col) rows.

(** The records of group [k]. *)
Definition group_rows (rows : list row) (group_col : string) (k : pyval) : list row :=
  filter (λ r, group_key r group_col = k) rows.

(** The records of the cell [(k1, k2)] of a cross-tabulation. *)
Definition cell_rows (rows : list row) (col1 col2 : string) (k1 k2 : pyval) : list row :=
  filter (λ r, group_key r col1 = k1 ∧ group_key r col2 = k2) rows.

Definition nonempty {A} (l : list A) : option (list A) :=
  if l is [] then None else Some l.

(** A count as a dictionary holds it: no entry for zero. *)
Definition positive_count (n : nat) : option Z :=
  if n is O then None else Some (Z.of_nat n).

(** The parsed values of [value_col], in dataset order, over the records
    whose keys under [group_cols] are [keys]. *)
Definition path_values (rows : list row) (group_cols : list string) (value_col : string)
    (keys : list pyval) : list F :=
  omap (λ r, if decide (group_key r <$> group_cols = keys) then parsed r value_col else None)
       rows.

(** [t[k1][k2]...[kn]] in a nested dictionary. *)
Fixpoint nested_path (keys : list pyval) (t : dict pyval (DataAggregator.nested F))
    : option (DataAggregator.nested F) :=
  match keys with
  | [] => None
  | k :: rest =>
      match rest with
      | [] => dict_get k t
      | _ :: _ =>
          match dict_get k t with
          | Some (DataAggregator.NDict sub) => nested_path rest sub
          | _ => None
          end
      end
  end.

(** What a group path with the values [vals] holds: nothing when there is
    no value, else the leaf [sum(vals)]. *)
Definition leaf_sum (vals : list F) : option (DataAggregator.nested F) :=
  if vals is [] then None else Some (DataAggregator.NLeaf (py_sum (NFloat <$> vals))).

(** [current.get(last_key, 0)] at the end of a path. *)
Definition leaf_or_zero (o : option (DataAggregator.nested F)) : num F :=
  match o with Some (DataAggregator.NLeaf x) => x | _ => NInt 0 end.

(** The values of the pairs filed under [keys]. *)
Definition pairs_values (keys : list pyval) (pairs : list (list pyval * F)) : list F :=
  omap (λ p, if decide (p.1 = keys) then Some p.2 else None) pairs.

(** Every group of the accumulator of [compare_metrics] has a list for
    every metric. *)
Definition metrics_ready (metric_cols : list string)
    (acc : dict pyval (dict string (list F))) : Prop :=
  ∀ k metrics, dict_get k acc = Some metrics →
    ∀ c, c ∈ metric_cols → is_Some (dict_get c metrics).

(** Every path of a nested dictionary has [n] keys: [n - 1] levels of
    dictionaries above the numbers. *)
Fixpoint uniform (n : nat) (t : dict pyval (DataAggregator.nested F)) : Prop :=
  match n with
  | O => False
  | S m =>
      ∀ k x, dict_get k t = Some x →
        match m with
        | O => ∃ y, x = DataAggregator.NLeaf y
        | S _ => ∃ sub, x = DataAggregator.NDict sub ∧ uniform m sub
        end
  end.
End notions.

(** The keys of a list in the order in which they first appear: the order
    of insertion into a dictionary. *)
Definition first_seen {K} `{EqDecision K} (l : list K) : list K :=
  foldl (λ acc k, if decide (k ∈ acc) then acc else acc ++ [k]) [] l.

(** The names of the operation tables. *)
Definition aggregate_operations : list string := ["sum"; "avg"; "min"; "max"; "count"].
Definition rank_operations : list string := ["sum"; "avg"; "count"].
Definition comparison_operators : list string := [">"; "<"; ">="; "<="; "=="; "!="].

Section conditions.
Context {F : Type} `{PyFloat F}.

(** The comparison [filter_by_condition] makes for [operator]. *)
Definition compares (operator : string) (x y : F) : bool :=
  default (λ x y, f_eqb x y) (dict_get operator DataAggregator.comparators) x y.

(** A record meets a condition when its cell parses as a float that
    compares as asked with the value. *)
Definition meets (col operator : string) (value : F) (r : row) : bool :=
  match parsed r col with Some x => compares operator x value | None => false end.
End conditions.

Section metrics.
Context {F : Type} `{PyFloat F}.

(** [sum(vals) / len(vals) if vals else 0] *)
Definition average (vals : list F) : num F :=
  if vals is [] then NInt 0
  else NFloat (f_div (to_float (py_sum (NFloat <$> vals))) (to_float (py_len vals))).

(** [acc[k][c]] in the accumulator of [compare_metrics]. *)
Definition metric_values (acc : dict pyval (dict string (list F))) (k : pyval) (c : string)
    : option (list F) :=
  metrics ← dict_get k acc; dict_get c metrics.

(** What the accumulator holds once the records [seen] are in. *)
Definition accumulated (group_col : string) (cols : list string) (seen : list row)
    (acc : dict pyval (dict string (list F))) : Prop :=
  (∀ k, is_Some (dict_get k acc) ↔ group_rows seen group_col k ≠ []) ∧
  ∀ k c, c ∈ cols → is_Some (dict_get k acc) →
    metric_values acc k c = Some (group_values seen group_col c k).
End metrics.

(** The sums of [correlate_metrics] with the two columns exchanged. *)
Definition exchanged {F} (stats : DataAnalyzer.sums F) : DataAnalyzer.sums F :=
  DataAnalyzer.Build_sums (DataAnalyzer.sum_y stats) (DataAnalyzer.sum_x stats)
    (DataAnalyzer.sum_xy stats) (DataAnalyzer.sum_y2 stats) (DataAnalyzer.sum_x2 stats).

Section loader_notions.
Context {F : Type} `{PyFloat F}.

(** The table [type_confidence] after the rows of a stream. *)
Definition confidence_of (headers : list string) (rows : list row)
    : dict string DataLoader.confidence :=
  foldl (λ tc r, foldl (DataLoader.count_value (F:=F) r) tc headers) [] rows.

(** Whether the loader takes a column of a stream for numeric. *)
Definition classified_numeric (headers : list string) (rows : list row) (col : string) : bool :=
  match DataLoader.is_numeric (F:=F) (confidence_of headers rows) col with
  | Ok b => b
  | Raise _ => false
  end.
End loader_notions.

(** A stream with field names and the data lines below them. *)
Definition stream_of (header : list string) (lines : list (list string)) : DataLoader.DictReader :=
  DataLoader.Build_DictReader (Some header) (table header lines).

(** Whether the loader counts the cell of a record as numeric: it is not
    empty or blank, and parses as a float. *)
Definition cell_numeric {F} `{PyFloat F} (r : row) (col : string) : bool :=
  DataAnalyzer.nonblank (get_or r col (VStr ""))
  && is_ok (py_float (F:=F) (get_or r col (VStr ""))).

(** Two streams: g, v with the lines a, 1; a, 2; b, 5, and x, y with the
    lines 1, 2; 2, 4; 3, 6; 4, 8. *)
Definition small_stream : DataLoader.DictReader :=
  stream_of ["g"; "v"] [["a"; "1"]; ["a"; "2"]; ["b"; "5"]].
Definition proportional_stream : DataLoader.DictReader :=
  stream_of ["x"; "y"] [["1"; "2"]; ["2"; "4"]; ["3"; "6"]; ["4"; "8"]].

(** The values 10, 20, ..., 100 of the column "Value". *)
Definition tens : DataAnalyzer.self :=
  values_analyzer ["10"; "20"; "30"; "40"; "50"; "60"; "70"; "80"; "90"; "100"].

(** The operation [rank] applies when asked for [operation]: its table has
    no ["min"] and no ["max"], which fall back to the sum like any unknown
    name. *)
Definition rank_operation (operation : string) : string :=
  if decide (operation = "min" ∨ operation = "max") then "sum" else operation.

(** Two numbers are told apart by their IEEE 754 decompositions. *)
Ltac num_discriminate H :=
  apply (f_equal (λ a : num float,
                    match a with NFloat y => Prim2SF y | NInt _ => S754_nan end)) in H;
  vm_compute in H; discriminate H.

(** * Properties *)

(** ** Dictionaries *)

Section dict_facts.
Context {K V : Type} `{EqDecision K}.
Implicit Types (k : K) (v : V) (d : dict K V).

Lemma dict_get_set_eq k v d : dict_get k (dict_set k v d) = Some v.
Proof.
  induction d as [|[k' v'] d IH]; simpl.
  - by rewrite decide_True.
  - destruct (decide (k = k')) as [->|Hne]; simpl.
    + by rewrite decide_True.
    + by rewrite decide_False.
Qed.

Lemma dict_get_set_ne k k' v d : k ≠ k' → dict_get k' (dict_set k v d) = dict_get k' d.
Proof.
  intros Hne. induction d as [|[k0 v0] d IH]; simpl.
  - by rewrite decide_False.
  - destruct (decide (k = k0)) as [->|Hk]; simpl.
    + by rewrite !decide_False.
    + by rewrite IH.
Qed.

Lemma dict_get_set k k' v d :
  dict_get k' (dict_set k v d) = if decide (k' = k) then Some v else dict_get k' d.
Proof.
  destruct (decide (k' = k)) as [->|Hne].
  - apply dict_get_set_eq.
  - by apply dict_get_set_ne.
Qed.

Lemma dict_get_Some_elem k v d : dict_get k d = Some v → (k, v) ∈ d.
Proof.
  induction d as [|[k' v'] d IH]; simpl; [done|].
  destruct (decide (k = k')) as [->|Hne].
  - intros [= ->]. left.
  - intros Hd. right. auto.
Qed.

Lemma dict_get_None k d : dict_get k d = None ↔ k ∉ dict_keys d.
Proof.
  unfold dict_keys. induction d as [|[k' v'] d IH]; simpl.
  - split; [intros _; apply not_elem_of_nil | done].
  - rewrite not_elem_of_cons. destruct (decide (k = k')) as [->|Hne].
    + split; [done | by intros [? _]].
    + rewrite IH. tauto.
Qed.

Lemma dict_get_is_Some k d : is_Some (dict_get k d) ↔ k ∈ dict_keys d.
Proof.
  rewrite <-not_eq_None_Some, dict_get_None.
  destruct (decide (k ∈ dict_keys d)); tauto.
Qed.

Lemma elem_dict_get k v d : NoDup (dict_keys d) → (k, v) ∈ d → dict_get k d = Some v.
Proof.
  unfold dict_keys. induction d as [|[k' v'] d IH]; simpl.
  - intros _ Hin. by apply elem_of_nil in Hin.
  - rewrite NoDup_cons. intros [Hnotin Hnd] Hin.
    apply elem_of_cons in Hin as [[= -> ->]|Hin].
    + by rewrite decide_True.
    + rewrite decide_False; [auto|].
      intros ->. apply Hnotin. apply list_elem_of_fmap. by exists (k', v).
Qed.

(** A new key goes last; a known key keeps its place. *)
Lemma dict_keys_set k v d :
  dict_keys (dict_set k v d) =
    if decide (k ∈ dict_keys d) then dict_keys d else dict_keys d ++ [k].
Proof.
  unfold dict_keys. induction d as [|[k' v'] d IH].
  - rewrite decide_False; [done | apply not_elem_of_nil].
  - cbn [dict_set]. destruct (decide (k = k')) as [->|Hne].
    + rewrite decide_True; [done | rewrite fmap_cons; left].
    + rewrite !fmap_cons, IH. cbn [fst]. destruct (decide (k ∈ d.*1)).
      * rewrite decide_True; [done | by right].
      * rewrite decide_False; [done | rewrite not_elem_of_cons; tauto].
Qed.

Lemma dict_set_NoDup k v d : NoDup (dict_keys d) → NoDup (dict_keys (dict_set k v d)).
Proof.
  intros Hnd. rewrite dict_keys_set. case_decide; [done|].
  apply NoDup_app. split_and!; [done | | apply NoDup_singleton].
  intros x Hx Hx'. apply list_elem_of_singleton in Hx' as ->. done.
Qed.

End dict_facts.

Section dict_sums.
Context {K V : Type} `{EqDecision K}.

Lemma sumZ_app l1 l2 : sumZ (l1 ++ l2) = sumZ l1 + sumZ l2.
Proof. unfold sumZ. induction l1 as [|x l1 IH]; simpl; lia. Qed.

Lemma sumZ_dict_set (f : V → Z) (k : K) (v : V) (d : dict K V) :
  sumZ (f <$> dict_values (dict_set k v d)) =
    sumZ (f <$> dict_values d) - from_option f 0 (dict_get k d) + f v.
Proof.
  unfold dict_values, sumZ. induction d as [|[k' v'] d IH]; cbn [dict_set dict_get].
  - simpl. lia.
  - destruct (decide (k = k')) as [->|Hne]; rewrite !fmap_cons; cbn [foldr snd].
    + simpl. lia.
    + rewrite IH. lia.
Qed.

Lemma elem_dict_set (k k' : K) (v v' : V) (d : dict K V) :
  NoDup (dict_keys d) → (k', v') ∈ dict_set k v d →
  (k' = k ∧ v' = v) ∨ (k' ≠ k ∧ (k', v') ∈ d).
Proof.
  intros Hnd Hin.
  apply (elem_dict_get _ _ _ (dict_set_NoDup k v d Hnd)) in Hin.
  rewrite dict_get_set in Hin. case_decide as Hk.
  - left. by simplify_eq.
  - right. split; [done | by apply dict_get_Some_elem].
Qed.
End dict_sums.

(** ** Cross-tabulation *)

Section cross_tabulation.
Import DataAggregator.
Implicit Types (acc : dict pyval (dict pyval Z)) (r : row).

Lemma inner_total_set (k : pyval) (n : Z) (inner : dict pyval Z) :
  sumZ (dict_values (dict_set k n inner)) =
    sumZ (dict_values inner) - default 0 (dict_get k inner) + n.
Proof.
  pose proof (sumZ_dict_set (K:=pyval) (λ n : Z, n) k n inner) as Hin.
  rewrite !list_fmap_id in Hin. rewrite Hin. by destruct (dict_get k inner).
Qed.

Lemma crosstab_total_set (k : pyval) (inner : dict pyval Z) acc :
  crosstab_total (dict_set k inner acc) =
    crosstab_total acc - sumZ (dict_values (default [] (dict_get k acc)))
      + sumZ (dict_values inner).
Proof.
  pose proof (sumZ_dict_set (K:=pyval) (λ d : dict pyval Z, sumZ (dict_values d)) k inner acc)
    as Hout.
  unfold crosstab_total, dict_values in *. rewrite <-!list_fmap_compose in Hout.
  etrans; [exact Hout|]. by destruct (dict_get k acc).
Qed.

Lemma build_crosstab_total col1 col2 acc r :
  crosstab_total (build_crosstab col1 col2 acc r) = crosstab_total acc + 1.
Proof.
  unfold build_crosstab.
  set (key1 := get_or r col1 _). set (key2 := get_or r col2 _).
  rewrite crosstab_total_set, inner_total_set.
  destruct (dict_get key1 acc) as [inner|] eqn:Hk.
  - rewrite Hk. simpl. lia.
  - rewrite dict_get_set_eq, crosstab_total_set, Hk. simpl. lia.
Qed.

Lemma build_crosstab_wf col1 col2 acc r :
  crosstab_wf acc → crosstab_wf (build_crosstab col1 col2 acc r).
Proof.
  unfold build_crosstab.
  set (key1 := get_or r col1 _). set (key2 := get_or r col2 _).
  intros [Hnd Hinner].
  set (acc1 := if dict_get key1 acc is None then dict_set key1 [] acc else acc).
  assert (crosstab_wf acc1) as [Hnd1 Hinner1].
  { subst acc1. destruct (dict_get key1 acc); [done|]. split.
    - by apply dict_set_NoDup.
    - intros k1 inner Hin. apply elem_dict_set in Hin as [[_ ->]|[_ Hin]]; eauto.
      apply NoDup_nil_2. }
  split.
  - by apply dict_set_NoDup.
  - intros k1 inner Hin. apply elem_dict_set in Hin as [[_ ->]|[_ Hin]]; eauto.
    apply dict_set_NoDup.
    destruct (dict_get key1 acc1) as [inner1|] eqn:Hk; simpl; [|apply NoDup_nil_2].
    apply dict_get_Some_elem in Hk. eauto.
Qed.

Lemma build_crosstab_positive col1 col2 acc r :
  crosstab_wf acc →
  (∀ k1 k2 n, crosstab_cell acc k1 k2 n → 1 ≤ n) →
  ∀ k1 k2 n, crosstab_cell (build_crosstab col1 col2 acc r) k1 k2 n → 1 ≤ n.
Proof.
  unfold build_crosstab.
  set (key1 := get_or r col1 _). set (key2 := get_or r col2 _).
  intros [Hnd Hinner] Hpos.
  set (acc1 := if dict_get key1 acc is None then dict_set key1 [] acc else acc).
  assert (NoDup (dict_keys acc1) ∧
          (∀ k1 inner, (k1, inner) ∈ acc1 → NoDup (dict_keys inner)) ∧
          ∀ k1 k2 n, crosstab_cell acc1 k1 k2 n → 1 ≤ n) as (Hnd1 & Hinner1 & Hpos1).
  { subst acc1. destruct (dict_get key1 acc); [done|]. split_and!.
    - by apply dict_set_NoDup.
    - intros k1 inner Hin. apply elem_dict_set in Hin as [[_ ->]|[_ Hin]]; eauto.
      apply NoDup_nil_2.
    - intros k1 k2 n (inner & Hin & Hcell).
      apply elem_dict_set in Hin as [[_ ->]|[_ Hin]]; [|by eapply Hpos; eexists|done].
      by apply elem_of_nil in Hcell. }
  intros k1 k2 n (inner & Hin & Hcell).
  apply elem_dict_set in Hin as [[-> ->]|[_ Hin]];
    [|by eapply Hpos1; eexists|done].
  destruct (dict_get key1 acc1) as [inner1|] eqn:Hk; simpl in Hcell.
  - apply dict_get_Some_elem in Hk.
    apply elem_dict_set in Hcell as [[-> ->]|[_ Hcell]]; [| |by eauto].
    + destruct (dict_get key2 inner1) as [m|] eqn:Hm; simpl; [|lia].
      apply dict_get_Some_elem in Hm.
      assert (1 ≤ m) by (eapply Hpos1; by eexists). lia.
    + eapply Hpos1. by eexists.
  - apply list_elem_of_singleton in Hcell as [= -> ->]. simpl. lia.
Qed.

Lemma crosstab_fold col1 col2 (l : list row) acc :
  crosstab_wf acc →
  (∀ k1 k2 n, crosstab_cell acc k1 k2 n → 1 ≤ n) →
  let t := foldl (build_crosstab col1 col2) acc l in
  crosstab_total t = crosstab_total acc + Z.of_nat (length l) ∧
  crosstab_wf t ∧
  ∀ k1 k2 n, crosstab_cell t k1 k2 n → 1 ≤ n.
Proof.
  revert acc. induction l as [|r l IH]; intros acc Hwf Hpos; simpl.
  - split_and!; [lia | done | done].
  - destruct (IH (build_crosstab col1 col2 acc r)) as (Htot & Hwf' & Hpos').
    + by apply build_crosstab_wf.
    + by apply build_crosstab_positive.
    + split_and!; [|done|done]. rewrite Htot, build_crosstab_total. lia.
Qed.

Lemma build_crosstab_get col1 col2 acc r k1 k2 :
  crosstab_get (build_crosstab col1 col2 acc r) k1 k2 =
    if decide (group_key r col1 = k1 ∧ group_key r col2 = k2)
    then Some (default 0 (crosstab_get acc k1 k2) + 1)
    else crosstab_get acc k1 k2.
Proof.
  unfold build_crosstab, crosstab_get.
  change (get_or r col1 (VStr "Unknown")) with (group_key r col1).
  change (get_or r col2 (VStr "Unknown")) with (group_key r col2).
  set (key1 := group_key r col1). set (key2 := group_key r col2).
  rewrite dict_get_set. destruct (decide (k1 = key1)) as [->|Hk1]; simpl.
  - rewrite dict_get_set.
    destruct (dict_get key1 acc) as [inner|] eqn:Hinner; simpl.
    + rewrite Hinner. simpl. repeat case_decide; naive_solver.
    + rewrite dict_get_set_eq. simpl. repeat case_decide; naive_solver.
  - rewrite decide_False by naive_solver.
    destruct (dict_get key1 acc) eqn:Hinner; [done|]. by rewrite dict_get_set_ne.
Qed.

Lemma crosstab_get_fold col1 col2 (l : list row) : ∀ acc (seen : list row),
  (∀ k1 k2, crosstab_get acc k1 k2 = positive_count (length (cell_rows seen col1 col2 k1 k2))) →
  ∀ k1 k2, crosstab_get (foldl (build_crosstab col1 col2) acc l) k1 k2
           = positive_count (length (cell_rows (seen ++ l) col1 col2 k1 k2)).
Proof.
  induction l as [|r l IH]; intros acc seen Hseen k1 k2; simpl.
  - by rewrite app_nil_r.
  - specialize (IH (build_crosstab col1 col2 acc r) (seen ++ [r])).
    rewrite <-(assoc_L (++)) in IH. apply IH. clear k1 k2 IH. intros k1 k2.
    rewrite build_crosstab_get, Hseen. unfold cell_rows.
    rewrite filter_app, length_app, filter_cons, filter_nil.
    case_decide; simpl.
    + destruct (length _); simpl; f_equal; lia.
    + f_equal. lia.
Qed.

(** C10. Every record contributes to exactly one cell of
    [cross_tabulation(col1, col2)]: the call returns a table (it never
    raises) in which no key is repeated; the cell of a pair of keys holds
    the number of records with these two keys (and is absent when there is
    none); the counts of all cells add up to the number of records of the
    dataset, and every stored count is at least 1. *)
Theorem cross_tabulation_counts (s : self) (col1 col2 : string) :
  ∃ t, cross_tabulation s col1 col2 = Ok t ∧
       crosstab_wf t ∧
       (∀ k1 k2, crosstab_get t k1 k2
                 = positive_count (length (cell_rows (data s) col1 col2 k1 k2))) ∧
       crosstab_total t = Z.of_nat (length (data s)) ∧
       ∀ k1 k2 n, crosstab_cell t k1 k2 n → 1 ≤ n.
Proof.
  eexists. split; [reflexivity|].
  destruct (crosstab_fold col1 col2 (data s) []) as (Htot & Hwf & Hpos).
  - split; [apply NoDup_nil_2 | intros ?? Hin; by apply elem_of_nil in Hin].
  - intros ??? (inner & Hin & _). by apply elem_of_nil in Hin.
  - split_and!; [done | | by rewrite Htot | done].
    by apply (crosstab_get_fold col1 col2 (data s) [] []).
Qed.
End cross_tabulation.

(** ** The error monad *)

Section result_facts.
Context {A B : Type}.

Lemma result_mapM_fmap (f : A → result B) (g : A → B) (l : list A) :
  (∀ x, x ∈ l → f x = Ok (g x)) → result_mapM f l = Ok (g <$> l).
Proof.
  induction l as [|x l IH]; intros Hf; simpl; [done|].
  rewrite Hf by left. simpl. rewrite IH; [done|].
  intros y Hy. apply Hf. by right.
Qed.

Lemma result_mapM_raise (f : A → result B) (l1 l2 : list A) (x : A) (e : exn) :
  (∀ y, y ∈ l1 → is_ok (f y) = true) → f x = Raise e →
  result_mapM f (l1 ++ x :: l2) = Raise e.
Proof.
  intros Hok Hx. induction l1 as [|y l1 IH]; simpl.
  - by rewrite Hx.
  - specialize (Hok y) as Hy. destruct (f y); [|by discriminate Hy; left].
    simpl. rewrite IH; [done|]. intros z Hz. apply Hok. by right.
Qed.
End result_facts.

(** ** Parsing cells *)

Section parsing.
Context {F : Type} `{PyFloat F}.

Lemma py_float_parsed (r : row) (col : string) (x : F) :
  py_float (get r col) = Ok x ↔ parsed r col = Some x.
Proof. unfold parsed, float_of. destruct (py_float (get r col)); naive_solver. Qed.

Lemma valid_get (r : row) (col : string) :
  is_ok (py_float (get r col)) = true →
  ∃ x, parsed r col = Some x ∧ py_float (get_or r col (VInt 0)) = Ok x.
Proof.
  unfold parsed, float_of, get, get_or. destruct (r !! col) as [v|]; simpl; [|done].
  destruct (py_float v) as [x|]; [|done]. intros _. by exists x.
Qed.

Lemma invalid_get (r : row) (col : string) :
  is_ok (py_float (get r col)) = false → parsed r col = None.
Proof. unfold parsed, float_of. by destruct (py_float (get r col)). Qed.

Lemma get_or_group_key (r : row) (col : string) :
  get_or r col (VStr "Unknown") = group_key r col.
Proof. unfold get_or, group_key. by destruct (r !! col). Qed.
End parsing.

(** ** Multi-level grouping *)

Section group_by_multi.
Import DataAggregator.
Context {F : Type} `{PyFloat F}.
Implicit Types (t : dict pyval (nested F)) (keys ks : list pyval).

Lemma uniform_nil n : n ≠ O → uniform n ([] : dict pyval (nested F)).
Proof. destruct n; [done|]. intros _ k x. done. Qed.

Lemma build_nested_spec keys : ∀ n t (val : F),
  uniform n t → length keys = n →
  ∃ t', build_nested keys val t = Ok t' ∧ uniform n t' ∧
    ∀ ks, length ks = n →
      nested_path ks t' =
        if decide (ks = keys)
        then Some (NLeaf (num_add (leaf_or_zero (nested_path keys t)) (NFloat val)))
        else nested_path ks t.
Proof.
  induction keys as [|key rest IH]; intros n t val Hu Hlen.
  { simpl in Hlen. subst n. destruct Hu. }
  destruct rest as [|key2 rest].
  - (* the last key *)
    simpl in Hlen. subst n. cbn [build_nested nested_path].
    assert (∃ y, default (NLeaf (NInt 0)) (dict_get key t) = NLeaf y ∧
                 y = leaf_or_zero (dict_get key t)) as (y & -> & ->).
    { destruct (dict_get key t) as [x|] eqn:Hk; simpl; [|by eexists].
      destruct (Hu _ _ Hk) as [y ->]. by eexists. }
    eexists. split_and!; [done| |].
    + intros k x. rewrite dict_get_set. case_decide; [|by apply Hu].
      intros [= <-]. by eexists.
    + intros [|k [|??]] Hks; try done. cbn [nested_path].
      rewrite dict_get_set. repeat case_decide; naive_solver.
  - (* an inner level *)
    destruct n as [|[|m]]; try done.
    assert (length (key2 :: rest) = S m) as Hlen' by (simpl in *; lia).
    assert (∃ sub, uniform (S m) sub ∧
              nested_path (key2 :: rest) sub = nested_path (key :: key2 :: rest) t ∧
              build_nested (key :: key2 :: rest) val t =
                (sub' ← build_nested (key2 :: rest) val sub; Ok (dict_set key (NDict sub') t)) ∧
              ∀ ks, length ks = S m →
                nested_path (key :: ks) t = nested_path ks sub)
      as (sub & Hsub & Hpath & -> & Hsame).
    { destruct (dict_get key t) as [x|] eqn:Hk.
      - destruct (Hu _ _ Hk) as (sub & -> & Hsub). exists sub.
        split_and!; [done| | |].
        + cbn [nested_path]. by rewrite Hk.
        + cbn [build_nested]. by rewrite Hk.
        + intros [|??] ?; [done|]. cbn [nested_path]. by rewrite Hk.
      - exists []. split_and!; [by apply uniform_nil| | |].
        + cbn [nested_path]. rewrite Hk. by destruct rest.
        + cbn [build_nested]. by rewrite Hk.
        + intros [|k1 [|??]] ?; try done; cbn [nested_path]; by rewrite Hk. }
    destruct (IH (S m) sub val Hsub Hlen') as (sub' & -> & Hsub' & Hpaths).
    eexists. split_and!; [done| |].
    + intros k x. rewrite dict_get_set. case_decide; [|by apply Hu].
      intros [= <-]. by eexists.
    + intros [|k ks] Hks; [done|]. injection Hks as Hks.
      destruct ks as [|k2 ks]; [done|].
      change (nested_path (k :: k2 :: ks) (dict_set key (NDict sub') t)) with
        (match dict_get k (dict_set key (NDict sub') t) with
         | Some (NDict sub0) => nested_path (k2 :: ks) sub0
         | _ => None
         end).
      rewrite dict_get_set. destruct (decide (k = key)) as [->|Hk].
      * rewrite Hpaths by done. rewrite Hpath, (Hsame (k2 :: ks)) by done.
        repeat case_decide; naive_solver.
      * rewrite decide_False by naive_solver. done.
Qed.
End group_by_multi.

Section group_by_multi_fold.
Import DataAggregator.
Context {F : Type} `{PyFloat F}.
Implicit Types (t : dict pyval (nested F)) (keys ks : list pyval).

Lemma leaf_sum_snoc (vals : list F) (val : F) :
  Some (NLeaf (num_add (leaf_or_zero (leaf_sum vals)) (NFloat val))) = leaf_sum (vals ++ [val]).
Proof.
  unfold leaf_sum, py_sum. rewrite fmap_app, foldl_app. simpl.
  destruct vals as [|v vals]; simpl; [done|]. done.
Qed.

Lemma reduce_build_nested (pairs : list (list pyval * F)) : ∀ n t (seen : list pyval → list F),
  uniform n t →
  (∀ p, p ∈ pairs → length p.1 = n) →
  (∀ ks, length ks = n → nested_path ks t = leaf_sum (seen ks)) →
  ∃ t', reduceM (λ acc item, build_nested item.1 item.2 acc) pairs t = Ok t' ∧
    uniform n t' ∧
    ∀ ks, length ks = n → nested_path ks t' = leaf_sum (seen ks ++ pairs_values ks pairs).
Proof.
  induction pairs as [|[keys val] pairs IH]; intros n t seen Hu Hlen Hseen.
  - exists t. split_and!; [done|done|]. intros ks Hks. rewrite app_nil_r. auto.
  - assert (length keys = n) as Hkeys by (apply (Hlen (keys, val)); left).
    destruct (build_nested_spec keys n t val Hu Hkeys) as (t1 & Hb & Hu1 & Hp1).
    cbn [reduceM]. cbn [fst snd]. rewrite Hb. simpl.
    destruct (IH n t1 (λ ks, seen ks ++ (if decide (keys = ks) then [val] else []))
                Hu1) as (t' & -> & Hu' & Hp').
    + intros p Hp. apply Hlen. by right.
    + intros ks Hks. rewrite Hp1 by done. destruct (decide (ks = keys)) as [->|Hne].
      * rewrite decide_True by done. rewrite Hseen by done. apply leaf_sum_snoc.
      * rewrite decide_False by done. rewrite app_nil_r. auto.
    + exists t'. split_and!; [done|done|]. intros ks Hks. rewrite Hp' by done.
      f_equal. rewrite <-app_assoc. f_equal.
      unfold pairs_values. cbn [omap list_omap fst snd]. by destruct (decide (keys = ks)).
Qed.

Lemma to_key_value_parsed (group_cols : list string) (value_col : string) (r : row) (x : F) :
  py_float (get_or r value_col (VInt 0)) = Ok x →
  to_key_value group_cols value_col r = Ok (group_key r <$> group_cols, x).
Proof.
  intros Hf. unfold to_key_value. by rewrite Hf.
Qed.

Lemma pairs_of_rows (rows : list row) (group_cols : list string) (value_col : string) :
  ∃ pairs,
    result_mapM (to_key_value group_cols value_col)
      (filter (λ r, _is_valid_number (get r value_col) = true) rows) = Ok pairs ∧
    (∀ p, p ∈ pairs → length p.1 = length group_cols) ∧
    ∀ ks, pairs_values ks pairs = path_values rows group_cols value_col ks.
Proof.
  induction rows as [|r rows (pairs & Hm & Hlen & Hv)].
  - exists []. split_and!; [done| |done]. intros p Hp. by apply elem_of_nil in Hp.
  - unfold path_values. cbn [omap list_omap].
    destruct (_is_valid_number (get r value_col)) eqn:Hok.
    + rewrite filter_cons_True by done.
      destruct (valid_get r value_col Hok) as (x & Hx & Hf).
      exists ((group_key r <$> group_cols, x) :: pairs). split_and!.
      * cbn [result_mapM]. rewrite (to_key_value_parsed _ _ _ x), Hm by done. done.
      * intros p Hp. apply elem_of_cons in Hp as [->|Hp]; [|auto].
        apply length_fmap.
      * intros ks. unfold pairs_values. cbn [omap list_omap fst snd].
        rewrite Hx. fold (pairs_values ks pairs). rewrite Hv.
        by destruct (decide (group_key r <$> group_cols = ks)).
    + rewrite filter_cons_False by (by rewrite Hok).
      exists pairs. split_and!; [done|done|]. intros ks. rewrite Hv.
      rewrite (invalid_get r value_col Hok).
      by destruct (decide (group_key r <$> group_cols = ks)).
Qed.

(** With a non-empty list of group columns and a known value column
    [group_by_multi] returns: every path of the nested dictionary has one
    key per group column, and the leaf under a path is the sum of the
    parsed values of the records with these keys. *)
Lemma group_by_multi_leaves (s : self) (group_cols : list string)
    (value_col operation : string) :
  group_cols ≠ [] → value_col ∈ headers s →
  ∃ t, group_by_multi s group_cols value_col operation = Ok t ∧
    uniform (length group_cols) t ∧
    ∀ keys, length keys = length group_cols →
      nested_path keys t = leaf_sum (path_values (data s) group_cols value_col keys).
Proof.
  intros Hcols Hcol. unfold group_by_multi.
  rewrite bool_decide_false by done. rewrite bool_decide_false by naive_solver.
  cbn [orb].
  destruct (pairs_of_rows (data s) group_cols value_col) as (pairs & -> & Hlen & Hv).
  simpl.
  destruct (reduce_build_nested pairs (length group_cols) [] (λ _, [])) as (t & Ht & Hu & Hp).
  - apply uniform_nil. by destruct group_cols.
  - done.
  - intros ks Hks. by destruct ks as [|? [|??]].
  - exists t. split_and!; [done|done|]. intros keys Hk. rewrite Hp by done. simpl.
    by rewrite Hv.
Qed.

(** C9. [group_by_multi] never looks at its [operation] argument: for a
    non-empty list of group columns and a known value column, the call
    with any operation is the call with ["sum"]; it returns a nested
    dictionary in which every path has one key per group column, and the
    leaf under a path of group keys is the sum of the parsed values of
    [value_col], in dataset order, over the records with these keys (no
    entry when no such record parses). *)
Theorem group_by_multi_always_sums (s : self) (group_cols : list string)
    (value_col operation : string) :
  group_cols ≠ [] → value_col ∈ headers s →
  group_by_multi s group_cols value_col operation
    = group_by_multi s group_cols value_col "sum" ∧
  ∃ t, group_by_multi s group_cols value_col operation = Ok t ∧
    uniform (length group_cols) t ∧
    ∀ keys, length keys = length group_cols →
      nested_path keys t = leaf_sum (path_values (data s) group_cols value_col keys).
Proof.
  intros Hcols Hcol. split; [done|].
  by apply group_by_multi_leaves.
Qed.
End group_by_multi_fold.

(** ** Grouping a stream of (key, value) pairs *)

Section grouping.
Import DataAggregator.
Context {F : Type} `{PyFloat F}.
Implicit Types (its : list (pyval * F)) (acc : dict pyval (list F)) (k : pyval).

Lemma to_item_spec (group_col value_col : string) (r : row) :
  to_item group_col value_col r = Ok (item_of group_col value_col r).
Proof.
  unfold to_item, item_of, _is_valid_number.
  destruct (is_ok (py_float (get r value_col))) eqn:Hok.
  - destruct (valid_get r value_col Hok) as (x & -> & ->). done.
  - by rewrite (invalid_get r value_col Hok).
Qed.

Lemma stream_spec (rows : list row) (group_col value_col : string) :
  ∃ mapped, result_mapM (to_item group_col value_col) rows = Ok mapped ∧
            omap id mapped = items rows group_col value_col.
Proof.
  exists (item_of group_col value_col <$> rows). split.
  - apply result_mapM_fmap. intros r _. apply to_item_spec.
  - unfold items. induction rows as [|r rows IH]; [done|].
    rewrite fmap_cons. cbn [omap list_omap]. rewrite IH.
    by destruct (item_of group_col value_col r).
Qed.

Lemma item_values_app k its1 its2 :
  item_values k (its1 ++ its2) = item_values k its1 ++ item_values k its2.
Proof. apply omap_app. Qed.

Lemma item_values_one k (it : pyval * F) :
  item_values k [it] = if decide (it.1 = k) then [it.2] else [].
Proof. unfold item_values. cbn [omap list_omap]. by case_decide. Qed.

Lemma group_item_get acc (it : pyval * F) k :
  dict_get k (group_item acc it) =
    if decide (k = it.1) then Some (default [] (dict_get k acc) ++ [it.2]) else dict_get k acc.
Proof.
  unfold group_item. rewrite dict_get_set. by case_decide; simplify_eq.
Qed.

(** After the reduction a key holds the values filed under it, in order,
    and only keys with a value are present. *)
Lemma grouped_spec its : ∀ acc (seen : list (pyval * F)),
  NoDup (dict_keys acc) →
  (∀ k, dict_get k acc = nonempty (item_values k seen)) →
  let d := foldl group_item acc its in
  NoDup (dict_keys d) ∧ ∀ k, dict_get k d = nonempty (item_values k (seen ++ its)).
Proof.
  induction its as [|it its IH]; intros acc seen Hnd Hseen; simpl.
  - split; [done|]. intros k. by rewrite app_nil_r.
  - specialize (IH (group_item acc it) (seen ++ [it])).
    rewrite <-(assoc_L (++)) in IH. apply IH.
    + by apply dict_set_NoDup.
    + intros k. rewrite group_item_get, item_values_app, Hseen, item_values_one.
      destruct (decide (k = it.1)) as [->|Hne].
      * rewrite decide_True by done. by destruct (item_values it.1 seen).
      * rewrite decide_False by done. by rewrite app_nil_r.
Qed.

Lemma grouped_get its k :
  dict_get k (foldl group_item [] its) = nonempty (item_values k its).
Proof. by apply (grouped_spec its [] []); [apply NoDup_nil_2|]. Qed.

Lemma grouped_NoDup its : NoDup (dict_keys (foldl group_item [] its)).
Proof. by apply (grouped_spec its [] []); [apply NoDup_nil_2|]. Qed.

Lemma grouped_elem its k (vs : list F) :
  (k, vs) ∈ foldl group_item [] its → vs = item_values k its ∧ vs ≠ [].
Proof.
  intros Hin. apply elem_dict_get in Hin; [|apply grouped_NoDup].
  rewrite grouped_get in Hin. unfold nonempty in Hin.
  destruct (item_values k its); naive_solver.
Qed.

End grouping.

(** ** [aggregate] *)

Section aggregate.
Import DataAggregator.
Context {F : Type} `{PyFloat F}.
Implicit Types (s : self) (k : pyval) (d : dict pyval (list F)).

Lemma aggregate_unfold s (group_col value_col operation : string) :
  group_col ∈ headers s → value_col ∈ headers s →
  aggregate s group_col value_col operation =
    result_mapM (λ kv, x ← default op_sum (dict_get operation ops) kv.2; Ok (kv.1, x))
      (foldl group_item [] (items (data s) group_col value_col)).
Proof.
  intros Hg Hv. unfold aggregate.
  rewrite !bool_decide_false by naive_solver. cbn [orb].
  destruct (stream_spec (data s) group_col value_col) as (mapped & -> & <-). done.
Qed.

Lemma aggregate_invalid s (group_col value_col operation : string) :
  group_col ∉ headers s ∨ value_col ∉ headers s →
  aggregate s group_col value_col operation = Raise ValueError.
Proof.
  intros Hno. unfold aggregate.
  destruct Hno; [rewrite (bool_decide_true (group_col ∉ _)) by done; done|].
  rewrite (bool_decide_true (value_col ∉ _)) by done. by rewrite orb_true_r.
Qed.

Lemma results_fmap {A B} (f : A → result B) (fv : A → B) (d : dict pyval A) :
  (∀ k vs, (k, vs) ∈ d → f vs = Ok (fv vs)) →
  result_mapM (λ kv, x ← f kv.2; Ok (kv.1, x)) d = Ok ((λ kv, (kv.1, fv kv.2)) <$> d).
Proof.
  intros Hf. apply result_mapM_fmap. intros [k vs] Hin. simpl. by rewrite (Hf k vs).
Qed.

Lemma dict_get_fmap {A B} (fv : A → B) (d : dict pyval A) k :
  dict_get k ((λ kv, (kv.1, fv kv.2)) <$> d) = fv <$> dict_get k d.
Proof.
  induction d as [|[k' v'] d IH]; [done|]. rewrite fmap_cons. cbn [dict_get fst snd].
  by case_decide.
Qed.

Lemma dict_keys_fmap {A B} (fv : A → B) (d : dict pyval A) :
  dict_keys ((λ kv, (kv.1, fv kv.2)) <$> d) = dict_keys d.
Proof. unfold dict_keys. rewrite <-list_fmap_compose. by apply list_fmap_ext. Qed.

(** Every operation of the table is defined on a group, which is never
    empty. *)
Lemma ops_total (operation : string) (vs : list F) :
  vs ≠ [] → ∃ x, default op_sum (dict_get operation ops) vs = Ok x.
Proof.
  intros Hne. unfold ops. cbn [dict_get].
  repeat case_decide; cbn [default from_option id];
    unfold op_sum, op_avg, op_min, op_max, op_count; try by eexists.
  - destruct vs as [|v vs]; [done|]. unfold num_truediv, py_len, num_eqb, compare_with.
    cbn [length]. rewrite (proj2 (Z.eqb_neq _ 0)) by lia. by eexists.
  - destruct vs as [|v vs]; [done|]. by eexists.
  - destruct vs as [|v vs]; [done|]. by eexists.
Qed.

Lemma results_ok {A B} (f : A → result B) (d : dict pyval A) :
  (∀ k vs, (k, vs) ∈ d → ∃ x, f vs = Ok x) →
  ∃ res, result_mapM (λ kv, x ← f kv.2; Ok (kv.1, x)) d = Ok res ∧
         dict_keys res = dict_keys d.
Proof.
  induction d as [|[k' vs] d IH]; intros Hf.
  - by exists [].
  - destruct IH as (res & Hres & Hkeys); [intros ???; eapply Hf; by right|].
    destruct (Hf k' vs) as [x Hx]; [left|].
    exists ((k', x) :: res). split.
    + cbn [result_mapM fst snd]. rewrite Hx. simpl. by rewrite Hres.
    + unfold dict_keys in *. rewrite !fmap_cons. by f_equal.
Qed.

Lemma aggregate_ok s (group_col value_col operation : string) :
  group_col ∈ headers s → value_col ∈ headers s →
  ∃ res, aggregate s group_col value_col operation = Ok res ∧
         dict_keys res = dict_keys (foldl group_item [] (items (data s) group_col value_col)).
Proof.
  intros Hg Hv. rewrite aggregate_unfold by done.
  apply results_ok. intros k vs Hin. apply ops_total. by eapply grouped_elem.
Qed.

Lemma aggregate_count s (group_col value_col : string) :
  group_col ∈ headers s → value_col ∈ headers s →
  aggregate s group_col value_col "count" =
    Ok ((λ kv, (kv.1, py_len kv.2)) <$> foldl group_item [] (items (data s) group_col value_col)).
Proof. intros Hg Hv. rewrite aggregate_unfold by done. by apply results_fmap. Qed.

Lemma aggregate_sum s (group_col value_col : string) :
  group_col ∈ headers s → value_col ∈ headers s →
  aggregate s group_col value_col "sum" =
    Ok ((λ kv, (kv.1, py_sum (NFloat <$> kv.2)))
          <$> foldl group_item [] (items (data s) group_col value_col)).
Proof.
  intros Hg Hv. rewrite aggregate_unfold by done.
  by apply (results_fmap op_sum (λ vs, py_sum (NFloat <$> vs))).
Qed.

Lemma count_row_get (group_col : string) (acc : dict pyval Z) (r : row) k :
  dict_get k (count_row group_col acc r) =
    if decide (k = group_key r group_col) then Some (default 0 (dict_get k acc) + 1)
    else dict_get k acc.
Proof.
  unfold count_row. rewrite dict_get_set.
  change (get_or r group_col (VStr "Unknown")) with (group_key r group_col).
  by case_decide; simplify_eq.
Qed.

Lemma group_and_count_fold (group_col : string) (rows : list row) :
  ∀ (acc : dict pyval Z) (seen : list row),
    NoDup (dict_keys acc) →
    (∀ k, dict_get k acc = positive_count (length (group_rows seen group_col k))) →
    let c := foldl (count_row group_col) acc rows in
    NoDup (dict_keys c) ∧
    ∀ k, dict_get k c = positive_count (length (group_rows (seen ++ rows) group_col k)).
Proof.
  induction rows as [|r rows IH]; intros acc seen Hnd Hseen; simpl.
  - split; [done|]. intros k. by rewrite app_nil_r.
  - specialize (IH (count_row group_col acc r) (seen ++ [r])).
    rewrite <-(assoc_L (++)) in IH. apply IH.
    + by apply dict_set_NoDup.
    + intros k. rewrite count_row_get, Hseen. unfold group_rows.
      rewrite filter_app, length_app, filter_cons, filter_nil.
      destruct (decide (k = group_key r group_col)) as [->|Hne].
      * rewrite decide_True by done. simpl.
        destruct (length _) as [|n]; simpl; f_equal; lia.
      * rewrite decide_False by done. simpl. f_equal. lia.
Qed.

Lemma group_and_count_get s (group_col : string) k :
  ∃ c, group_and_count s group_col = Ok c ∧ NoDup (dict_keys c) ∧
       dict_get k c = positive_count (length (group_rows (data s) group_col k)).
Proof.
  eexists. split; [reflexivity|].
  destruct (group_and_count_fold group_col (data s) [] []) as [Hnd Hget];
    [apply NoDup_nil_2 | done | ].
  split; [done | apply Hget].
Qed.

Lemma group_values_length (rows : list row) (group_col value_col : string) k :
  (∀ r, r ∈ rows → group_key r group_col = k → is_Some (parsed (F:=F) r value_col)) →
  length (group_values (F:=F) rows group_col value_col k) = length (group_rows rows group_col k).
Proof.
  unfold group_values, items, group_rows, item_values.
  induction rows as [|r rows IH]; intros Hall; [done|].
  rewrite filter_cons. cbn [omap list_omap]. unfold item_of at 1.
  specialize (IH (λ r' Hr', Hall r' (list_elem_of_further _ _ _ Hr'))).
  destruct (parsed r value_col) as [x|] eqn:Hx; cbn [mbind option_bind omap list_omap fst snd].
  - case_decide; simpl; by rewrite IH.
  - rewrite decide_False; [done|]. intros Hk.
    destruct (Hall r) as [? ?]; [left|done|congruence].
Qed.

(** C4 (as amended). For known columns, [aggregate(g, v, "count")] and
    [group_and_count(g)] both return; the first counts, under a key, the
    records of the group whose value parses as a float, and the second all
    records of the group.  When every record of group [k] has a value that
    parses, the two results agree at [k]: the same count, or no entry in
    either. *)
Theorem aggregate_count_group_and_count s (group_col value_col : string) k :
  group_col ∈ headers s → value_col ∈ headers s →
  ∃ res c,
    aggregate s group_col value_col "count" = Ok res ∧
    group_and_count s group_col = Ok c ∧
    dict_get k res = py_len <$> nonempty (group_values (F:=F) (data s) group_col value_col k) ∧
    dict_get k c = positive_count (length (group_rows (data s) group_col k)) ∧
    ((∀ r, r ∈ data s → group_key r group_col = k → is_Some (parsed (F:=F) r value_col)) →
     dict_get k res = NInt <$> dict_get k c).
Proof.
  intros Hg Hv.
  destruct (group_and_count_get s group_col k) as (c & Hc & _ & Hget).
  eexists _, c. split; [by apply aggregate_count|]. split; [done|].
  rewrite dict_get_fmap, grouped_get. split; [done|]. split; [done|].
  intros Hall. rewrite Hget, <-(group_values_length _ _ value_col) by done.
  unfold group_values. by destruct (item_values k _).
Qed.
End aggregate.

(** ** Conservation of totals *)

Section conservation.
Import DataAggregator.
Context {F : Type} `{PyFloat F}.

Lemma foldl_num_add_float (a : F) (vs : list F) :
  foldl num_add (NFloat a) (NFloat <$> vs) = NFloat (foldl f_add a vs).
Proof. revert a. induction vs as [|v vs IH]; intros a; simpl; [done|]. apply IH. Qed.

Lemma concat_group_item (acc : dict pyval (list F)) (it : pyval * F) :
  concat (dict_values (group_item acc it)) ≡ₚ concat (dict_values acc) ++ [it.2].
Proof.
  unfold group_item, dict_values. destruct it as [k x]. cbn [fst snd].
  induction acc as [|[k' vs] acc IH]; cbn [dict_get dict_set].
  - done.
  - destruct (decide (k = k')) as [->|Hne]; rewrite !fmap_cons; cbn [snd concat default from_option id].
    + rewrite <-!(assoc_L (++)). f_equiv. apply Permutation_app_comm.
    + rewrite IH. by rewrite (assoc_L (++)).
Qed.

Lemma concat_grouped (its : list (pyval * F)) : ∀ acc,
  concat (dict_values (foldl group_item acc its)) ≡ₚ concat (dict_values acc) ++ its.*2.
Proof.
  induction its as [|it its IH]; intros acc; simpl.
  - by rewrite app_nil_r.
  - rewrite IH, concat_group_item, <-(assoc_L (++)). done.
Qed.

Lemma items_values (rows : list row) (group_col value_col : string) :
  (items rows group_col value_col).*2 = column_values rows value_col.
Proof.
  unfold items, column_values, item_of. induction rows as [|r rows IH]; [done|].
  cbn [omap list_omap]. destruct (parsed r value_col); simpl; [|done].
  by f_equal.
Qed.

Lemma sumZ_cons (n : Z) (l : list Z) : sumZ (n :: l) = n + sumZ l.
Proof. done. Qed.

Lemma sumZ_perm (l1 l2 : list Z) : l1 ≡ₚ l2 → sumZ l1 = sumZ l2.
Proof. induction 1; rewrite ?sumZ_cons; lia. Qed.

Lemma sumZ_concat (groups : list (list Z)) : sumZ (sumZ <$> groups) = sumZ (concat groups).
Proof.
  induction groups as [|g groups IH]; [done|].
  rewrite fmap_cons. cbn [concat]. rewrite sumZ_app, <-IH. done.
Qed.

Lemma sumZ_abs (ns : list Z) : Z.abs (sumZ ns) ≤ sumZ (Z.abs <$> ns).
Proof. induction ns as [|n ns IH]; [done|]. rewrite fmap_cons, !sumZ_cons. lia. Qed.

Lemma sumZ_abs_concat (groups : list (list Z)) :
  sumZ (Z.abs <$> (sumZ <$> groups)) ≤ sumZ (Z.abs <$> concat groups).
Proof.
  induction groups as [|g groups IH]; [done|].
  rewrite !fmap_cons, sumZ_cons. cbn [concat]. rewrite fmap_app, sumZ_app.
  pose proof (sumZ_abs g). lia.
Qed.

(** An exactness certificate for the additions: the integers up to [bound]
    in absolute value have floats, [rep n], whose sums are not rounded.
    Binary64 has one with [bound] at 2^53. *)
Variable rep : Z → F.
Variable bound : Z.
Hypothesis rep_zero : f_of_Z 0 = rep 0.
Hypothesis rep_add : ∀ m n,
  Z.abs m ≤ bound → Z.abs n ≤ bound → Z.abs (m + n) ≤ bound → f_add (rep m) (rep n) = rep (m + n).

Lemma foldl_add_rep (ns : list Z) : ∀ a,
  Z.abs a + sumZ (Z.abs <$> ns) ≤ bound →
  foldl num_add (NFloat (rep a)) (NFloat <$> (rep <$> ns)) = NFloat (rep (a + sumZ ns)).
Proof using rep_add.
  induction ns as [|n ns IH]; intros a Hb.
  - simpl. by rewrite Z.add_0_r.
  - rewrite fmap_cons, sumZ_cons in Hb. rewrite sumZ_cons.
    pose proof (sumZ_abs ns) as Hns. rewrite !fmap_cons. cbn [foldl].
    change (num_add (NFloat (rep a)) (NFloat (rep n))) with (NFloat (f_add (rep a) (rep n))).
    rewrite rep_add by lia. rewrite IH by lia. do 2 f_equal. lia.
Qed.

Lemma py_sum_rep (ns : list Z) :
  sumZ (Z.abs <$> ns) ≤ bound →
  py_sum (NFloat <$> (rep <$> ns)) = if ns is [] then NInt 0 else NFloat (rep (sumZ ns)).
Proof using rep_zero rep_add.
  destruct ns as [|n ns]; [done|]. intros Hb. rewrite fmap_cons, sumZ_cons in Hb.
  pose proof (sumZ_abs ns) as Hns.
  unfold py_sum. rewrite !fmap_cons. cbn [foldl].
  change (num_add (NInt 0) (NFloat (rep n))) with (NFloat (f_add (f_of_Z 0) (rep n))).
  rewrite rep_zero, rep_add by lia. rewrite foldl_add_rep by (simpl; lia). done.
Qed.

Lemma concat_rep (groups : list (list F)) : ∀ ms : list Z,
  concat groups = fmap (M:=list) rep ms →
  ∃ mss : list (list Z), groups = fmap (M:=list) (fmap (M:=list) rep) mss ∧ ms = concat mss.
Proof.
  induction groups as [|g groups IH]; intros ms Hms; simpl in Hms.
  - symmetry in Hms. apply fmap_nil_inv in Hms as ->. by exists [].
  - symmetry in Hms. apply fmap_app_inv in Hms as (m1 & m2 & -> & Hrest & ->).
    destruct (IH m2 Hrest) as (mss & -> & ->). by exists (m1 :: mss).
Qed.

(** C1 (as amended). Where the additions are exact, the values of
    [aggregate(g, v, "sum")] add up to the sum of the entries of [v] that
    parse as floats, over the whole dataset: that is so when the entries are
    integers [ns] whose absolute values add up to no more than the bound of
    an exactness certificate.  Both sums are then the float of the integer
    total. *)
Theorem aggregate_sum_conservation (s : self) (group_col value_col : string) (ns : list Z) :
  group_col ∈ headers s → value_col ∈ headers s →
  column_values (data s) value_col = rep <$> ns →
  sumZ (Z.abs <$> ns) ≤ bound →
  ∃ res, aggregate s group_col value_col "sum" = Ok res ∧
         py_sum (dict_values res) = py_sum (NFloat <$> column_values (data s) value_col) ∧
         (ns ≠ [] → py_sum (dict_values res) = NFloat (rep (sumZ ns))).
Proof using rep_zero rep_add.
  intros Hg Hv Hns Hbound. eexists. split; [by apply aggregate_sum|].
  rewrite Hns, py_sum_rep by done.
  rewrite <-(items_values (data s) group_col value_col) in Hns.
  set (its := items (data s) group_col value_col) in *.
  assert (∀ k vs, (k, vs) ∈ foldl group_item [] its → vs ≠ []) as Hne
    by (intros ???; by eapply grouped_elem).
  pose proof (concat_grouped its []) as Hperm. simpl in Hperm. rewrite Hns in Hperm.
  revert Hne Hperm. generalize (foldl group_item [] its). intros d Hne Hperm.
  apply Permutation_map_inv in Hperm as (ms & Hms & Hperm).
  change (map rep ms) with (rep <$> ms) in Hms.
  apply concat_rep in Hms as (mss & Hd & ->).
  assert (dict_values ((λ kv : pyval * list F, (kv.1, py_sum (NFloat <$> kv.2))) <$> d)
          = NFloat <$> (rep <$> (sumZ <$> mss))) as ->.
  { assert (Forall (λ ms, ms ≠ []) mss) as Hmss.
    { apply Forall_forall. intros ms Hin Hnil. subst ms.
      assert ([] ∈ dict_values d) as Hd' by (rewrite Hd; apply list_elem_of_fmap; by exists []).
      apply list_elem_of_fmap in Hd' as ([k vs] & Hvs & Hin'). simpl in Hvs. subst vs.
      by destruct (Hne k [] Hin'). }
    assert (sumZ (Z.abs <$> concat mss) ≤ bound) as Hb
      by (by rewrite <-(sumZ_perm _ _ (fmap_Permutation Z.abs _ _ Hperm))).
    transitivity ((λ vs, py_sum (NFloat <$> vs)) <$> dict_values d).
    { unfold dict_values. rewrite <-!list_fmap_compose. by apply list_fmap_ext. }
    rewrite Hd. clear Hd Hne Hperm d. induction mss as [|ms mss IH]; [done|].
    apply Forall_cons in Hmss as [Hms Hmss]. cbn [concat] in Hb.
    rewrite fmap_app, sumZ_app in Hb.
    pose proof (sumZ_abs ms). pose proof (sumZ_abs (concat mss)).
    assert (0 ≤ sumZ (Z.abs <$> ms)) by lia. assert (0 ≤ sumZ (Z.abs <$> concat mss)) by lia.
    rewrite !fmap_cons. rewrite py_sum_rep by lia. rewrite IH by (done || lia).
    by destruct ms. }
  pose proof (sumZ_abs_concat mss) as Hgroups.
  rewrite <-(sumZ_perm _ _ (fmap_Permutation Z.abs _ _ Hperm)) in Hgroups.
  rewrite py_sum_rep by lia. rewrite sumZ_concat, <-(sumZ_perm _ _ Hperm).
  destruct mss as [|ms mss].
  - apply Permutation_nil_r in Hperm as ->. done.
  - destruct ns as [|n ns]; [|done].
    apply Permutation_nil_l in Hperm. destruct ms; [|done].
    destruct (Hne (default VNone (d.*1 !! 0%nat)) []); [|done].
    destruct d as [|[k vs] d]; [done|]. unfold dict_values in Hd. rewrite !fmap_cons in Hd.
    simpl in Hd. injection Hd as -> _. left.
Qed.
End conservation.

(** ** The stable sort *)

Section sorted_facts.
Context {A : Type} (lt : A → A → bool).

Lemma sorted_insert_perm (x : A) (l : list A) : sorted_insert lt x l ≡ₚ x :: l.
Proof.
  induction l as [|y l IH]; simpl; [done|].
  destruct (lt y x); [|done]. rewrite IH. apply Permutation_swap.
Qed.

Lemma sorted_perm (l : list A) : sorted lt l ≡ₚ l.
Proof.
  unfold sorted. induction l as [|x l IH]; simpl; [done|].
  by rewrite sorted_insert_perm, IH.
Qed.

Lemma sorted_length (l : list A) : length (sorted lt l) = length l.
Proof. apply Permutation_length, sorted_perm. Qed.

(** Stability: elements none of which goes strictly before another keep
    their original order. *)
Lemma sorted_insert_stable (P : A → Prop) `{∀ a, Decision (P a)} (x : A) (l : list A) :
  (∀ b, b ∈ l → P b → P x → lt b x = false) →
  filter P (sorted_insert lt x l) = filter P (x :: l).
Proof.
  intros Hties. induction l as [|y l IH]; simpl; [done|].
  destruct (lt y x) eqn:Hyx; [|done].
  assert (filter P (sorted_insert lt x l) = filter P (x :: l)) as IH'.
  { apply IH. intros b Hb. apply Hties. by right. }
  rewrite !filter_cons in *. destruct (decide (P y)) as [Hy|Hy].
  - destruct (decide (P x)) as [Hx|Hx]; [|by rewrite IH'].
    rewrite Hties in Hyx; [done|left|done|done].
  - by rewrite IH'.
Qed.

Lemma sorted_stable (P : A → Prop) `{∀ a, Decision (P a)} (l : list A) :
  (∀ a b, a ∈ l → b ∈ l → P a → P b → lt a b = false) →
  filter P (sorted lt l) = filter P l.
Proof.
  intros Hties. unfold sorted. induction l as [|x l IH]; simpl; [done|].
  rewrite sorted_insert_stable.
  - rewrite !filter_cons. rewrite IH; [done|].
    intros a b Ha Hb. apply Hties; by right.
  - intros b Hb. apply Hties; [|left].
    right. by rewrite <-(sorted_perm l).
Qed.

(** Order: where [lt] is asymmetric, no element of the result is followed
    directly by one that goes strictly before it. *)
Lemma sorted_insert_Sorted (x : A) (l : list A) :
  (∀ a b, lt a b = true → lt b a = false) →
  Sorted (λ a b, lt b a = false) l →
  Sorted (λ a b, lt b a = false) (sorted_insert lt x l).
Proof.
  intros Hasym. induction 1 as [|y l Hs IH Hhd]; simpl.
  - by repeat constructor.
  - destruct (lt y x) eqn:Hyx.
    + constructor; [done|]. destruct Hhd as [|z l Hz]; simpl.
      * constructor. by apply Hasym.
      * destruct (lt z x); constructor; [done | by apply Hasym].
    + constructor; [by constructor | by constructor].
Qed.

Lemma sorted_Sorted (l : list A) :
  (∀ a b, lt a b = true → lt b a = false) →
  Sorted (λ a b, lt b a = false) (sorted lt l).
Proof.
  intros Hasym. unfold sorted. induction l as [|x l IH]; simpl; [constructor|].
  by apply sorted_insert_Sorted.
Qed.
End sorted_facts.

(** ** Strict weak orders *)

Section order_facts.
Context {A : Type}.
Implicit Types (lt : A → A → bool) (l : list A).

Lemma weak_orderb_spec lt l : weak_orderb lt l = true → weak_order lt l.
Proof.
  intros Hb x y z Hx%list_elem_of_In Hy%list_elem_of_In Hz%list_elem_of_In.
  unfold weak_orderb in Hb.
  rewrite forallb_forall in Hb. specialize (Hb x Hx).
  rewrite forallb_forall in Hb. specialize (Hb y Hy).
  rewrite forallb_forall in Hb. specialize (Hb z Hz).
  destruct (lt x x), (lt x y), (lt y z), (lt x z), (lt z y); simpl in Hb;
    try done; naive_solver.
Qed.

Lemma weak_order_incl lt l l' : (∀ x, x ∈ l' → x ∈ l) → weak_order lt l → weak_order lt l'.
Proof. intros Hincl Hwo x y z Hx Hy Hz. apply Hwo; by apply Hincl. Qed.

Lemma weak_order_flip lt l : weak_order lt l → weak_order (λ a b, lt b a) l.
Proof.
  intros Hwo x y z Hx Hy Hz. split_and!.
  - by apply (Hwo x x x).
  - intros Hyx Hzy. by apply (Hwo z y x).
  - intros Hyx. destruct (Hwo y x z) as (_ & _ & Hneg); [done..|].
    destruct (Hneg Hyx); [by right|by left].
Qed.

Lemma weak_order_fmap {B} (f : B → A) lt (l : list B) :
  weak_order lt (f <$> l) → weak_order (λ a b, lt (f a) (f b)) l.
Proof.
  intros Hwo x y z Hx Hy Hz. apply Hwo; by apply list_elem_of_fmap_2.
Qed.

Lemma weak_order_irrefl lt l x : weak_order lt l → x ∈ l → lt x x = false.
Proof. intros Hwo Hx. by apply (Hwo x x x). Qed.

Lemma weak_order_trans lt l x y z :
  weak_order lt l → x ∈ l → y ∈ l → z ∈ l → lt x y = true → lt y z = true → lt x z = true.
Proof. intros Hwo Hx Hy Hz. by apply (Hwo x y z). Qed.

Lemma weak_order_asym lt l x y :
  weak_order lt l → x ∈ l → y ∈ l → lt x y = true → lt y x = false.
Proof.
  intros Hwo Hx Hy Hxy. destruct (lt y x) eqn:Hyx; [|done].
  rewrite <-(weak_order_irrefl lt l x Hwo Hx). symmetry.
  by apply (weak_order_trans lt l x y x).
Qed.

Lemma weak_order_between lt l x y z :
  weak_order lt l → x ∈ l → y ∈ l → z ∈ l →
  lt x y = true → lt z y = false → lt x z = true.
Proof.
  intros Hwo Hx Hy Hz Hxy Hzy. destruct (Hwo x y z) as (_ & _ & Hneg); [done..|].
  destruct (Hneg Hxy) as [?|Hzy']; [done|]. by rewrite Hzy in Hzy'.
Qed.

Lemma sorted_insert_StronglySorted lt (x : A) l :
  weak_order lt (x :: l) →
  StronglySorted (λ a b, lt b a = false) l →
  StronglySorted (λ a b, lt b a = false) (sorted_insert lt x l).
Proof.
  intros Hwo. induction 1 as [|y l Hs IH Hall]; simpl.
  - by repeat constructor.
  - assert (x ∈ x :: y :: l) as Hx by left.
    assert (y ∈ x :: y :: l) as Hy by (right; left).
    destruct (lt y x) eqn:Hyx.
    + constructor.
      * apply IH. eapply weak_order_incl; [|done].
        intros a [->|Ha]%elem_of_cons; [left|by do 2 right].
      * rewrite sorted_insert_perm. constructor; [|done].
        by apply (weak_order_asym lt (x :: y :: l)).
    + constructor; [by constructor|]. constructor; [done|].
      apply Forall_forall. intros z Hz.
      destruct (lt z x) eqn:Hzx; [|done].
      rewrite Forall_forall in Hall. rewrite <-(Hall z Hz). symmetry.
      apply (weak_order_between lt (x :: y :: l) z x y); [done|by do 2 right|done..].
Qed.

Lemma sorted_StronglySorted lt l :
  weak_order lt l → StronglySorted (λ a b, lt b a = false) (sorted lt l).
Proof.
  unfold sorted. induction l as [|x l IH]; intros Hwo; simpl; [constructor|].
  apply sorted_insert_StronglySorted.
  - eapply weak_order_incl; [|done].
    intros a [->|Ha]%elem_of_cons; [left|right]. by rewrite <-(sorted_perm lt l).
  - apply IH. eapply weak_order_incl; [|done]. intros a Ha. by right.
Qed.

(** Under a strict weak order the insertion sort returns the stable sort of
    the list. *)
Lemma sorted_stable_sort_of lt l : weak_order lt l → stable_sort_of lt l (sorted lt l).
Proof.
  intros Hwo. split_and!.
  - apply sorted_perm.
  - by apply sorted_StronglySorted.
  - intros x Hx. apply sorted_stable. intros a b Ha Hb [Hxa Hax] [Hxb Hbx].
    destruct (lt a b) eqn:Hab; [|done].
    destruct (Hwo a b x) as (_ & _ & Hneg); [done..|].
    destruct (Hneg Hab); congruence.
Qed.

(** The stable sort of a list is one list: whatever sorts stably returns
    it. *)
Lemma stable_sort_tails lt (sv sv' : list A) :
  (∀ x, x ∈ sv → lt x x = false) →
  sv ≡ₚ sv' →
  StronglySorted (λ a b, lt b a = false) sv →
  StronglySorted (λ a b, lt b a = false) sv' →
  (∀ x, x ∈ sv → filter (tied lt x) sv = filter (tied lt x) sv') →
  sv = sv'.
Proof.
  revert sv'. induction sv as [|a t IH]; intros sv' Hirr Hperm Hs Hs' Hties.
  - by apply Permutation_nil_l in Hperm.
  - destruct sv' as [|b t']; [by apply Permutation_nil_r in Hperm|].
    apply StronglySorted_inv in Hs as [Hs Ha]. apply StronglySorted_inv in Hs' as [Hs' Hb].
    rewrite Forall_forall in Ha, Hb.
    assert (a ∈ a :: t) as Hin by left.
    assert (b ∈ a :: t) as Hinb by (rewrite Hperm; left).
    assert (lt b a = false) as Hba.
    { apply elem_of_cons in Hinb as [->|Hinb]; [by apply Hirr|by apply Ha]. }
    assert (lt a b = false) as Hab.
    { assert (a ∈ b :: t') as [->|Hin']%elem_of_cons by (rewrite <-Hperm; left);
        [by apply Hirr|by apply Hb]. }
    pose proof (Hties a Hin) as Heq. rewrite !filter_cons in Heq.
    rewrite decide_True in Heq by (split; by apply Hirr).
    rewrite decide_True in Heq by done.
    injection Heq as <- _. f_equal.
    apply IH; [|by eapply Permutation_cons_inv|done..|].
    + intros x Hx. apply Hirr. by right.
    + intros x Hx. assert (x ∈ a :: t) as Hx' by (by right).
      specialize (Hties x Hx'). rewrite !filter_cons in Hties.
      destruct (decide (tied lt x a)); [by injection Hties|done].
Qed.

Lemma stable_sort_unique lt l (sv sv' : list A) :
  (∀ x, x ∈ l → lt x x = false) →
  stable_sort_of lt l sv → stable_sort_of lt l sv' → sv = sv'.
Proof.
  intros Hirr (Hperm & Hs & Hties) (Hperm' & Hs' & Hties').
  apply (stable_sort_tails lt); [|by rewrite Hperm, Hperm'|done..|].
  - intros x Hx. apply Hirr. by rewrite <-Hperm.
  - intros x Hx. rewrite Hperm in Hx. by rewrite Hties, Hties'.
Qed.

(** [min] and [max], which keep the first of several least or greatest
    elements. *)
Lemma foldl_minimum_of lt l : ∀ x,
  weak_order lt (x :: l) →
  minimum_of lt (x :: l) (foldl (λ cur item, if lt item cur then item else cur) x l).
Proof.
  induction l as [|y l IH]; intros x Hwo.
  - exists [], []. by repeat constructor.
  - cbn [foldl].
    assert (x ∈ x :: y :: l) as Hx by left.
    assert (y ∈ x :: y :: l) as Hy by (right; left).
    destruct (lt y x) eqn:Hyx.
    + destruct (IH y) as (l1 & l2 & Hl & Hl1 & Hl2).
      { eapply weak_order_incl; [|done]. intros a Ha. by right. }
      set (m := foldl _ y l) in *.
      assert (m ∈ x :: y :: l) as Hm by (right; rewrite Hl, elem_of_app; right; left).
      exists (x :: l1), l2. split_and!; [by rewrite Hl|constructor; [|done]|done].
      destruct l1 as [|y' l1]; simpl in Hl; injection Hl as <- Hl; [done|].
      apply Forall_cons in Hl1 as [Hmy _].
      by apply (weak_order_trans lt (x :: y :: l) m y x).
    + destruct (IH x) as (l1 & l2 & Hl & Hl1 & Hl2).
      { eapply weak_order_incl; [|done].
        intros a [->|Ha]%elem_of_cons; [left|by do 2 right]. }
      set (m := foldl _ x l) in *.
      destruct l1 as [|x' l1]; simpl in Hl; injection Hl as <- Hl.
      * exists [], (y :: l). rewrite <-Hl in *. split_and!; [done|done|by constructor].
      * assert (m ∈ x :: y :: l) as Hm by (do 2 right; rewrite Hl, elem_of_app; right; left).
        apply Forall_cons in Hl1 as [Hmx Hl1].
        exists (x :: y :: l1), l2. split_and!; [by rewrite Hl| |done].
        constructor; [done|]. constructor; [|done].
        by apply (weak_order_between lt (x :: y :: l) m x y).
Qed.
Lemma split_twice l1 l2 l1' l2' (m m' : A) :
  l1 ++ m :: l2 = l1' ++ m' :: l2' →
  m = m' ∨ m ∈ l1' ∧ m' ∈ l2 ∨ m' ∈ l1 ∧ m ∈ l2'.
Proof.
  revert l1'. induction l1 as [|x l1 IH]; intros [|x' l1'] Heq; simpl in Heq.
  - left. by injection Heq.
  - injection Heq as -> ->. right; left. split; [left|]. rewrite elem_of_app. right; left.
  - injection Heq as -> <-. right; right. split; [left|]. rewrite elem_of_app. right; left.
  - injection Heq as -> Heq. destruct (IH l1' Heq) as [?|[[? ?]|[? ?]]]; [by left| |].
    + right; left. split; [by right|done].
    + right; right. split; [by right|done].
Qed.

Lemma minimum_of_unique lt l (m m' : A) : minimum_of lt l m → minimum_of lt l m' → m = m'.
Proof.
  intros (l1 & l2 & -> & Hl1 & Hl2) (l1' & l2' & Heq & Hl1' & Hl2').
  rewrite Forall_forall in Hl1, Hl2, Hl1', Hl2'.
  destruct (split_twice _ _ _ _ _ _ Heq) as [?|[[Hm Hm']|[Hm' Hm]]]; [done| |].
  - pose proof (Hl1' m Hm). pose proof (Hl2 m' Hm'). congruence.
  - pose proof (Hl1 m' Hm'). pose proof (Hl2' m Hm). congruence.
Qed.

Lemma maximum_of_unique lt l (m m' : A) : maximum_of lt l m → maximum_of lt l m' → m = m'.
Proof. apply (minimum_of_unique (λ a b, lt b a)). Qed.
End order_facts.

(** ** [rank] *)

Section rank.
Context {F : Type} `{PyFloat F}.

Lemma rank_ops (operation : string) :
  default DataAnalyzer.op_sum (dict_get operation DataAnalyzer.ops) =
  default DataAggregator.op_sum
    (dict_get (rank_operation operation) (DataAggregator.ops (F:=F))).
Proof.
  unfold rank_operation, DataAnalyzer.ops, DataAggregator.ops. cbn [dict_get].
  repeat case_decide; simplify_eq; try done; naive_solver.
Qed.

Lemma rank_unfold (a : DataAnalyzer.self) (rank_col value_col : string) (limit : Z)
    (operation : string) :
  DataAnalyzer.rank a rank_col value_col limit operation =
    results ← result_mapM
      (λ kv, x ← default DataAggregator.op_sum
                   (dict_get (rank_operation operation) DataAggregator.ops) kv.2;
             Ok (kv.1, x))
      (foldl DataAggregator.group_item [] (items (DataAnalyzer.data a) rank_col value_col));
    Ok (slice_to (sorted (DataAnalyzer.by_value_desc num_ltb) results) limit).
Proof.
  unfold DataAnalyzer.rank. rewrite rank_ops.
  destruct (stream_spec (DataAnalyzer.data a) rank_col value_col) as (mapped & Hm & <-).
  change (DataAnalyzer.to_item rank_col value_col)
    with (DataAggregator.to_item (F:=F) rank_col value_col).
  by rewrite Hm.
Qed.

Lemma slice_to_take {A} (l : list A) (n : Z) : 0 ≤ n → slice_to l n = take (Z.to_nat n) l.
Proof. intros Hn. unfold slice_to. by rewrite (proj2 (Z.leb_le 0 n)). Qed.

(** C2 (as amended). Over one dataset, with known columns and a limit
    [N >= 0], [rank(rank_col, value_col, N, op)] and [aggregate(rank_col,
    value_col, op')] return, where [op'] is [op] except that ["min"] and
    ["max"] count as ["sum"]; the ranking has at most [N] entries and is the
    prefix of length [N] of the ranking with limit [N + 1].  When [<] orders
    the values of the aggregate, as it does unless one of them is a nan, the
    ranking is the first [N] of the aggregate's items sorted stably by
    descending value: the same items, none followed by one of greater value,
    and items of equal value in the order of the aggregate, which is the
    order in which the groups are discovered. *)
Theorem rank_sorted_aggregate (a : DataAnalyzer.self) (s : DataAggregator.self)
    (rank_col value_col : string) (limit : Z) (operation : string) :
  DataAnalyzer.data a = DataAggregator.data s →
  rank_col ∈ DataAggregator.headers s → value_col ∈ DataAggregator.headers s →
  0 ≤ limit →
  ∃ (res ranked next : list (pyval * num F)),
    DataAggregator.aggregate s rank_col value_col (rank_operation operation) = Ok res ∧
    DataAnalyzer.rank a rank_col value_col limit operation = Ok ranked ∧
    DataAnalyzer.rank a rank_col value_col (limit + 1) operation = Ok next ∧
    (length ranked ≤ Z.to_nat limit)%nat ∧
    ranked = take (Z.to_nat limit) next ∧
    (weak_order num_ltb (dict_values res) →
     ∃ full, stable_sort_of (λ x y : pyval * num F, num_ltb y.2 x.2) res full ∧
             ranked = take (Z.to_nat limit) full).
Proof.
  intros Hdata Hg Hv Hlimit.
  destruct (aggregate_ok s rank_col value_col (rank_operation operation) Hg Hv)
    as (res & Hres & _).
  exists res. eexists _, _. split; [done|].
  rewrite !rank_unfold, Hdata. rewrite aggregate_unfold in Hres by done. rewrite Hres.
  simpl. rewrite !slice_to_take by lia.
  split_and!; [done | done | | | ].
  - rewrite length_take. lia.
  - rewrite take_take. f_equal. lia.
  - intros Hwo. eexists. split; [|done].
    apply (sorted_stable_sort_of (λ x y : pyval * num F, num_ltb y.2 x.2)).
    apply (weak_order_flip (λ x y : pyval * num F, num_ltb x.2 y.2)).
    by apply (weak_order_fmap snd).
Qed.
End rank.

(** ** [get_statistics] *)

Section statistics.
Context {F : Type} `{PyFloat F}.
Variable stdev : list F → result F.

Lemma valid_floats (l : list pyval) :
  result_mapM py_float (filter (λ v, DataAnalyzer._is_valid_number v = true) l)
    = Ok (omap float_of l).
Proof.
  unfold DataAnalyzer._is_valid_number, float_of.
  induction l as [|v l IH]; [done|]. cbn [omap list_omap].
  destruct (py_float v) as [x|e] eqn:Hv.
  - rewrite filter_cons_True by (by rewrite Hv). cbn [result_mapM].
    rewrite Hv. simpl. by rewrite IH.
  - rewrite filter_cons_False by (by rewrite Hv). done.
Qed.

Lemma index_lookup {A} (l : list A) (i : nat) (x : A) :
  l !! i = Some x → index l (Z.of_nat i) = Ok x.
Proof.
  intros Hx. unfold index. rewrite (proj2 (Z.leb_le 0 _)) by lia.
  rewrite (proj2 (Z.ltb_ge _ 0)) by lia. by rewrite Nat2Z.id, Hx.
Qed.

Lemma median_middle (vs : list F) (med : F) :
  middle_of (sorted f_ltb vs) = Some med → DataAnalyzer.median vs = Ok med.
Proof.
  unfold middle_of, DataAnalyzer.median.
  set (sv := sorted f_ltb vs). set (n := length sv).
  destruct (Nat.odd n) eqn:Hodd.
  - intros Hmid. pose proof (lookup_lt_Some _ _ _ Hmid) as Hlt. fold n in Hlt.
    apply Nat.odd_spec in Hodd as [m Hm].
    rewrite (proj2 (Z.eqb_neq _ 0)) by lia.
    replace (Z.of_nat n `mod` 2) with 1 by (rewrite Hm; Z.div_mod_to_equations; lia).
    cbn [Z.eqb Pos.eqb].
    replace (Z.of_nat n `div` 2) with (Z.of_nat (n / 2)) by (apply Nat2Z.inj_div).
    by apply index_lookup.
  - intros Hmid.
    destruct (sv !! (n / 2 - 1)%nat) as [x|] eqn:Hx; [|done].
    destruct (sv !! (n / 2)%nat) as [y|] eqn:Hy; [|done]. simpl in Hmid.
    injection Hmid as <-.
    pose proof (lookup_lt_Some _ _ _ Hy) as Hlt. fold n in Hlt.
    assert (Nat.even n = true) as Heven by (by rewrite <-Nat.negb_odd, Hodd).
    apply Nat.even_spec in Heven as [m Hm].
    rewrite (proj2 (Z.eqb_neq _ 0)) by lia.
    replace (Z.of_nat n `mod` 2) with 0 by (rewrite Hm; Z.div_mod_to_equations; lia).
    cbn [Z.eqb].
    replace (Z.of_nat n `div` 2) with (Z.of_nat (n / 2)) by (apply Nat2Z.inj_div).
    replace (Z.of_nat (n / 2) - 1) with (Z.of_nat (n / 2 - 1)).
    + rewrite (index_lookup _ _ _ Hx), (index_lookup _ _ _ Hy). done.
    + assert (n / 2 ≠ 0)%nat; [|lia]. rewrite Hm in *.
      rewrite Nat.mul_comm, Nat.div_mul in * by done. lia.
Qed.

Lemma middle_of_nonempty (sv : list F) : sv ≠ [] → is_Some (middle_of sv).
Proof.
  intros Hne. unfold middle_of. set (n := length sv).
  assert (n ≠ 0)%nat as Hn by (subst n; by destruct sv).
  assert (n / 2 < n)%nat as Hhalf by (apply Nat.div_lt; lia).
  destruct (Nat.odd n) eqn:Hodd.
  - by apply lookup_lt_is_Some_2.
  - destruct (lookup_lt_is_Some_2 sv (n / 2 - 1)) as [x ->]; [fold n; lia|].
    destruct (lookup_lt_is_Some_2 sv (n / 2)) as [y ->]; [done|]. by eexists.
Qed.

Lemma foldl_num_add_fmap (vs : list F) (a : num F) :
  foldl (λ acc x, num_add acc (NFloat x)) a vs = foldl num_add a (NFloat <$> vs).
Proof. revert a. induction vs as [|v vs IH]; intros a; simpl; [done|]. apply IH. Qed.

Lemma get_statistics_empty (a : DataAnalyzer.self) (col : string) :
  stat_values (F:=F) (DataAnalyzer.data a) col = [] →
  DataAnalyzer.get_statistics stdev a col = Ok DataAnalyzer.zero_statistics.
Proof.
  intros Hvs. unfold DataAnalyzer.get_statistics. rewrite valid_floats.
  unfold stat_values in Hvs. by rewrite Hvs.
Qed.

(** With values, [get_statistics] gets as far as the call of [stdev]. *)
Lemma get_statistics_values (a : DataAnalyzer.self) (col : string) :
  let vs := stat_values (DataAnalyzer.data a) col in
  vs ≠ [] →
  ∃ mn mx med,
    py_min vs = Ok mn ∧ py_max vs = Ok mx ∧ middle_of (sorted f_ltb vs) = Some med ∧
    DataAnalyzer.get_statistics stdev a col =
      std_dev ← (if (1 <? length vs)%nat then x ← stdev vs; Ok (NFloat x) else Ok (NInt 0));
      Ok (DataAnalyzer.Build_statistics
            (NInt (Z.of_nat (length vs)))
            (py_sum (NFloat <$> vs))
            (NFloat (f_div (to_float (py_sum (NFloat <$> vs))) (f_of_Z (Z.of_nat (length vs)))))
            (NFloat mn) (NFloat mx) (NFloat med) std_dev (NFloat (f_sub mx mn))).
Proof.
  intros vs Hne. unfold DataAnalyzer.get_statistics. rewrite valid_floats.
  fold (stat_values (F:=F) (DataAnalyzer.data a) col). fold vs. simpl.
  destruct vs as [|v vs'] eqn:Hvs; [done|]. rewrite <-Hvs.
  destruct (middle_of_nonempty (sorted f_ltb vs)) as [med Hmed].
  { intros Hnil. pose proof (sorted_length f_ltb vs) as Hl. rewrite Hnil, Hvs in Hl. done. }
  rewrite (median_middle _ _ Hmed).
  unfold num_truediv, py_len, num_eqb, compare_with.
  rewrite (proj2 (Z.eqb_neq _ 0)) by (rewrite Hvs; simpl; lia).
  assert (∃ mn mx, py_min vs = Ok mn ∧ py_max vs = Ok mx) as (mn & mx & Hmn & Hmx)
    by (rewrite Hvs; by eexists _, _).
  exists mn, mx, med. rewrite Hmn, Hmx, foldl_num_add_fmap. split_and!; [done..|].
  cbn [mbind result_bind]. unfold num_gtb, num_ltb, compare_with.
  replace (1 <? Z.of_nat (length vs)) with (1 <? length vs)%nat; [done|].
  destruct (Nat.ltb_spec 1 (length vs)); [by rewrite (proj2 (Z.ltb_lt _ _)) by lia|].
  by rewrite (proj2 (Z.ltb_ge _ _)) by lia.
Qed.

(** [get_statistics] returns unless [stdev] is called and raises, and then
    it raises what [stdev] raises. *)
Lemma get_statistics_ok (a : DataAnalyzer.self) (col : string) :
  let vs := stat_values (DataAnalyzer.data a) col in
  is_ok (DataAnalyzer.get_statistics stdev a col) = true ↔
    (length vs < 2)%nat ∨ is_ok (stdev vs) = true.
Proof.
  intros vs. destruct (decide (vs = [])) as [Hnil|Hne].
  - rewrite get_statistics_empty by done. rewrite Hnil. simpl. split; [left; lia|done].
  - destruct (get_statistics_values a col Hne) as (mn & mx & med & _ & _ & _ & ->). fold vs.
    destruct (Nat.ltb_spec 1 (length vs)) as [Hlen|Hlen].
    + destruct (stdev vs) as [x|e]; simpl; split; try done; [by right|intros [?|?]; [lia|done]].
    + simpl. split; [left; lia|done].
Qed.

Lemma get_statistics_raises (a : DataAnalyzer.self) (col : string) (e : exn) :
  let vs := stat_values (DataAnalyzer.data a) col in
  DataAnalyzer.get_statistics stdev a col = Raise e ↔ (1 < length vs)%nat ∧ stdev vs = Raise e.
Proof.
  intros vs. destruct (decide (vs = [])) as [Hnil|Hne].
  - rewrite get_statistics_empty by done. rewrite Hnil. simpl. split; [done|lia].
  - destruct (get_statistics_values a col Hne) as (mn & mx & med & _ & _ & _ & ->). fold vs.
    destruct (Nat.ltb_spec 1 (length vs)) as [Hlen|Hlen].
    + destruct (stdev vs) as [x|e']; simpl; split; try done; [by intros [_ ?]|naive_solver..].
    + simpl. split; [done|lia].
Qed.

(** Where [<] orders the values, what [get_statistics] returns is the
    record of the values. *)
Lemma returned_statistics_of (a : DataAnalyzer.self) (col : string)
    (st : DataAnalyzer.statistics F) :
  let vs := stat_values (DataAnalyzer.data a) col in
  vs ≠ [] → weak_order f_ltb vs →
  DataAnalyzer.get_statistics stdev a col = Ok st ↔
    ∃ std_dev, deviation_of stdev vs std_dev ∧ statistics_of vs std_dev st.
Proof.
  intros vs Hne Hwo.
  destruct (get_statistics_values a col Hne) as (mn & mx & med & Hmn & Hmx & Hmed & ->).
  fold vs in Hmn, Hmx, Hmed |- *.
  assert (minimum_of f_ltb vs mn ∧ maximum_of f_ltb vs mx) as [Hmin Hmax].
  { destruct vs as [|v vs']; [done|]. cbn [py_min py_max] in Hmn, Hmx.
    injection Hmn as <-. injection Hmx as <-. split.
    - by apply foldl_minimum_of.
    - apply (foldl_minimum_of (λ a b, f_ltb b a)). by apply weak_order_flip. }
  pose proof (sorted_stable_sort_of f_ltb vs Hwo) as Hsorted.
  assert (∀ std_dev st',
    statistics_of vs std_dev st' ↔
    st' = DataAnalyzer.Build_statistics
            (NInt (Z.of_nat (length vs)))
            (py_sum (NFloat <$> vs))
            (NFloat (f_div (to_float (py_sum (NFloat <$> vs))) (f_of_Z (Z.of_nat (length vs)))))
            (NFloat mn) (NFloat mx) (NFloat med) std_dev (NFloat (f_sub mx mn))) as Hof.
  { intros std_dev st'. split.
    - intros (mn' & mx' & sv & med' & Hmin' & Hmax' & Hsv & Hmed' & ->).
      assert (sv = sorted f_ltb vs) as ->.
      { apply (stable_sort_unique f_ltb vs); [|done..].
        intros x Hx. by apply (weak_order_irrefl f_ltb vs). }
      rewrite Hmed in Hmed'. injection Hmed' as <-.
      rewrite (minimum_of_unique _ _ _ _ Hmin' Hmin), (maximum_of_unique _ _ _ _ Hmax' Hmax).
      done.
    - intros ->. by exists mn, mx, (sorted f_ltb vs), med. }
  unfold deviation_of. destruct (decide (length vs = 1%nat)) as [Hone|Hmany].
  - assert ((1 <? length vs)%nat = false) as -> by (by rewrite Hone). simpl. split.
    + intros [= <-]. exists (NInt 0). split; [done|by apply Hof].
    + intros (sd & -> & Hst). apply Hof in Hst. by subst st.
  - rewrite (proj2 (Nat.ltb_lt 1 (length vs))) by (destruct vs; [done|simpl in *; lia]).
    destruct (stdev vs) as [x|e]; simpl.
    + split.
      * intros [= <-]. exists (NFloat x). split; [by exists x|by apply Hof].
      * intros (sd & (x' & [= <-] & ->) & Hst). apply Hof in Hst. by subst st.
    + split; [done|]. by intros (sd & (x' & ? & _) & _).
Qed.
End statistics.

(** ** [correlate_metrics] *)

Section correlation.
Context {F : Type} `{PyFloat F}.
Variable pow2 : F → result F.
Variable pow_half : F → power F.
Variable round_ndigits : F → Z → F.

Lemma to_pair_spec (col1 col2 : string) (r : row) :
  DataAnalyzer.to_pair col1 col2 r
    = Ok (x ← parsed r col1; y ← parsed r col2; Some (x, y)).
Proof.
  unfold DataAnalyzer.to_pair, DataAnalyzer._is_valid_number.
  destruct (is_ok (py_float (get r col1))) eqn:H1.
  - destruct (valid_get r col1 H1) as (x & -> & ->).
    destruct (is_ok (py_float (get r col2))) eqn:H2.
    + destruct (valid_get r col2 H2) as (y & -> & ->). done.
    + by rewrite (invalid_get r col2 H2).
  - by rewrite (invalid_get r col1 H1).
Qed.

Lemma pairs_spec (rows : list row) (col1 col2 : string) :
  ∃ mapped, result_mapM (DataAnalyzer.to_pair col1 col2) rows = Ok mapped ∧
            omap id mapped = valid_pairs rows col1 col2.
Proof.
  exists ((λ r, x ← parsed r col1; y ← parsed r col2; Some (x, y)) <$> rows). split.
  - apply result_mapM_fmap. intros r _. apply to_pair_spec.
  - unfold valid_pairs. induction rows as [|r rows IH]; [done|].
    rewrite fmap_cons. cbn [omap list_omap]. rewrite IH.
    by destruct (_ ≫= _).
Qed.

(** The records without a float in both columns play no part. *)
Lemma correlate_metrics_pairs (a : DataAnalyzer.self) (col1 col2 : string) :
  DataAnalyzer.correlate_metrics pow2 pow_half round_ndigits a col1 col2 =
    DataAnalyzer.correlate_pairs pow2 pow_half round_ndigits
      (valid_pairs (DataAnalyzer.data a) col1 col2).
Proof.
  unfold DataAnalyzer.correlate_metrics.
  destruct (pairs_spec (DataAnalyzer.data a) col1 col2) as (mapped & Hm & Hp).
  rewrite Hm. cbn [mbind result_bind]. by rewrite Hp.
Qed.

Lemma correlate_few_pairs (pairs : list (F * F)) :
  (length pairs < 2)%nat →
  DataAnalyzer.correlate_pairs pow2 pow_half round_ndigits pairs
    = Ok (DataAnalyzer.Build_correlation_result (NInt 0) "none" "none").
Proof.
  intros Hlt. unfold DataAnalyzer.correlate_pairs.
  by rewrite (proj2 (Z.ltb_lt _ 2)) by lia.
Qed.

(** Where no square overflows and no power is complex, the result is the
    specification's. *)
Section ideal.
Variable sq : F → F.
Variable rt : F → F.
Hypothesis pow2_sq : ∀ x, pow2 x = Ok (sq x).
Hypothesis pow_half_rt : ∀ x, pow_half x = PReal (rt x).

Lemma num_square_sq (a : num F) : DataAnalyzer.num_square pow2 a = Ok (square sq a).
Proof using pow2_sq. destruct a; simpl; [done|]. by rewrite pow2_sq. Qed.

Lemma add_pair_sq (acc : DataAnalyzer.sums F) (p : F * F) :
  DataAnalyzer.add_pair pow2 acc p =
    Ok (DataAnalyzer.Build_sums
          (num_add (DataAnalyzer.sum_x acc) (NFloat p.1))
          (num_add (DataAnalyzer.sum_y acc) (NFloat p.2))
          (num_add (DataAnalyzer.sum_xy acc) (NFloat (f_mul p.1 p.2)))
          (num_add (DataAnalyzer.sum_x2 acc) (NFloat (sq p.1)))
          (num_add (DataAnalyzer.sum_y2 acc) (NFloat (sq p.2)))).
Proof using pow2_sq. unfold DataAnalyzer.add_pair. by rewrite !num_square_sq. Qed.

(** The one reduction computes the five sums. *)
Lemma add_pair_sums (pairs : list (F * F)) : ∀ acc,
  reduceM (DataAnalyzer.add_pair pow2) pairs acc =
    Ok (DataAnalyzer.Build_sums
          (foldl num_add (DataAnalyzer.sum_x acc) ((λ p, NFloat p.1) <$> pairs))
          (foldl num_add (DataAnalyzer.sum_y acc) ((λ p, NFloat p.2) <$> pairs))
          (foldl num_add (DataAnalyzer.sum_xy acc) ((λ p, NFloat (f_mul p.1 p.2)) <$> pairs))
          (foldl num_add (DataAnalyzer.sum_x2 acc) ((λ p, NFloat (sq p.1)) <$> pairs))
          (foldl num_add (DataAnalyzer.sum_y2 acc) ((λ p, NFloat (sq p.2)) <$> pairs))).
Proof using pow2_sq.
  induction pairs as [|p pairs IH]; intros acc; [by destruct acc|].
  cbn [reduceM]. rewrite add_pair_sq. cbn [mbind result_bind]. by rewrite IH.
Qed.

Lemma correlate_pairs_ideal (pairs : list (F * F)) :
  DataAnalyzer.correlate_pairs pow2 pow_half round_ndigits pairs
    = Ok (correlation_of sq rt round_ndigits pairs).
Proof using pow2_sq pow_half_rt.
  unfold DataAnalyzer.correlate_pairs, correlation_of.
  destruct (Z.of_nat (length pairs) <? 2) eqn:Hlen.
  - apply Z.ltb_lt in Hlen. by rewrite (proj2 (Nat.ltb_lt _ 2)) by lia.
  - apply Z.ltb_ge in Hlen. rewrite (proj2 (Nat.ltb_ge _ 2)) by lia.
    rewrite add_pair_sums. cbn [mbind result_bind].
    rewrite !num_square_sq. cbn [mbind result_bind]. rewrite pow_half_rt.
    transitivity
      (correlation ←
         (if negb (num_eqb (pearson_denominator sq rt pairs) (NInt 0))
          then num_truediv (pearson_numerator pairs) (pearson_denominator sq rt pairs)
          else Ok (NInt 0));
       Ok (DataAnalyzer.Build_correlation_result
             (DataAnalyzer.num_round round_ndigits correlation 4)
             (DataAnalyzer.classify_strength correlation)
             (DataAnalyzer.classify_direction correlation))); [reflexivity|].
    unfold pearson, num_truediv.
    by destruct (num_eqb (pearson_denominator sq rt pairs) (NInt 0)).
Qed.
End ideal.
End correlation.

(** ** [compare_metrics] *)

Section compare_metrics.
Import DataAggregator.
Context {F : Type} `{PyFloat F}.
Implicit Types (acc : dict pyval (dict string (list F))) (k : pyval).

Lemma init_metrics (metric_cols : list string) (c : string) :
  ∀ d : dict string (list F),
    c ∈ metric_cols ∨ is_Some (dict_get c d) →
    is_Some (dict_get c (foldl (λ d col, dict_set col [] d) d metric_cols)).
Proof.
  induction metric_cols as [|c' cols IH]; intros d Hc; simpl.
  - destruct Hc as [Hc|Hc]; [by apply elem_of_nil in Hc | done].
  - apply IH. rewrite dict_get_set.
    destruct (decide (c = c')) as [->|Hne]; [by right|].
    destruct Hc as [Hc|Hc]; [|by right].
    apply elem_of_cons in Hc as [?|?]; [done | by left].
Qed.

Lemma append_metric_ok (metric_cols : list string) (group_key : pyval) (r : row) acc
    (c : string) :
  metrics_ready metric_cols acc → is_Some (dict_get group_key acc) → c ∈ metric_cols →
  ∃ acc', append_metric group_key r acc c = Ok acc' ∧
          metrics_ready metric_cols acc' ∧
          ∀ k, is_Some (dict_get k acc') ↔ is_Some (dict_get k acc).
Proof.
  intros Hready [metrics Hm] Hc. unfold append_metric.
  destruct (_is_valid_number (get r c)) eqn:Hok; [|by exists acc].
  rewrite Hm. destruct (Hready _ _ Hm c Hc) as [vals ->].
  destruct (valid_get r c Hok) as (x & _ & ->). simpl. eexists. split; [done|]. split.
  - intros k ms. rewrite dict_get_set. case_decide; [|by apply Hready].
    intros [= <-] c' Hc'. rewrite dict_get_set. case_decide; [done|].
    by apply (Hready _ _ Hm).
  - intros k. rewrite dict_get_set. case_decide; [|done]. subst k. by rewrite Hm.
Qed.

Lemma append_metrics_ok (metric_cols : list string) (group_key : pyval) (r : row)
    (cols : list string) : ∀ acc,
  metrics_ready metric_cols acc → is_Some (dict_get group_key acc) →
  cols ⊆ metric_cols →
  ∃ acc', reduceM (append_metric group_key r) cols acc = Ok acc' ∧
          metrics_ready metric_cols acc' ∧
          ∀ k, is_Some (dict_get k acc') ↔ is_Some (dict_get k acc).
Proof.
  induction cols as [|c cols IH]; intros acc Hready Hk Hsub; simpl.
  - by exists acc.
  - destruct (append_metric_ok metric_cols group_key r acc c) as (acc1 & -> & Hr1 & Hk1);
      [done | done | apply Hsub; left |]. simpl.
    destruct (IH acc1) as (acc' & -> & Hr' & Hk'); [done | by apply Hk1 | set_solver |].
    exists acc'. split_and!; [done | done |]. intros k. by rewrite Hk', Hk1.
Qed.

Lemma accumulate_metrics_ok (group_col : string) (metric_cols : list string) acc (r : row) :
  metrics_ready metric_cols acc →
  ∃ acc', accumulate_metrics group_col metric_cols acc r = Ok acc' ∧
          metrics_ready metric_cols acc' ∧
          ∀ k, is_Some (dict_get k acc') ↔ k = group_key r group_col ∨ is_Some (dict_get k acc).
Proof.
  intros Hready. unfold accumulate_metrics.
  change (get_or r group_col (VStr "Unknown")) with (group_key r group_col).
  set (gk := group_key r group_col).
  set (acc1 := if dict_get gk acc is None then _ else acc).
  assert (metrics_ready metric_cols acc1 ∧
          ∀ k, is_Some (dict_get k acc1) ↔ k = gk ∨ is_Some (dict_get k acc))
    as [Hready1 Hkeys1].
  { subst acc1. destruct (dict_get gk acc) as [ms|] eqn:Hgk.
    - split; [done|]. intros k. split; [by right|]. intros [->|?]; [by rewrite Hgk | done].
    - split.
      + intros k ms. rewrite dict_get_set. case_decide; [|by apply Hready].
        intros [= <-] c Hc. apply init_metrics. by left.
      + intros k. rewrite dict_get_set. case_decide; naive_solver. }
  destruct (append_metrics_ok metric_cols gk r metric_cols acc1) as (acc' & -> & Hr' & Hk');
    [done | apply Hkeys1; by left | done |].
  exists acc'. split_and!; [done | done |]. intros k. by rewrite Hk', Hkeys1.
Qed.

Lemma grouped_metrics_ok (group_col : string) (metric_cols : list string) (rows : list row) :
  ∀ acc, metrics_ready metric_cols acc →
  ∃ acc', reduceM (accumulate_metrics group_col metric_cols) rows acc = Ok acc' ∧
          ∀ k, is_Some (dict_get k acc') ↔
               (∃ r, r ∈ rows ∧ group_key r group_col = k) ∨ is_Some (dict_get k acc).
Proof.
  induction rows as [|r rows IH]; intros acc Hready; simpl.
  - exists acc. split; [done|]. intros k. split; [by right|].
    intros [(r & Hr & _)|?]; [by apply elem_of_nil in Hr | done].
  - destruct (accumulate_metrics_ok group_col metric_cols acc r Hready)
      as (acc1 & -> & Hr1 & Hk1). simpl.
    destruct (IH acc1 Hr1) as (acc' & -> & Hk'). exists acc'. split; [done|].
    intros k. rewrite Hk', Hk1. split.
    + intros [(r' & Hr' & Hkey)|[->|?]]; [left; exists r'; split; [by right|done] | | by right].
      left. exists r. split; [left | done].
    + intros [(r' & Hr' & Hkey)|?]; [|by right; right].
      apply elem_of_cons in Hr' as [->|Hr']; [right; by left | left; by exists r'].
Qed.

Lemma calc_avg_ok (vals : list F) : ∃ x, calc_avg vals = Ok x.
Proof.
  unfold calc_avg. destruct vals as [|v vals]; [by eexists|].
  unfold num_truediv, py_len, num_eqb, compare_with. cbn [length].
  rewrite (proj2 (Z.eqb_neq _ 0)) by lia. by eexists.
Qed.

Lemma compare_metrics_keys (s : self) (group_col : string) (metric_cols : list string) :
  ∃ res, compare_metrics s group_col metric_cols = Ok res ∧
         ∀ k, k ∈ dict_keys res ↔ ∃ r, r ∈ data s ∧ group_key r group_col = k.
Proof.
  unfold compare_metrics.
  destruct (grouped_metrics_ok group_col metric_cols (data s) []) as (gm & -> & Hkeys);
    [by intros ???|]. simpl.
  destruct (results_ok
              (λ metrics : dict string (list F),
                 result_mapM (λ cv, a ← calc_avg cv.2; Ok (cv.1, a)) metrics) gm)
    as (res & Hres & Hk).
  { intros k metrics _. clear. induction metrics as [|[c vals] metrics [x IH]].
    - by eexists.
    - destruct (calc_avg_ok vals) as [y Hy]. cbn [result_mapM fst snd].
      rewrite Hy. simpl. rewrite IH. by eexists. }
  exists res. split; [exact Hres|]. intros k.
  rewrite Hk, <-dict_get_is_Some, Hkeys. split; [|by left].
  by intros [?|[? ?]].
Qed.
End compare_metrics.

(** ** Which operations raise *)

Section raising.
Context {F : Type} `{PyFloat F}.
Variable pow2 : F → result F.
Variable pow_half : F → power F.

Lemma group_by_multi_invalid (s : DataAggregator.self) (group_cols : list string)
    (value_col operation : string) :
  group_cols = [] ∨ value_col ∉ DataAggregator.headers s →
  DataAggregator.group_by_multi s group_cols value_col operation = Raise ValueError.
Proof.
  intros Hno. unfold DataAggregator.group_by_multi.
  destruct Hno as [->|Hno]; [done|].
  rewrite (bool_decide_true (value_col ∉ _)) by done. by rewrite orb_true_r.
Qed.

Lemma filter_by_condition_ok (s : DataAggregator.self) (col operator : string) (value : F) :
  ∃ rows, DataAggregator.filter_by_condition s col operator value = Ok rows.
Proof.
  unfold DataAggregator.filter_by_condition.
  set (comparator := default _ _).
  rewrite (result_mapM_fmap _
    (λ r, if float_of (get r col) is Some x then comparator x value else false)).
  - by eexists.
  - intros r _. unfold DataAggregator._is_valid_number.
    destruct (is_ok (py_float (get r col))) eqn:Hok.
    + destruct (valid_get r col Hok) as (x & Hx & ->). unfold parsed in Hx. by rewrite Hx.
    + pose proof (invalid_get r col Hok) as Hx. unfold parsed in Hx. by rewrite Hx.
Qed.

Lemma rank_ok (a : DataAnalyzer.self) (rank_col value_col : string) (limit : Z)
    (operation : string) :
  ∃ ranked, DataAnalyzer.rank a rank_col value_col limit operation = Ok ranked.
Proof.
  rewrite rank_unfold.
  destruct (results_ok
              (default DataAggregator.op_sum
                 (dict_get (rank_operation operation) DataAggregator.ops))
              (foldl DataAggregator.group_item []
                 (items (DataAnalyzer.data a) rank_col value_col)))
    as (res & -> & _); [|by eexists].
  intros k vs Hin. apply ops_total. by eapply grouped_elem.
Qed.

Lemma valid_length (l : list pyval) :
  length (filter (λ v, DataAnalyzer._is_valid_number v = true) l)
    = length (omap (float_of (F:=F)) l).
Proof.
  unfold DataAnalyzer._is_valid_number, float_of.
  induction l as [|v l IH]; [done|]. cbn [omap list_omap].
  destruct (py_float v) as [x|e] eqn:Hv.
  - rewrite filter_cons_True by (by rewrite Hv). simpl. by rewrite IH.
  - rewrite filter_cons_False by (by rewrite Hv). done.
Qed.

(** [find_outliers] computes from the valid values of the column. *)
Lemma find_outliers_values (a : DataAnalyzer.self) (col : string) (threshold : F) :
  DataAnalyzer.find_outliers pow2 pow_half a col threshold
    = outliers_of pow2 pow_half (stat_values (DataAnalyzer.data a) col) threshold.
Proof.
  unfold DataAnalyzer.find_outliers, outliers_of.
  rewrite valid_length, valid_floats.
  fold (stat_values (DataAnalyzer.data a) col).
  set (values := stat_values _ _).
  destruct (Z.of_nat (length values) <? 2) eqn:Hlen.
  - apply Z.ltb_lt in Hlen. by rewrite (proj2 (Nat.ltb_lt _ 2)) by lia.
  - apply Z.ltb_ge in Hlen. by rewrite (proj2 (Nat.ltb_ge _ 2)) by lia.
Qed.

(** [percentile] converts every cell before it filters: one cell that does
    not parse makes it raise. *)
Lemma percentile_raises (a : DataAnalyzer.self) (col : string) (p : F) (r : row) :
  r ∈ DataAnalyzer.data a → float_of (F:=F) (get_or r col (VInt 0)) = None →
  ∃ e, DataAnalyzer.percentile a col p = Raise e.
Proof.
  intros Hr Hnone. unfold DataAnalyzer.percentile.
  assert (∃ e, result_mapM (λ r, py_float (get_or r col (VInt 0))) (DataAnalyzer.data a)
               = Raise e) as [e ->]; [|by exists e].
  induction (DataAnalyzer.data a) as [|r' rows IH]; [by apply elem_of_nil in Hr|].
  cbn [result_mapM]. apply elem_of_cons in Hr as [<-|Hr].
  - unfold float_of in Hnone. destruct (py_float _) as [|e]; [done|]. by exists e.
  - destruct (py_float _); [|by eexists]. simpl.
    destruct (IH Hr) as [e ->]. by exists e.
Qed.

Lemma filter_valid_float (l : list F) :
  filter (λ val, DataAnalyzer._is_valid_float val = true) l = l.
Proof.
  induction l as [|x l IH]; [done|]. rewrite filter_cons_True by done. by rewrite IH.
Qed.

(** On a column in which every cell parses, [percentile] is the value at
    index [int((p / 100) * (n - 1))] of the sorted values, and 0 on an
    empty dataset. *)
Lemma percentile_all_valid (a : DataAnalyzer.self) (col : string) (p : F) :
  (∀ r, r ∈ DataAnalyzer.data a → is_Some (float_of (F:=F) (get_or r col (VInt 0)))) →
  let sv := sorted f_ltb (stat_values (DataAnalyzer.data a) col) in
  DataAnalyzer.percentile a col p =
    if sv is [] then Ok (NInt 0)
    else
      i ← f_trunc (f_mul (f_div p (f_of_Z 100)) (f_of_Z (Z.of_nat (length sv) - 1)));
      x ← index sv i;
      Ok (NFloat x).
Proof.
  intros Hall sv. unfold DataAnalyzer.percentile.
  assert (result_mapM (λ r, py_float (get_or r col (VInt 0))) (DataAnalyzer.data a)
          = Ok (stat_values (DataAnalyzer.data a) col)) as ->.
  { unfold stat_values. induction (DataAnalyzer.data a) as [|r rows IH]; [done|].
    cbn [result_mapM]. rewrite fmap_cons. cbn [omap list_omap].
    destruct (Hall r) as [x Hx]; [left|]. rewrite Hx. unfold float_of in Hx.
    destruct (py_float _) as [y|]; [|done]. injection Hx as ->. simpl.
    rewrite IH; [done|]. intros r' Hr'. apply Hall. by right. }
  cbn [mbind result_bind].
  rewrite filter_valid_float. fold sv.
  destruct sv as [|v sv'] eqn:Hsv; [done|].
  unfold num_truediv, num_eqb, compare_with. cbn [Z.eqb mbind result_bind to_float].
  done.
Qed.
End raising.

(** ** Group keys *)

Section group_keys.
Import DataAggregator.
Context {F : Type} `{PyFloat F}.
Implicit Types (s : self) (k : pyval).

Lemma filter_nonempty {A} (P : A → Prop) `{∀ x, Decision (P x)} (l : list A) :
  length (filter P l) ≠ 0%nat ↔ ∃ x, x ∈ l ∧ P x.
Proof.
  split.
  - destruct (filter P l) as [|x l'] eqn:Hf; [done|]. intros _. exists x.
    assert (x ∈ filter P l) as Hin by (rewrite Hf; left).
    apply list_elem_of_filter in Hin. tauto.
  - intros (x & Hx & HP) Hlen. apply length_zero_iff_nil in Hlen.
    assert (x ∈ filter P l) as Hin by (by apply list_elem_of_filter).
    rewrite Hlen in Hin. by apply elem_of_nil in Hin.
Qed.

Lemma positive_count_is_Some (n : nat) : is_Some (positive_count n) ↔ n ≠ 0%nat.
Proof. destruct n; simpl; [split; [by intros [? ?] | done] | split; [done | by eexists]]. Qed.

Lemma nonempty_is_Some {A} (l : list A) : is_Some (nonempty l) ↔ l ≠ [].
Proof. destruct l; simpl; [split; [by intros [? ?] | done] | split; [done | by eexists]]. Qed.

Lemma item_values_nonempty (rows : list row) (group_col value_col : string) k :
  item_values k (items rows group_col value_col) ≠ [] ↔
  ∃ r, r ∈ rows ∧ group_key r group_col = k ∧ is_Some (parsed (F:=F) r value_col).
Proof.
  unfold items, item_values. induction rows as [|r rows IH]; cbn [omap list_omap].
  - split; [done|]. intros (r & Hr & _). by apply elem_of_nil in Hr.
  - unfold item_of at 1. destruct (parsed r value_col) as [x|] eqn:Hx;
      cbn [mbind option_bind omap list_omap fst snd].
    + destruct (decide (group_key r group_col = k)) as [Hk|Hk].
      * split; [|done]. intros _. exists r. split_and!; [left | done | by eexists].
      * rewrite IH. split.
        -- intros (r' & Hr' & ?). exists r'. split; [by right | done].
        -- intros (r' & Hr' & Hk' & Hp). apply elem_of_cons in Hr' as [->|Hr'];
             [done | by exists r'].
    + rewrite IH. split.
      * intros (r' & Hr' & ?). exists r'. split; [by right | done].
      * intros (r' & Hr' & Hk' & Hp). apply elem_of_cons in Hr' as [->|Hr'];
          [|by exists r']. rewrite Hx in Hp. by destruct Hp.
Qed.

Lemma aggregate_keys s (group_col value_col operation : string) :
  group_col ∈ headers s → value_col ∈ headers s →
  ∃ res, aggregate s group_col value_col operation = Ok res ∧
    ∀ k, k ∈ dict_keys res ↔
         ∃ r, r ∈ data s ∧ group_key r group_col = k ∧ is_Some (parsed (F:=F) r value_col).
Proof.
  intros Hg Hv. destruct (aggregate_ok s group_col value_col operation Hg Hv)
    as (res & Hres & Hkeys).
  exists res. split; [done|]. intros k.
  by rewrite Hkeys, <-dict_get_is_Some, grouped_get, nonempty_is_Some, item_values_nonempty.
Qed.

Lemma group_and_count_keys s (group_col : string) :
  ∃ c, group_and_count s group_col = Ok c ∧
    ∀ k, k ∈ dict_keys c ↔ ∃ r, r ∈ data s ∧ group_key r group_col = k.
Proof.
  eexists. split; [reflexivity|]. intros k.
  destruct (group_and_count_fold group_col (data s) [] []) as [_ Hget];
    [apply NoDup_nil_2 | done |].
  rewrite <-dict_get_is_Some, Hget, positive_count_is_Some. apply filter_nonempty.
Qed.

Lemma cross_tabulation_keys s (col1 col2 : string) :
  ∃ t, cross_tabulation s col1 col2 = Ok t ∧
    ∀ k1 k2, is_Some (crosstab_get t k1 k2) ↔
             ∃ r, r ∈ data s ∧ group_key r col1 = k1 ∧ group_key r col2 = k2.
Proof.
  eexists. split; [reflexivity|]. intros k1 k2.
  rewrite (crosstab_get_fold col1 col2 (data s) [] []) by done.
  rewrite positive_count_is_Some. apply filter_nonempty.
Qed.

Lemma path_values_nonempty (rows : list row) (group_cols : list string) (value_col : string)
    (keys : list pyval) :
  path_values (F:=F) rows group_cols value_col keys ≠ [] ↔
  ∃ r, r ∈ rows ∧ group_key r <$> group_cols = keys ∧ is_Some (parsed (F:=F) r value_col).
Proof.
  unfold path_values. induction rows as [|r rows IH]; cbn [omap list_omap].
  - split; [done|]. intros (r & Hr & _). by apply elem_of_nil in Hr.
  - destruct (decide (group_key r <$> group_cols = keys)) as [Hk|Hk].
    + destruct (parsed r value_col) as [x|] eqn:Hx.
      * split; [|done]. intros _. exists r. split_and!; [left | done | by eexists].
      * rewrite IH. split.
        -- intros (r' & Hr' & ?). exists r'. split; [by right | done].
        -- intros (r' & Hr' & Hk' & Hp). apply elem_of_cons in Hr' as [->|Hr'];
             [|by exists r']. rewrite Hx in Hp. by destruct Hp.
    + rewrite IH. split.
      * intros (r' & Hr' & ?). exists r'. split; [by right | done].
      * intros (r' & Hr' & Hk' & Hp). apply elem_of_cons in Hr' as [->|Hr'];
          [done | by exists r'].
Qed.

Lemma leaf_sum_is_Some (vals : list F) : is_Some (leaf_sum vals) ↔ vals ≠ [].
Proof. destruct vals; simpl; [split; [by intros [? ?] | done] | split; [done | by eexists]]. Qed.

(** C6 (as amended). In every grouping operation the key of a record under
    a grouping column is [row.get(col, "Unknown")]: the literal ["Unknown"]
    when the record has no such column, and otherwise the value the record
    holds, the empty string included.  The keys of the result are exactly
    the keys of the records (of those with a value that parses, where the
    operation filters), compared by equality. *)
Theorem grouping_keys s (group_col value_col col2 operation : string)
    (group_cols metric_cols : list string) :
  group_col ∈ headers s → value_col ∈ headers s → group_cols ≠ [] →
  (∀ (r : row) col, r !! col = None → group_key r col = VStr "Unknown") ∧
  (∀ (r : row) col v, r !! col = Some v → group_key r col = v) ∧
  (∃ res, aggregate s group_col value_col operation = Ok res ∧
     ∀ k, k ∈ dict_keys res ↔
          ∃ r, r ∈ data s ∧ group_key r group_col = k ∧ is_Some (parsed (F:=F) r value_col)) ∧
  (∃ c, group_and_count s group_col = Ok c ∧
     ∀ k, k ∈ dict_keys c ↔ ∃ r, r ∈ data s ∧ group_key r group_col = k) ∧
  (∃ t, cross_tabulation s group_col col2 = Ok t ∧
     ∀ k1 k2, is_Some (crosstab_get t k1 k2) ↔
              ∃ r, r ∈ data s ∧ group_key r group_col = k1 ∧ group_key r col2 = k2) ∧
  (∃ t, group_by_multi s group_cols value_col operation = Ok t ∧
     ∀ keys, length keys = length group_cols →
       (is_Some (nested_path keys t) ↔
        ∃ r, r ∈ data s ∧ group_key r <$> group_cols = keys ∧
             is_Some (parsed (F:=F) r value_col))) ∧
  (∃ res, compare_metrics (F:=F) s group_col metric_cols = Ok res ∧
     ∀ k, k ∈ dict_keys res ↔ ∃ r, r ∈ data s ∧ group_key r group_col = k).
Proof.
  intros Hg Hv Hcols. split_and!.
  - intros r col Hr. unfold group_key. by rewrite Hr.
  - intros r col v Hr. unfold group_key. by rewrite Hr.
  - by apply aggregate_keys.
  - apply group_and_count_keys.
  - apply cross_tabulation_keys.
  - destruct (group_by_multi_leaves s group_cols value_col operation Hcols Hv)
      as (t & Ht & _ & Hpaths).
    exists t. split; [done|]. intros keys Hlen.
    by rewrite Hpaths, leaf_sum_is_Some, path_values_nonempty.
  - apply compare_metrics_keys.
Qed.
End group_keys.

(** ** Errors of the two classes *)

Section errors.
Context {F : Type} `{PyFloat F}.
Variable pow2 : F → result F.
Variable pow_half : F → power F.
Variable round_ndigits : F → Z → F.
Variable stdev : list F → result F.

Lemma is_ok_true {A} (r : result A) : is_ok r = true ↔ ∃ a, r = Ok a.
Proof. destruct r; simpl; split; try done; [by eexists | by intros [? ?]]. Qed.

(** C3 (as amended). The column names are checked in two places only:
    [aggregate] raises [ValueError] exactly when one of its two columns is
    not a header, and [group_by_multi] exactly when it is given no group
    column or a value column that is not a header.  Either returns
    otherwise, and [compare_metrics], [filter_by_condition],
    [group_and_count], [cross_tabulation], [rank] and [get_distribution]
    return for every column name, known or not, and every dataset: a cell
    that is missing or does not parse as a float is left out and raises
    nothing.  Nor does such a cell or an unknown name raise anything in
    [get_statistics], which returns unless it calls [statistics.stdev], on
    two or more valid values, and that raises; the error is then the
    library's.  [correlate_metrics] and [find_outliers] check no name either
    and compute from the values that parse alone. *)
Theorem operations_raising (s : DataAggregator.self) (a : DataAnalyzer.self)
    (col col2 operation : string) (cols : list string) (x : F) (n : Z) :
  (DataAggregator.aggregate (F:=F) s col col2 operation = Raise ValueError ↔
     col ∉ DataAggregator.headers s ∨ col2 ∉ DataAggregator.headers s) ∧
  (is_ok (DataAggregator.aggregate (F:=F) s col col2 operation) = true ↔
     col ∈ DataAggregator.headers s ∧ col2 ∈ DataAggregator.headers s) ∧
  (DataAggregator.group_by_multi (F:=F) s cols col operation = Raise ValueError ↔
     cols = [] ∨ col ∉ DataAggregator.headers s) ∧
  (is_ok (DataAggregator.group_by_multi (F:=F) s cols col operation) = true ↔
     cols ≠ [] ∧ col ∈ DataAggregator.headers s) ∧
  is_ok (DataAggregator.compare_metrics (F:=F) s col cols) = true ∧
  is_ok (DataAggregator.filter_by_condition s col operation x) = true ∧
  is_ok (DataAggregator.group_and_count s col) = true ∧
  is_ok (DataAggregator.cross_tabulation s col col2) = true ∧
  is_ok (DataAnalyzer.rank (F:=F) a col col2 n operation) = true ∧
  is_ok (DataAnalyzer.get_distribution a col n) = true ∧
  (is_ok (DataAnalyzer.get_statistics stdev a col) = true ↔
     (length (stat_values (F:=F) (DataAnalyzer.data a) col) < 2)%nat ∨
     is_ok (stdev (stat_values (DataAnalyzer.data a) col)) = true) ∧
  (∀ e, DataAnalyzer.get_statistics stdev a col = Raise e ↔
     (1 < length (stat_values (F:=F) (DataAnalyzer.data a) col))%nat ∧
     stdev (stat_values (DataAnalyzer.data a) col) = Raise e) ∧
  DataAnalyzer.correlate_metrics pow2 pow_half round_ndigits a col col2
    = DataAnalyzer.correlate_pairs pow2 pow_half round_ndigits
        (valid_pairs (DataAnalyzer.data a) col col2) ∧
  DataAnalyzer.find_outliers pow2 pow_half a col x
    = outliers_of pow2 pow_half (stat_values (DataAnalyzer.data a) col) x.
Proof.
  assert (DataAggregator.aggregate (F:=F) s col col2 operation = Raise ValueError ↔
          col ∉ DataAggregator.headers s ∨ col2 ∉ DataAggregator.headers s) as Hagg.
  { split; [|apply aggregate_invalid].
    destruct (decide (col ∈ DataAggregator.headers s)) as [Hc|Hc]; [|by left].
    destruct (decide (col2 ∈ DataAggregator.headers s)) as [Hc2|Hc2]; [|by right].
    destruct (aggregate_ok s col col2 operation Hc Hc2) as (res & -> & _). done. }
  assert (DataAggregator.group_by_multi (F:=F) s cols col operation = Raise ValueError ↔
          cols = [] ∨ col ∉ DataAggregator.headers s) as Hmulti.
  { split; [|apply group_by_multi_invalid].
    destruct (decide (cols = [])) as [Hc|Hc]; [by left|].
    destruct (decide (col ∈ DataAggregator.headers s)) as [Hc2|Hc2]; [|by right].
    destruct (group_by_multi_leaves s cols col operation Hc Hc2)
      as (t & -> & _). done. }
  split_and!.
  - done.
  - split.
    + intros Hok. destruct (decide (col ∈ DataAggregator.headers s)) as [Hc|Hc];
        [destruct (decide (col2 ∈ DataAggregator.headers s)) as [Hc2|Hc2]; [done|]|];
        rewrite (proj2 Hagg) in Hok by tauto; done.
    + intros [Hc Hc2].
      by destruct (aggregate_ok s col col2 operation Hc Hc2) as (res & -> & _).
  - done.
  - split.
    + intros Hok. destruct (decide (cols = [])) as [Hc|Hc];
        [|destruct (decide (col ∈ DataAggregator.headers s)) as [Hc2|Hc2]; [done|]];
        rewrite (proj2 Hmulti) in Hok by tauto; done.
    + intros [Hc Hc2].
      by destruct (group_by_multi_leaves s cols col operation Hc Hc2)
        as (t & -> & _).
  - by destruct (compare_metrics_keys (F:=F) s col cols) as (res & -> & _).
  - by destruct (filter_by_condition_ok s col operation x) as (rows & ->).
  - done.
  - done.
  - by destruct (rank_ok a col col2 n operation) as (ranked & ->).
  - done.
  - apply get_statistics_ok.
  - intros e. apply get_statistics_raises.
  - apply correlate_metrics_pairs.
  - apply find_outliers_values.
Qed.

End errors.

(** ** The order and the sums of binary64 *)

Section binary64_facts.
Import Binary64.

Lemma SFltb_key (x y : spec_float) :
  x ≠ S754_nan → y ≠ S754_nan →
  SFltb x y = true ↔ key_lt (order_key x) (order_key y).
Proof.
  intros Hx Hy. unfold SFltb, key_lt.
  destruct x as [sx|sx| |sx mx ex], y as [sy|sy| |sy my ey]; try done;
    try destruct sx; try destruct sy; cbn [SFcompare order_key fst snd];
    try (split; [done || lia | done || lia]).
  all: change (Pos.compare_cont Eq mx my) with (Pos.compare mx my).
  all: destruct (Z.compare_spec ex ey), (Pos.compare_spec mx my); simpl;
    split; try done; try lia.
Qed.

Lemma SFltb_irrefl (x : spec_float) : SFltb x x = false.
Proof.
  unfold SFltb. destruct x as [[]|[]| |[] m e]; cbn [SFcompare]; try done.
  all: rewrite Z.compare_refl; change (Pos.compare_cont Eq m m) with (Pos.compare m m).
  all: by rewrite Pos.compare_refl.
Qed.

Lemma key_lt_order (a b c : Z * Z * Z) :
  ¬ key_lt a a ∧ (key_lt a b → key_lt b c → key_lt a c) ∧ (key_lt a b → key_lt a c ∨ key_lt c b).
Proof. unfold key_lt. destruct a as [[??]?], b as [[??]?], c as [[??]?]. simpl. lia. Qed.

(** [<] is a strict weak order on floats none of which is a nan, and on a
    single float of any kind. *)
Lemma binary64_weak_order (l : list float) :
  (∀ x, x ∈ l → Prim2SF x ≠ S754_nan) → weak_order PrimFloat.ltb l.
Proof.
  intros Hnan x y z Hx Hy Hz. rewrite !FloatAxioms.ltb_spec, SFltb_irrefl.
  pose proof (Hnan x Hx). pose proof (Hnan y Hy). pose proof (Hnan z Hz).
  rewrite !SFltb_key by done.
  destruct (key_lt_order (order_key (Prim2SF x)) (order_key (Prim2SF y))
              (order_key (Prim2SF z))) as (_ & Htrans & Hneg).
  split_and!; [done|done|]. intros Hxy. destruct (Hneg Hxy); [by left|by right].
Qed.

Lemma binary64_weak_order_one (l : list float) :
  length l = 1%nat → weak_order PrimFloat.ltb l.
Proof.
  destruct l as [|x [|??]]; try done.
  intros _ a b c ->%list_elem_of_singleton ->%list_elem_of_singleton ->%list_elem_of_singleton.
  rewrite FloatAxioms.ltb_spec, SFltb_irrefl. split_and!; done.
Qed.

Lemma not_nan (x : float) : PrimFloat.is_nan x = false → Prim2SF x ≠ S754_nan.
Proof.
  unfold PrimFloat.is_nan. rewrite FloatAxioms.eqb_spec. intros Hx Hnan.
  by rewrite Hnan in Hx.
Qed.

(** [stdev] returns on finite values only, which [<] orders. *)
Lemma stdev_ok_finite (vs : list float) (x : float) :
  stdev vs = Ok x → ∀ v, v ∈ vs → Prim2SF v ≠ S754_nan.
Proof.
  unfold stdev, _ss. destruct (_ <? 2); [done|].
  destruct (mapM as_integer_ratio vs) as [ratios|] eqn:Hratios; [|done].
  intros _ v Hv. apply mapM_Some_1 in Hratios.
  induction Hratios as [|v' r vs' rs Hr _ IH]; [by apply elem_of_nil in Hv|].
  apply elem_of_cons in Hv as [->|Hv]; [|by apply IH].
  unfold as_integer_ratio in Hr. by destruct (Prim2SF v').
Qed.

Lemma stdev_ok_weak_order (vs : list float) (x : float) :
  stdev vs = Ok x → weak_order PrimFloat.ltb vs.
Proof. intros Hx. by apply binary64_weak_order, (stdev_ok_finite vs x). Qed.

Lemma Qsum_cons (x : Q) (xs : list Q) : Qsum (x :: xs) = (x + Qsum xs)%Q.
Proof. done. Qed.

Lemma Qsum_deviations (xs : list Q) (c : Q) :
  (Qsum ((λ x, (x - c) * (x - c)) <$> xs)
   == Qsum ((λ x, x * x) <$> xs) - inject_Z 2 * c * Qsum xs
      + inject_Z (Z.of_nat (length xs)) * c * c)%Q.
Proof.
  induction xs as [|x xs IH].
  - cbn. ring.
  - rewrite !fmap_cons, !Qsum_cons, IH. cbn [length].
    rewrite Nat2Z.inj_succ, <-Z.add_1_r, inject_Z_plus. ring.
Qed.

(** The fraction [stdev] takes the root of is the sample variance. *)
Lemma ss_sample_variance (xs : list Q) :
  (2 ≤ length xs)%nat →
  let count := inject_Z (Z.of_nat (length xs)) in
  ((count * Qsum ((λ x, x * x) <$> xs) - Qsum xs * Qsum xs) / count
     / inject_Z (Z.of_nat (length xs) - 1)
   == sample_variance xs)%Q.
Proof.
  intros Hlen count. unfold sample_variance. fold count.
  rewrite Qsum_deviations. fold count.
  assert (¬ (count == 0)%Q) as Hcount.
  { unfold count, Qeq. cbn. lia. }
  assert (¬ (count - inject_Z 1 == 0)%Q) as Hpred.
  { unfold count, Qeq. cbn. lia. }
  replace (Z.of_nat (length xs) - 1) with (Z.of_nat (length xs) + - (1)) by lia.
  rewrite inject_Z_plus, inject_Z_opp. fold count.
  field. by split.
Qed.

Lemma stdev_sample_variance (vs : list float) (xs : list Q) :
  mapM as_integer_ratio vs = Some xs → (2 ≤ length vs)%nat →
  stdev vs = _float_sqrt_of_frac (Qnum (Qred (sample_variance xs)))
                                 (Z.pos (Qden (Qred (sample_variance xs)))).
Proof.
  intros Hxs Hlen. unfold stdev, _ss. rewrite Hxs.
  rewrite (proj2 (Z.ltb_ge _ 2)) by lia. cbn [mbind option_bind].
  assert (length xs = length vs) as Hl.
  { apply mapM_Some_1 in Hxs. symmetry. by eapply Forall2_length. }
  rewrite <-Hl. rewrite (Qred_complete _ _ (ss_sample_variance xs ltac:(lia))). done.
Qed.

Lemma stdev_not_finite (vs : list float) :
  mapM as_integer_ratio vs = None → (2 ≤ length vs)%nat → stdev vs = Raise AttributeError.
Proof.
  intros Hxs Hlen. unfold stdev, _ss. rewrite Hxs.
  by rewrite (proj2 (Z.ltb_ge _ 2)) by lia.
Qed.

Lemma exact_sums_spec (bound m n : Z) :
  exact_sums bound = true → Z.abs m ≤ bound → Z.abs n ≤ bound →
  PrimFloat.add (of_Z m) (of_Z n) = of_Z (m + n).
Proof.
  unfold exact_sums. intros Hb Hm Hn.
  rewrite forallb_forall in Hb. specialize (Hb m). rewrite forallb_forall in Hb.
  apply FloatAxioms.Leibniz.eqb_spec. apply Hb; apply list_elem_of_In, elem_of_seqZ; lia.
Qed.

Lemma binary64_small_sums (m n : Z) :
  Z.abs m ≤ 255 → Z.abs n ≤ 255 → Z.abs (m + n) ≤ 255 →
  PrimFloat.add (of_Z m) (of_Z n) = of_Z (m + n).
Proof. intros Hm Hn _. apply (exact_sums_spec 255); [by vm_compute|done..]. Qed.
End binary64_facts.

(** ** The binary64 examples *)

(** Cells with characters outside ASCII.  The no-break space U+00A0
    (bytes 194, 160) is white space to [float()] and to [strip()]; the
    separator U+001C is white space to [strip()] alone; the full-width digit
    five U+FF15 (bytes 239, 188, 149) reads as the digit 5. *)
Lemma cells_outside_ascii :
  Binary64.of_str (of_bytes [194; 160; 53]) = Some 5%float ∧
  Binary64.of_str (of_bytes [28; 53]) = None ∧
  Binary64.of_str (of_bytes [239; 188; 149]) = Some 5%float ∧
  DataAnalyzer.nonblank (VStr (of_bytes [194; 160])) = false ∧
  DataAnalyzer.nonblank (VStr (of_bytes [28])) = false ∧
  DataAnalyzer.nonblank (VStr (of_bytes [194; 160; 53])) = true.
Proof. split_and!; by vm_compute. Qed.

(** C1, counterexample.  With the rows (a, 1e16), (b, -1e16), (a, 1) the
    group sums are 1e16 (the 1 is lost to rounding) and -1e16, which add up
    to 0.0, while the entries of the column add up to 1.0. *)
Lemma aggregate_sum_rounds :
  DataAggregator.aggregate (F:=float) (aggregator large_rows) "g" "v" "sum"
    = Ok [(VStr "a", NFloat 10000000000000000%float);
          (VStr "b", NFloat (-10000000000000000)%float)] ∧
  py_sum (dict_values [(VStr "a", NFloat 10000000000000000%float);
                       (VStr "b", NFloat (-10000000000000000)%float)])
    = NFloat 0%float ∧
  py_sum (NFloat <$> column_values (F:=float) large_rows "v") = NFloat 1%float ∧
  py_sum (dict_values [(VStr "a", NFloat 10000000000000000%float);
                       (VStr "b", NFloat (-10000000000000000)%float)])
    ≠ py_sum (NFloat <$> column_values (F:=float) large_rows "v").
Proof.
  split_and!; [by vm_compute..|]. intros Heq. num_discriminate Heq.
Qed.

(** C1, witness: the entries 1, 2 and 5 on binary64, whose floats add
    without rounding. *)
Lemma aggregate_sum_conservation_witness :
  ∃ res, DataAggregator.aggregate (F:=float) (aggregator small_rows) "g" "v" "sum" = Ok res ∧
         py_sum (dict_values res)
           = py_sum (NFloat <$> column_values (F:=float) (DataAggregator.data (aggregator small_rows)) "v") ∧
         ([1; 2; 5] ≠ [] → py_sum (dict_values res) = NFloat (Binary64.of_Z (sumZ [1; 2; 5]))).
Proof.
  apply (aggregate_sum_conservation (F:=float) (H:=Binary64.binary64) Binary64.of_Z 255
           (eq_refl (Binary64.of_Z 0)) binary64_small_sums
           (aggregator small_rows) "g" "v" [1; 2; 5]).
  - apply list_elem_of_here.
  - apply list_elem_of_further, list_elem_of_here.
  - by vm_compute.
  - by vm_compute.
Defined.

(** C2, counterexample.  Asked for ["min"], [rank] orders the groups by
    their sums (a: 3.0, b: 5.0), not by the minima [aggregate] returns
    (a: 1.0, b: 5.0). *)
Lemma rank_min_is_sum :
  DataAggregator.aggregate (F:=float) (aggregator small_rows) "g" "v" "min"
    = Ok [(VStr "a", NFloat 1%float); (VStr "b", NFloat 5%float)] ∧
  DataAnalyzer.rank (F:=float) (analyzer small_rows) "g" "v" 10 "min"
    = Ok [(VStr "b", NFloat 5%float); (VStr "a", NFloat 3%float)] ∧
  [(VStr "b", NFloat 5%float); (VStr "a", NFloat 3%float)]
    ≠ take 10 (sorted (DataAnalyzer.by_value_desc num_ltb)
                 [(VStr "a", NFloat 1%float); (VStr "b", NFloat 5%float)]).
Proof.
  split_and!; [by vm_compute..|]. intros Heq.
  apply (f_equal (λ l : list (pyval * num float), default (NInt 0) (l.*2 !! 1%nat))) in Heq.
  num_discriminate Heq.
Qed.

(** C2, witness: the best group by average.  The averages 1.5 and 5.0 are
    ordered by [<], and the ranking is the first item of their stable sort. *)
Lemma rank_sorted_aggregate_witness :
  ∃ full : list (pyval * num float),
    stable_sort_of (λ x y : pyval * num float, num_ltb y.2 x.2)
      [(VStr "a", NFloat 1.5%float); (VStr "b", NFloat 5%float)] full ∧
    DataAnalyzer.rank (analyzer small_rows) "g" "v" 1 "avg" = Ok (take (Z.to_nat 1) full).
Proof.
  destruct (rank_sorted_aggregate (F:=float) (analyzer small_rows) (aggregator small_rows)
              "g" "v" 1 "avg")
    as (res & ranked & next & Hres & Hrank & _ & _ & _ & Hsorted);
    [reflexivity | apply list_elem_of_here | apply list_elem_of_further, list_elem_of_here
    | lia |].
  assert (res = [(VStr "a", NFloat 1.5%float); (VStr "b", NFloat 5%float)]) as ->.
  { assert (DataAggregator.aggregate (F:=float) (aggregator small_rows) "g" "v"
              (rank_operation "avg")
            = Ok [(VStr "a", NFloat 1.5%float); (VStr "b", NFloat 5%float)]) as Hagg
      by (by vm_compute).
    rewrite Hagg in Hres. by injection Hres. }
  destruct Hsorted as (full & Hfull & ->).
  { apply weak_orderb_spec. by vm_compute. }
  exists full. split; [done|]. exact Hrank.
Defined.

(** C3, counterexample.  A column that is not a header raises nothing in
    [group_and_count], [cross_tabulation], [rank] or [get_distribution]. *)
Lemma unknown_column_returns :
  DataAggregator.group_and_count (aggregator small_rows) "Invalid"
    = Ok [(VStr "Unknown", 3)] ∧
  DataAggregator.cross_tabulation (aggregator small_rows) "Invalid" "g"
    = Ok [(VStr "Unknown", [(VStr "a", 2); (VStr "b", 1)])] ∧
  DataAnalyzer.rank (F:=float) (analyzer small_rows) "g" "Invalid" 10 "sum" = Ok [] ∧
  DataAnalyzer.get_distribution (analyzer small_rows) "Invalid" 10
    = Ok [(VStr "Unknown", 3)].
Proof. split_and!; by vm_compute. Qed.

(** C4, counterexample.  A record whose value does not parse is counted by
    [group_and_count] and not by [aggregate]. *)
Lemma aggregate_count_skips_text :
  DataAggregator.aggregate (F:=float) (aggregator text_rows) "g" "v" "count" = Ok [] ∧
  DataAggregator.group_and_count (aggregator text_rows) "g" = Ok [(VStr "a", 1)] ∧
  dict_get (VStr "a") ([] : dict pyval (num float))
    ≠ NInt <$> dict_get (VStr "a") [(VStr "a", 1)].
Proof. split_and!; [by vm_compute..|]. by vm_compute. Qed.

(** C4, witness: group "a" of the small dataset. *)
Lemma aggregate_count_group_and_count_witness :
  ∃ res c,
    DataAggregator.aggregate (F:=float) (aggregator small_rows) "g" "v" "count" = Ok res ∧
    DataAggregator.group_and_count (aggregator small_rows) "g" = Ok c ∧
    dict_get (VStr "a") res
      = py_len <$> nonempty (group_values (F:=float) small_rows "g" "v" (VStr "a")) ∧
    dict_get (VStr "a") c = positive_count (length (group_rows small_rows "g" (VStr "a"))) ∧
    ((∀ r, r ∈ small_rows → group_key r "g" = VStr "a" → is_Some (parsed (F:=float) r "v")) →
     dict_get (VStr "a") res = NInt <$> dict_get (VStr "a") c).
Proof.
  exact (aggregate_count_group_and_count (F:=float) (aggregator small_rows) "g" "v" (VStr "a")
           (list_elem_of_here _ _) (list_elem_of_further _ _ _ (list_elem_of_here _ _))).
Defined.

(** C5.  On a column with a cell that does not parse, [percentile] raises
    [ValueError]; on the same column [get_statistics] leaves the cell out. *)
Theorem percentile_text_raises (stdev : list float → result float) :
  DataAnalyzer.percentile (F:=float) (analyzer text_rows) "v" 50%float = Raise ValueError ∧
  DataAnalyzer.get_statistics stdev (analyzer text_rows) "v"
    = Ok DataAnalyzer.zero_statistics.
Proof. split; by vm_compute. Qed.

(** C6, counterexample.  An empty value is a group key of its own. *)
Lemma empty_value_is_a_key :
  blank_rows = [{[ "g" := VStr ""; "v" := VStr "1" ]}] ∧
  DataAggregator.group_and_count (aggregator blank_rows) "g" = Ok [(VStr "", 1)] ∧
  DataAggregator.aggregate (F:=float) (aggregator blank_rows) "g" "v" "sum"
    = Ok [(VStr "", NFloat 1%float)] ∧
  DataAggregator.cross_tabulation (aggregator blank_rows) "g" "g"
    = Ok [(VStr "", [(VStr "", 1)])] ∧
  VStr "" ≠ VStr "Unknown".
Proof. split_and!; [by vm_compute..|done]. Qed.

(** C6, witness: the dataset with an empty group value. *)
Lemma grouping_keys_witness :
  "g" ∈ DataAggregator.headers (aggregator blank_rows) ∧
  "v" ∈ DataAggregator.headers (aggregator blank_rows) ∧
  ["g"; "v"] ≠ [] ∧
  (∃ res, DataAggregator.aggregate (F:=float) (aggregator blank_rows) "g" "v" "sum" = Ok res ∧
     ∀ k, k ∈ dict_keys res ↔
          ∃ r, r ∈ DataAggregator.data (aggregator blank_rows) ∧ group_key r "g" = k ∧
               is_Some (parsed (F:=float) r "v")) ∧
  (∃ c, DataAggregator.group_and_count (aggregator blank_rows) "g" = Ok c ∧
     ∀ k, k ∈ dict_keys c ↔
          ∃ r, r ∈ DataAggregator.data (aggregator blank_rows) ∧ group_key r "g" = k).
Proof.
  assert ("g" ∈ DataAggregator.headers (aggregator blank_rows)) as Hg
    by apply list_elem_of_here.
  assert ("v" ∈ DataAggregator.headers (aggregator blank_rows)) as Hv
    by apply list_elem_of_further, list_elem_of_here.
  assert (["g"; "v"] ≠ []) as Hcols by discriminate.
  pose proof (grouping_keys (F:=float) (aggregator blank_rows) "g" "v" "g" "sum"
                ["g"; "v"] ["v"] Hg Hv Hcols) as (_ & _ & Hagg & Hcount & _).
  exact (conj Hg (conj Hv (conj Hcols (conj Hagg Hcount)))).
Defined.

(** C7.  A column [x] that holds 1.3 three times, beside [y] = 1, 2, 3:
    Pearson's denominator is 0 and the coefficient should be 0.  In binary64
    [n Σx² − (Σx)²] comes out as a negative number, the power [** 0.5] of
    the product is complex, and [correlate_metrics] raises [TypeError].  On
    x = 1, 2, 3, 4 and y = 2, 4, 6, 8 it returns the coefficient
    [round(1.0, 4)], "perfect" and "positive". *)
Theorem correlate_constant_column_raises (round_ndigits : float → Z → float) :
  let squared := λ x : float, PrimFloat.mul x x in
  let pairs := valid_pairs (F:=float) constant_rows "x" "y" in
  PrimFloat.ltb
    (to_float (num_sub (num_mul (n_pairs pairs) (Σx2 squared pairs)) (square squared (Σx pairs))))
    PrimFloat.zero = true ∧
  DataAnalyzer.correlate_metrics Binary64.pow2 Binary64.pow_half round_ndigits
    (xy_analyzer constant_rows) "x" "y" = Raise TypeError ∧
  DataAnalyzer.correlate_metrics Binary64.pow2 Binary64.pow_half round_ndigits
    (xy_analyzer proportional_rows) "x" "y"
    = Ok (DataAnalyzer.Build_correlation_result
            (NFloat (round_ndigits 1%float 4)) "perfect" "positive").
Proof. split_and!; by vm_compute. Qed.

(** C8.  On a column whose valid values hold an infinity or a nan beside
    another value, [get_statistics] raises [AttributeError] out of
    [statistics.stdev], and on 1.7e308 and -1.7e308, whose deviation is too
    large for a float, [OverflowError]; [find_outliers], which computes the
    same deviation by hand, returns on the first of these columns.  On every
    other column [get_statistics] returns: the all-zero record when no value
    is valid, and else the record of the valid values, with the minimum, the
    maximum and their difference, the median of the sorted values (the
    middle one, or the average of the two middle ones), and as the standard
    deviation 0 for a single value and for more what [stdev] returns, which
    is the root, as the library rounds it, of the sample variance of the
    values: the sum of their squared deviations from the mean divided by
    n - 1.  The values 10, 20, 30, 40, 50 have the median 30, the variance 250
    and the deviation 15.811388300841896 (0x1.f9f6e4990f227p+3); the values
    10, 20, 30, 40 have the median 25 and the deviation 12.909944487358056
    (0x1.9d1e43e6cc1b5p+3). *)
Theorem get_statistics_record :
  DataAnalyzer.get_statistics Binary64.stdev (values_analyzer ["inf"; "1"]) "Value"
    = Raise AttributeError ∧
  DataAnalyzer.get_statistics Binary64.stdev (values_analyzer ["nan"; "1"]) "Value"
    = Raise AttributeError ∧
  DataAnalyzer.get_statistics Binary64.stdev (values_analyzer ["1.7e308"; "-1.7e308"]) "Value"
    = Raise OverflowError ∧
  DataAnalyzer.find_outliers Binary64.pow2 Binary64.pow_half
    (values_analyzer ["inf"; "1"]) "Value" 2%float = Ok [] ∧
  (∀ (a : DataAnalyzer.self) (col : string),
     let vs := stat_values (F:=float) (DataAnalyzer.data a) col in
     (vs = [] →
      DataAnalyzer.get_statistics Binary64.stdev a col = Ok DataAnalyzer.zero_statistics) ∧
     (vs ≠ [] →
      ∀ st, DataAnalyzer.get_statistics Binary64.stdev a col = Ok st ↔
            ∃ std_dev, deviation_of Binary64.stdev vs std_dev ∧ statistics_of vs std_dev st) ∧
     (∀ e, DataAnalyzer.get_statistics Binary64.stdev a col = Raise e ↔
           (1 < length vs)%nat ∧ Binary64.stdev vs = Raise e)) ∧
  (∀ (vs : list float) (xs : list Q),
     (2 ≤ length vs)%nat → mapM Binary64.as_integer_ratio vs = Some xs →
     let variance := Qred (sample_variance xs) in
     Binary64.stdev vs = Binary64._float_sqrt_of_frac (Qnum variance) (Z.pos (Qden variance))) ∧
  (∀ vs : list float,
     (2 ≤ length vs)%nat → mapM Binary64.as_integer_ratio vs = None →
     Binary64.stdev vs = Raise AttributeError) ∧
  (∃ st, DataAnalyzer.get_statistics Binary64.stdev
           (values_analyzer ["10"; "20"; "30"; "40"; "50"]) "Value" = Ok st ∧
         DataAnalyzer.st_median st = NFloat 30%float ∧
         DataAnalyzer.st_std_dev st = NFloat 0x1.f9f6e4990f227p+3%float ∧
         DataAnalyzer.st_range st = NFloat 40%float ∧
         Qred (sample_variance (inject_Z <$> [10; 20; 30; 40; 50])) = inject_Z 250) ∧
  (∃ st, DataAnalyzer.get_statistics Binary64.stdev
           (values_analyzer ["10"; "20"; "30"; "40"]) "Value" = Ok st ∧
         DataAnalyzer.st_median st = NFloat 25%float ∧
         DataAnalyzer.st_std_dev st = NFloat 0x1.9d1e43e6cc1b5p+3%float ∧
         DataAnalyzer.st_range st = NFloat 30%float) ∧
  (∃ st, DataAnalyzer.get_statistics Binary64.stdev (values_analyzer ["10"]) "Value" = Ok st ∧
         DataAnalyzer.st_median st = NFloat 10%float ∧
         DataAnalyzer.st_std_dev st = NInt 0 ∧
         DataAnalyzer.st_range st = NFloat 0%float).
Proof.
  split_and!;
    [by vm_compute | by vm_compute | by vm_compute | by vm_compute | | | 
    | eexists; split_and!; by vm_compute..].
  - intros a col vs. split_and!.
    + apply get_statistics_empty.
    + intros Hne st.
      destruct (decide (length vs = 1%nat)) as [Hone|Hmany].
      { apply returned_statistics_of; [done|]. by apply binary64_weak_order_one. }
      destruct (Binary64.stdev vs) as [x|e] eqn:Hsd.
      { apply returned_statistics_of; [done|]. by apply (stdev_ok_weak_order vs x). }
      split.
      * intros Hst. assert (DataAnalyzer.get_statistics Binary64.stdev a col = Raise e) as Hr.
        { apply get_statistics_raises. fold vs. split; [|done].
          assert (length vs ≠ 0%nat) by (by intros ?%nil_length_inv). lia. }
        by rewrite Hr in Hst.
      * intros (std_dev & Hdev & _). unfold deviation_of in Hdev.
        rewrite decide_False in Hdev by done. destruct Hdev as (x & Hx & _).
        by rewrite Hsd in Hx.
    + intros e. apply get_statistics_raises.
  - intros vs xs Hlen Hxs. by apply stdev_sample_variance.
  - intros vs Hlen Hxs. by apply stdev_not_finite.
Qed.

(** C9, witness: two group columns. *)
Lemma group_by_multi_always_sums_witness :
  DataAggregator.group_by_multi (F:=float) (aggregator small_rows) ["g"; "v"] "v" "max"
    = DataAggregator.group_by_multi (aggregator small_rows) ["g"; "v"] "v" "sum" ∧
  ∃ t, DataAggregator.group_by_multi (F:=float) (aggregator small_rows) ["g"; "v"] "v" "max"
         = Ok t ∧
       uniform (length ["g"; "v"]) t ∧
       ∀ keys, length keys = length ["g"; "v"] →
         nested_path keys t = leaf_sum (path_values small_rows ["g"; "v"] "v" keys).
Proof.
  apply (group_by_multi_always_sums (F:=float) (aggregator small_rows) ["g"; "v"] "v" "max").
  - done.
  - apply list_elem_of_further, list_elem_of_here.
Defined.

(** * Further properties of the two classes *)

(** ** Operation names outside the tables *)

Section fallbacks.
Context {F : Type} `{PyFloat F}.

Lemma dict_get_not_key {V} (k : string) (d : dict string V) :
  k ∉ dict_keys d → dict_get k d = None.
Proof. apply dict_get_None. Qed.

(** X1.  A name of operation that is not in the table raises nothing:
    [aggregate] computes the sums for every name other than "sum", "avg",
    "min", "max", "count", and [rank] for every name other than "sum",
    "avg", "count". *)
Theorem unknown_operation_is_sum (s : DataAggregator.self) (a : DataAnalyzer.self)
    (group_col value_col operation : string) (limit : Z) :
  (operation ∉ aggregate_operations →
   DataAggregator.aggregate (F:=F) s group_col value_col operation
     = DataAggregator.aggregate s group_col value_col "sum") ∧
  (operation ∉ rank_operations →
   DataAnalyzer.rank (F:=F) a group_col value_col limit operation
     = DataAnalyzer.rank a group_col value_col limit "sum").
Proof.
  split; intros Hop.
  - unfold DataAggregator.aggregate.
    by rewrite (dict_get_not_key operation DataAggregator.ops Hop).
  - unfold DataAnalyzer.rank.
    by rewrite (dict_get_not_key operation DataAnalyzer.ops Hop).
Qed.
End fallbacks.

(** ** The operations of [aggregate] on one grouping *)

Section aggregate_operations.
Import DataAggregator.
Context {F : Type} `{PyFloat F}.
Implicit Types (s : self) (k : pyval).

Lemma op_avg_nonempty (vs : list F) :
  vs ≠ [] →
  op_avg vs = Ok (NFloat (f_div (to_float (py_sum (NFloat <$> vs))) (to_float (py_len vs)))).
Proof.
  intros Hne. destruct vs as [|v vs]; [done|].
  unfold op_avg, num_truediv, py_len, num_eqb, compare_with. cbn [length].
  by rewrite (proj2 (Z.eqb_neq _ 0)) by lia.
Qed.

Lemma aggregate_avg s (group_col value_col : string) :
  group_col ∈ headers s → value_col ∈ headers s →
  aggregate s group_col value_col "avg" =
    Ok ((λ kv, (kv.1, NFloat (f_div (to_float (py_sum (NFloat <$> kv.2)))
                                    (to_float (py_len kv.2)))))
          <$> foldl group_item [] (items (data s) group_col value_col)).
Proof.
  intros Hg Hv. rewrite aggregate_unfold by done.
  apply (results_fmap op_avg
           (λ vs, NFloat (f_div (to_float (py_sum (NFloat <$> vs))) (to_float (py_len vs))))).
  intros k vs Hin. apply op_avg_nonempty. by destruct (grouped_elem _ _ _ Hin).
Qed.

(** X2.  On valid columns the three calls of [aggregate] with "sum",
    "count" and "avg" return the same keys in the same order, and under
    every key the average is the sum divided by the count. *)
Theorem aggregate_avg_is_sum_by_count s (group_col value_col : string) :
  group_col ∈ headers s → value_col ∈ headers s →
  ∃ sums counts avgs,
    aggregate s group_col value_col "sum" = Ok sums ∧
    aggregate s group_col value_col "count" = Ok counts ∧
    aggregate s group_col value_col "avg" = Ok avgs ∧
    dict_keys counts = dict_keys sums ∧
    dict_keys avgs = dict_keys sums ∧
    ∀ k, dict_get k avgs =
         (total ← dict_get k sums; n ← dict_get k counts;
          Some (NFloat (f_div (to_float total) (to_float n)))).
Proof.
  intros Hg Hv.
  set (d := foldl group_item [] (items (data s) group_col value_col)).
  set (total := λ vs : list F, py_sum (NFloat <$> vs)).
  set (avg := λ vs : list F, NFloat (f_div (to_float (total vs)) (to_float (py_len vs)))).
  exists ((λ kv, (kv.1, total kv.2)) <$> d), ((λ kv, (kv.1, py_len kv.2)) <$> d),
         ((λ kv, (kv.1, avg kv.2)) <$> d).
  split; [by apply aggregate_sum|]. split; [by apply aggregate_count|].
  split; [by apply aggregate_avg|].
  rewrite (dict_keys_fmap total), (dict_keys_fmap py_len), (dict_keys_fmap avg).
  split; [done|]. split; [done|]. intros k.
  rewrite (dict_get_fmap total), (dict_get_fmap py_len), (dict_get_fmap avg).
  by destruct (dict_get k d).
Qed.

Lemma foldl_pick_elem (pick : F → F → bool) (vs : list F) : ∀ x,
  foldl (λ cur item, if pick cur item then item else cur) x vs ∈ x :: vs.
Proof.
  induction vs as [|v vs IH]; intros x; simpl; [by left|].
  destruct (pick x v).
  - right. apply IH.
  - specialize (IH x). apply elem_of_cons in IH as [->|Hin]; [by left|by do 2 right].
Qed.

Lemma results_elem {A B} (f : A → result B) (d : dict pyval A) (res : dict pyval B) :
  result_mapM (λ kv, x ← f kv.2; Ok (kv.1, x)) d = Ok res →
  ∀ k x, (k, x) ∈ res → ∃ vs, (k, vs) ∈ d ∧ f vs = Ok x.
Proof.
  revert res. induction d as [|[k' vs] d IH]; intros res Hres k x Hin.
  - injection Hres as <-. by apply elem_of_nil in Hin.
  - cbn [result_mapM fst snd] in Hres.
    destruct (f vs) as [y|e] eqn:Hf; [|done]. cbn [mbind result_bind] in Hres.
    destruct (result_mapM _ d) as [res'|e] eqn:Hd; [|done].
    injection Hres as <-. apply elem_of_cons in Hin as [[= -> ->]|Hin].
    + exists vs. split; [by left|done].
    + destruct (IH res' eq_refl k x Hin) as (vs' & Hvs & Hx).
      exists vs'. split; [by right|done].
Qed.

Lemma aggregate_pick s (group_col value_col operation : string) (pick : F → F → bool) :
  group_col ∈ headers s → value_col ∈ headers s →
  (∀ v vs, default op_sum (dict_get operation ops) (v :: vs)
           = Ok (NFloat (foldl (λ cur item, if pick cur item then item else cur) v vs))) →
  ∃ res, aggregate s group_col value_col operation = Ok res ∧
    ∀ k m, (k, m) ∈ res →
      ∃ x, m = NFloat x ∧ x ∈ group_values (data s) group_col value_col k.
Proof.
  intros Hg Hv Hop.
  destruct (aggregate_ok s group_col value_col operation Hg Hv) as (res & Hres & _).
  exists res. split; [done|]. intros k m Hin.
  rewrite aggregate_unfold in Hres by done.
  destruct (results_elem _ _ _ Hres k m Hin) as (vs & Hvs & Hm).
  destruct (grouped_elem _ _ _ Hvs) as [-> Hne].
  fold (group_values (data s) group_col value_col k) in *.
  destruct (group_values (data s) group_col value_col k) as [|v vs]; [done|].
  rewrite Hop in Hm. injection Hm as <-. eexists. split; [done|]. apply foldl_pick_elem.
Qed.

(** X3.  The minimum and the maximum [aggregate] returns for a group are
    values of the group: floats parsed from records of that group, never
    the default 0 of the table. *)
Theorem aggregate_min_max_of_group s (group_col value_col : string) :
  group_col ∈ headers s → value_col ∈ headers s →
  ∃ mins maxs,
    aggregate s group_col value_col "min" = Ok mins ∧
    aggregate s group_col value_col "max" = Ok maxs ∧
    (∀ k m, (k, m) ∈ mins →
       ∃ x, m = NFloat x ∧ x ∈ group_values (data s) group_col value_col k) ∧
    (∀ k m, (k, m) ∈ maxs →
       ∃ x, m = NFloat x ∧ x ∈ group_values (data s) group_col value_col k).
Proof.
  intros Hg Hv.
  destruct (aggregate_pick s group_col value_col "min" (λ cur item, f_ltb item cur) Hg Hv)
    as (mins & Hmins & Hmin); [done|].
  destruct (aggregate_pick s group_col value_col "max" (λ cur item, f_ltb cur item) Hg Hv)
    as (maxs & Hmaxs & Hmax); [done|].
  by exists mins, maxs.
Qed.
End aggregate_operations.

(** ** The order of the keys *)

Section key_order.
Import DataAggregator.
Context {F : Type} `{PyFloat F}.
Implicit Types (s : self) (k : pyval) (r : row).

Lemma first_seen_fold {A V} (step : dict pyval V → A → dict pyval V) (key : A → pyval)
    (l : list A) :
  (∀ acc x, dict_keys (step acc x) =
            if decide (key x ∈ dict_keys acc) then dict_keys acc else dict_keys acc ++ [key x]) →
  ∀ acc, dict_keys (foldl step acc l) =
         foldl (λ seen k, if decide (k ∈ seen) then seen else seen ++ [k])
               (dict_keys acc) (key <$> l).
Proof.
  intros Hstep. induction l as [|x l IH]; intros acc; [done|].
  cbn [foldl fmap list_fmap]. by rewrite IH, Hstep.
Qed.

Lemma build_crosstab_keys (col1 col2 : string) (acc : dict pyval (dict pyval Z)) r :
  dict_keys (build_crosstab col1 col2 acc r) =
    if decide (group_key r col1 ∈ dict_keys acc) then dict_keys acc
    else dict_keys acc ++ [group_key r col1].
Proof.
  unfold build_crosstab. rewrite !get_or_group_key.
  set (key1 := group_key r col1). rewrite dict_keys_set.
  destruct (dict_get key1 acc) as [inner|] eqn:Hget.
  - assert (key1 ∈ dict_keys acc) as Hin by (apply dict_get_is_Some; by eexists).
    by rewrite !decide_True by done.
  - apply dict_get_None in Hget. rewrite dict_keys_set, (decide_False _ _ Hget).
    rewrite decide_True; [done|]. apply elem_of_app. right. by left.
Qed.

Lemma items_keys (rows : list row) (group_col value_col : string) :
  (items (F:=F) rows group_col value_col).*1 =
    (λ r, group_key r group_col) <$> filter (λ r, is_Some (parsed (F:=F) r value_col)) rows.
Proof.
  unfold items, item_of. induction rows as [|r rows IH]; [done|].
  cbn [omap list_omap]. rewrite filter_cons.
  destruct (parsed r value_col) as [x|] eqn:Hx; simpl.
  - f_equal. apply IH.
  - apply IH.
Qed.

(** X4.  The keys of a result stand in the order in which the groups first
    appear in the dataset: over the records whose value parses in
    [aggregate], over all records in [group_and_count] and in the outer
    dictionary of [cross_tabulation]. *)
Theorem keys_in_order_of_first_appearance s (group_col value_col operation col2 : string) :
  group_col ∈ headers s → value_col ∈ headers s →
  (∃ res, aggregate s group_col value_col operation = Ok res ∧
     dict_keys res =
       first_seen ((λ r, group_key r group_col)
                     <$> filter (λ r, is_Some (parsed (F:=F) r value_col)) (data s))) ∧
  (∃ c, group_and_count s group_col = Ok c ∧
     dict_keys c = first_seen ((λ r, group_key r group_col) <$> data s)) ∧
  (∃ t, cross_tabulation s group_col col2 = Ok t ∧
     dict_keys t = first_seen ((λ r, group_key r group_col) <$> data s)).
Proof.
  intros Hg Hv. split_and!.
  - destruct (aggregate_ok s group_col value_col operation Hg Hv) as (res & Hres & Hkeys).
    exists res. split; [done|]. rewrite Hkeys, <-items_keys.
    apply (first_seen_fold group_item fst). intros acc it. apply dict_keys_set.
  - eexists. split; [done|].
    apply (first_seen_fold (count_row group_col) (λ r, group_key r group_col)).
    intros acc r. unfold count_row. rewrite get_or_group_key. apply dict_keys_set.
  - eexists. split; [done|].
    apply (first_seen_fold (build_crosstab group_col col2) (λ r, group_key r group_col)).
    intros acc r. apply build_crosstab_keys.
Qed.
End key_order.

(** ** Counting records *)

Section counting.
Import DataAggregator.
Implicit Types (s : self) (k : pyval) (r : row).

Lemma count_row_total (group_col : string) (rows : list row) : ∀ acc : dict pyval Z,
  sumZ (dict_values (foldl (count_row group_col) acc rows))
    = sumZ (dict_values acc) + Z.of_nat (length rows).
Proof.
  induction rows as [|r rows IH]; intros acc; simpl; [lia|].
  rewrite IH. unfold count_row. rewrite inner_total_set. lia.
Qed.

(** X5.  [group_and_count] counts every record once: its counts add up to
    the number of records, no key is there twice, and every count is the
    number of records of its group, which is 1 at least. *)
Theorem group_and_count_total s (group_col : string) :
  ∃ c, group_and_count s group_col = Ok c ∧
    NoDup (dict_keys c) ∧
    sumZ (dict_values c) = Z.of_nat (length (data s)) ∧
    ∀ k n, (k, n) ∈ c →
      n = Z.of_nat (length (group_rows (data s) group_col k)) ∧ 1 ≤ n.
Proof.
  eexists. split; [done|].
  destruct (group_and_count_fold group_col (data s) [] []) as [Hnd Hget];
    [apply NoDup_nil_2 | done |]. cbn [app] in Hget.
  split_and!; [done | by rewrite count_row_total |].
  intros k n Hin. apply (elem_dict_get _ _ _ Hnd) in Hin. rewrite Hget in Hin.
  destruct (length (group_rows (data s) group_col k)); [done|].
  injection Hin as <-. lia.
Qed.

Lemma build_crosstab_row (col1 col2 : string) (acc : dict pyval (dict pyval Z)) r k :
  dict_get k (build_crosstab col1 col2 acc r) =
    if decide (k = group_key r col1)
    then let inner := default [] (dict_get k acc) in
         Some (dict_set (group_key r col2)
                 (default 0 (dict_get (group_key r col2) inner) + 1) inner)
    else dict_get k acc.
Proof.
  unfold build_crosstab. rewrite !get_or_group_key.
  set (key1 := group_key r col1). set (key2 := group_key r col2).
  rewrite dict_get_set. destruct (decide (k = key1)) as [->|Hk]; simpl.
  - destruct (dict_get key1 acc) as [inner|] eqn:Hget.
    + by rewrite Hget.
    + by rewrite dict_get_set_eq.
  - destruct (dict_get key1 acc); [done|]. by rewrite dict_get_set_ne.
Qed.

Lemma crosstab_rows_fold (col1 col2 : string) (rows : list row) :
  ∀ (t : dict pyval (dict pyval Z)) (c : dict pyval Z),
    (∀ k, sumZ (dict_values (default [] (dict_get k t))) = default 0 (dict_get k c)) →
    ∀ k, sumZ (dict_values (default [] (dict_get k (foldl (build_crosstab col1 col2) t rows))))
         = default 0 (dict_get k (foldl (count_row col1) c rows)).
Proof.
  induction rows as [|r rows IH]; intros t c Hrow; [done|].
  cbn [foldl]. apply IH. intros k.
  rewrite build_crosstab_row, count_row_get.
  destruct (decide (k = group_key r col1)) as [->|Hk]; [|apply Hrow].
  cbn [default from_option id]. rewrite inner_total_set, Hrow. lia.
Qed.

(** X6.  The rows of a cross-tabulation are the groups of
    [group_and_count] on the first column: the same keys in the same order,
    and the counts of a row add up to the count of its group. *)
Theorem cross_tabulation_row_totals s (col1 col2 : string) :
  ∃ t c, cross_tabulation s col1 col2 = Ok t ∧
    group_and_count s col1 = Ok c ∧
    dict_keys t = dict_keys c ∧
    ∀ k, sumZ (dict_values (default [] (dict_get k t))) = default 0 (dict_get k c).
Proof.
  eexists _, _. split; [done|]. split; [done|]. split.
  - rewrite (first_seen_fold (build_crosstab col1 col2) (λ r, group_key r col1));
      [|intros acc r; apply build_crosstab_keys].
    rewrite (first_seen_fold (count_row col1) (λ r, group_key r col1)); [done|].
    intros acc r. unfold count_row. rewrite get_or_group_key. apply dict_keys_set.
  - by apply crosstab_rows_fold.
Qed.

Lemma cell_rows_swap (rows : list row) (col1 col2 : string) (k1 k2 : pyval) :
  cell_rows rows col1 col2 k1 k2 = cell_rows rows col2 col1 k2 k1.
Proof. unfold cell_rows. apply list_filter_iff. tauto. Qed.

(** X7.  Exchanging the two columns transposes the cross-tabulation: the
    cell of [k1] and [k2] holds the same count, or is absent, in both. *)
Theorem cross_tabulation_transpose s (col1 col2 : string) :
  ∃ t t', cross_tabulation s col1 col2 = Ok t ∧
    cross_tabulation s col2 col1 = Ok t' ∧
    ∀ k1 k2, crosstab_get t k1 k2 = crosstab_get t' k2 k1.
Proof.
  eexists _, _. split; [done|]. split; [done|]. intros k1 k2.
  rewrite (crosstab_get_fold col1 col2 (data s) [] []) by done.
  rewrite (crosstab_get_fold col2 col1 (data s) [] []) by done.
  cbn [app]. by rewrite cell_rows_swap.
Qed.
End counting.

(** ** One group column *)

Section one_column.
Import DataAggregator.
Context {F : Type} `{PyFloat F}.
Implicit Types (s : self) (k : pyval) (r : row).

Lemma path_values_one (rows : list row) (group_col value_col : string) k :
  path_values (F:=F) rows [group_col] value_col [k] = group_values rows group_col value_col k.
Proof.
  unfold path_values, group_values, item_values, items, item_of.
  induction rows as [|r rows IH]; [done|]. cbn [omap list_omap fmap list_fmap].
  destruct (parsed r value_col) as [x|]; cbn [mbind option_bind omap list_omap fst snd].
  - destruct (decide (group_key r group_col = k)) as [->|Hk].
    + rewrite decide_True by done. by f_equal.
    + rewrite decide_False by congruence. done.
  - by destruct (decide (_ = [k])).
Qed.

(** X8.  With one group column [group_by_multi] is [aggregate] with "sum":
    both hold the same groups, and the leaf of a group is its sum. *)
Theorem group_by_multi_one_column s (group_col value_col operation : string) :
  group_col ∈ headers s → value_col ∈ headers s →
  ∃ t res, group_by_multi s [group_col] value_col operation = Ok t ∧
    aggregate s group_col value_col "sum" = Ok res ∧
    ∀ k, dict_get k t = NLeaf <$> dict_get k res.
Proof.
  intros Hg Hv.
  destruct (group_by_multi_leaves s [group_col] value_col operation) as (t & Ht & _ & Hpath);
    [done|done|].
  exists t. eexists. split; [done|]. split; [by apply aggregate_sum|]. intros k.
  specialize (Hpath [k] eq_refl). cbn [nested_path] in Hpath.
  rewrite Hpath, path_values_one.
  rewrite (dict_get_fmap (λ vs : list F, py_sum (NFloat <$> vs))), grouped_get.
  fold (group_values (data s) group_col value_col k).
  by destruct (group_values (data s) group_col value_col k).
Qed.
End one_column.

(** ** [filter_by_condition] *)

Section filter_by_condition.
Import DataAggregator.
Context {F : Type} `{PyFloat F}.
Implicit Types (s : self) (r : row).

Lemma kept_rows {A} (keep : A → bool) (l : list A) :
  (filter (λ rk : A * bool, rk.2 = true) (zip l (keep <$> l))).*1
    = filter (λ x, keep x = true) l.
Proof.
  induction l as [|x l IH]; [done|]. cbn [fmap list_fmap zip zip_with].
  rewrite !filter_cons. cbn [snd]. destruct (decide (keep x = true)); [|done].
  rewrite fmap_cons. by f_equal.
Qed.

Lemma filter_by_condition_meets s (col operator : string) (value : F) :
  filter_by_condition s col operator value
    = Ok (filter (λ r, meets col operator value r = true) (data s)).
Proof.
  unfold filter_by_condition.
  rewrite (result_mapM_fmap _ (meets col operator value)).
  - cbn [mbind result_bind]. by rewrite kept_rows.
  - intros r _. unfold meets, compares, _is_valid_number.
    destruct (is_ok (py_float (get r col))) eqn:Hok.
    + by destruct (valid_get r col Hok) as (x & -> & ->).
    + by rewrite (invalid_get r col Hok).
Qed.

(** X9.  [filter_by_condition] returns, for every column, operator and
    value, the records that meet the condition, unchanged and in the order
    of the dataset: a record is returned exactly when its cell parses as a
    float that compares as asked.  Filtering the result once more by the
    same condition returns it again. *)
Theorem filter_by_condition_selects s (col operator : string) (value : F) :
  ∃ selected, filter_by_condition s col operator value = Ok selected ∧
    sublist selected (data s) ∧
    (∀ r, r ∈ selected ↔
          r ∈ data s ∧ ∃ x, parsed r col = Some x ∧ compares operator x value = true) ∧
    filter_by_condition (Build_self selected (headers s)) col operator value = Ok selected.
Proof.
  exists (filter (λ r, meets col operator value r = true) (data s)).
  split; [apply filter_by_condition_meets|]. split; [apply sublist_filter|]. split.
  - intros r. rewrite list_elem_of_filter. unfold meets.
    destruct (parsed r col) as [x|]; naive_solver.
  - rewrite filter_by_condition_meets. cbn [data]. f_equal.
    apply list_filter_filter_l. tauto.
Qed.

Lemma meets_equal (col : string) (value : F) r :
  meets col "==" value r = from_option (λ x, f_eqb x value) false (parsed r col).
Proof. unfold meets, compares. by destruct (parsed r col). Qed.

Lemma meets_different (col : string) (value : F) r :
  meets col "!=" value r = from_option (λ x, negb (f_eqb x value)) false (parsed r col).
Proof. unfold meets, compares. by destruct (parsed r col). Qed.

(** X10.  An operator that is not in the table is read as "==", and the
    results of "==" and "!=" share the records whose cell parses between
    them: each such record is in exactly one of the two. *)
Theorem filter_by_condition_operators s (col operator : string) (value : F) :
  (operator ∉ comparison_operators →
   filter_by_condition s col operator value = filter_by_condition s col "==" value) ∧
  ∃ equal different,
    filter_by_condition s col "==" value = Ok equal ∧
    filter_by_condition s col "!=" value = Ok different ∧
    equal ++ different ≡ₚ filter (λ r, is_Some (parsed (F:=F) r col)) (data s) ∧
    ∀ r, r ∈ equal → r ∉ different.
Proof.
  split.
  - intros Hop. rewrite !filter_by_condition_meets. do 2 f_equal.
    unfold meets, compares.
    by rewrite (proj2 (dict_get_None operator (comparators (F:=F))) Hop).
  - eexists _, _. split; [apply filter_by_condition_meets|].
    split; [apply filter_by_condition_meets|]. split.
    + induction (data s) as [|r rows IH]; [done|].
      pose proof (meets_equal col value r) as Heq.
      pose proof (meets_different col value r) as Hne.
      destruct (parsed r col) as [x|] eqn:Hp; cbn [from_option] in Heq, Hne.
      * rewrite (filter_cons_True (λ r, is_Some (parsed r col))) by (by rewrite Hp).
        destruct (f_eqb x value); cbn [negb] in Hne.
        -- rewrite filter_cons_True by done.
           rewrite filter_cons_False by (cbn beta; congruence). cbn [app]. by f_equiv.
        -- rewrite filter_cons_False by (cbn beta; congruence).
           rewrite filter_cons_True by done.
           rewrite <-Permutation_middle. by f_equiv.
      * rewrite !filter_cons_False; [done | | |].
        -- rewrite Hp. by intros [? ?].
        -- congruence.
        -- congruence.
    + intros r. rewrite !list_elem_of_filter, meets_equal, meets_different.
      destruct (parsed r col) as [x|]; cbn [from_option]; [|naive_solver].
      destruct (f_eqb x value); naive_solver.
Qed.
End filter_by_condition.

(** ** The averages of [compare_metrics] *)

Section compare_metrics_values.
Import DataAggregator.
Context {F : Type} `{PyFloat F}.
Implicit Types (acc : dict pyval (dict string (list F))) (k : pyval) (r : row).

Lemma calc_avg_average (vals : list F) : calc_avg vals = Ok (average vals).
Proof.
  unfold calc_avg, average. destruct vals as [|v vals]; [done|].
  unfold num_truediv, py_len, num_eqb, compare_with. cbn [length].
  by rewrite (proj2 (Z.eqb_neq _ 0)) by lia.
Qed.

Lemma init_metrics_get (cols : list string) (c : string) : ∀ d : dict string (list F),
  dict_get c (foldl (λ d col, dict_set col [] d) d cols)
    = if decide (c ∈ cols) then Some [] else dict_get c d.
Proof.
  induction cols as [|c' cols IH]; intros d; cbn [foldl].
  - rewrite decide_False; [done|]. apply not_elem_of_nil.
  - rewrite IH, dict_get_set.
    destruct (decide (c ∈ cols)) as [Hin|Hin].
    + rewrite decide_True; [done|]. by right.
    + destruct (decide (c = c')) as [->|Hne].
      * rewrite decide_True; [done|]. by left.
      * rewrite decide_False; [done|]. by intros [?|?]%elem_of_cons.
Qed.

Lemma group_values_snoc (rows : list row) (group_col c : string) k r :
  group_values (F:=F) (rows ++ [r]) group_col c k =
    group_values rows group_col c k
      ++ (if decide (group_key r group_col = k) then option_list (parsed r c) else []).
Proof.
  unfold group_values, items. rewrite omap_app, item_values_app. f_equal.
  unfold item_of. cbn [omap list_omap].
  destruct (parsed r c) as [x|]; cbn [mbind option_bind option_list].
  - by rewrite item_values_one.
  - by destruct (decide _).
Qed.

Lemma group_rows_snoc (rows : list row) (group_col : string) k r :
  group_rows (rows ++ [r]) group_col k =
    group_rows rows group_col k ++ (if decide (group_key r group_col = k) then [r] else []).
Proof.
  unfold group_rows. by rewrite filter_app.
Qed.

Lemma group_values_no_rows (rows : list row) (group_col c : string) k :
  group_rows rows group_col k = [] → group_values (F:=F) rows group_col c k = [].
Proof.
  induction rows as [|r rows IH] using rev_ind; [done|].
  rewrite group_rows_snoc, group_values_snoc. intros [Hrows Hr]%app_eq_nil.
  rewrite IH by done. by destruct (decide (group_key r group_col = k)).
Qed.

Lemma append_metric_values (kr : pyval) r acc (c0 : string) (vals : list F) :
  metric_values acc kr c0 = Some vals →
  ∃ acc', append_metric kr r acc c0 = Ok acc' ∧
    (∀ k, is_Some (dict_get k acc') ↔ is_Some (dict_get k acc)) ∧
    ∀ k c, metric_values acc' k c =
           if decide (k = kr ∧ c = c0) then Some (vals ++ option_list (parsed r c0))
           else metric_values acc k c.
Proof.
  unfold metric_values at 1. intros Hvals. unfold append_metric.
  destruct (dict_get kr acc) as [metrics|] eqn:Hm; [|done]. cbn in Hvals.
  destruct (_is_valid_number (get r c0)) eqn:Hok.
  - rewrite Hvals. destruct (valid_get r c0 Hok) as (x & -> & ->). cbn.
    eexists. split; [done|]. split.
    + intros k. rewrite dict_get_set. case_decide; [|done]. subst k. by rewrite Hm.
    + intros k c. unfold metric_values. rewrite dict_get_set.
      destruct (decide (k = kr)) as [->|Hk]; cbn.
      * rewrite dict_get_set, Hm. cbn.
        destruct (decide (c = c0)) as [->|Hc].
        -- by rewrite decide_True.
        -- by rewrite decide_False by naive_solver.
      * by rewrite decide_False by naive_solver.
  - exists acc. split; [done|]. split; [done|]. intros k c.
    rewrite (invalid_get r c0 Hok). cbn. rewrite app_nil_r.
    case_decide as Hkc; [|done]. destruct Hkc as [-> ->].
    unfold metric_values. by rewrite Hm.
Qed.

Lemma append_metrics_values (kr : pyval) r (cols : list string) : ∀ acc,
  NoDup cols →
  (∀ c, c ∈ cols → is_Some (metric_values acc kr c)) →
  ∃ acc', reduceM (append_metric kr r) cols acc = Ok acc' ∧
    (∀ k, is_Some (dict_get k acc') ↔ is_Some (dict_get k acc)) ∧
    ∀ k c, metric_values acc' k c =
           if decide (k = kr ∧ c ∈ cols)
           then (λ vals, vals ++ option_list (parsed r c)) <$> metric_values acc k c
           else metric_values acc k c.
Proof.
  induction cols as [|c0 cols IH]; intros acc Hnd Hready; cbn [reduceM].
  - exists acc. split; [done|]. split; [done|]. intros k c.
    rewrite decide_False; [done|]. intros [_ Hc]. by apply elem_of_nil in Hc.
  - apply NoDup_cons in Hnd as [Hc0 Hnd].
    destruct (Hready c0) as [vals Hvals]; [by left|].
    destruct (append_metric_values kr r acc c0 vals Hvals) as (acc1 & -> & Hk1 & Hv1).
    cbn [mbind result_bind].
    destruct (IH acc1 Hnd) as (acc' & -> & Hk' & Hv').
    { intros c Hc. rewrite Hv1, decide_False; [apply Hready; by right|].
      intros [_ ->]. done. }
    exists acc'. split; [done|]. split; [intros k; by rewrite Hk', Hk1|].
    intros k c. rewrite Hv', !Hv1.
    destruct (decide (k = kr)) as [->|Hk].
    + destruct (decide (c = c0)) as [->|Hc].
      * rewrite (decide_False (P:=kr = kr ∧ c0 ∈ cols)) by naive_solver.
        rewrite !decide_True; [by rewrite Hvals | split; [done|by left] | done].
      * rewrite (decide_False (P:=kr = kr ∧ c = c0)) by naive_solver.
        destruct (decide (c ∈ cols)) as [Hin|Hin].
        -- rewrite !decide_True; [done | split; [done|by right] | done].
        -- rewrite !decide_False; [done | | naive_solver].
           intros [_ [?|?]%elem_of_cons]; done.
    + by rewrite !decide_False by naive_solver.
Qed.

Lemma accumulate_metrics_values (group_col : string) (cols : list string) seen acc r :
  NoDup cols → accumulated group_col cols seen acc →
  ∃ acc', accumulate_metrics group_col cols acc r = Ok acc' ∧
          accumulated group_col cols (seen ++ [r]) acc'.
Proof.
  intros Hnd [Hkeys Hvals]. unfold accumulate_metrics. rewrite get_or_group_key.
  set (kr := group_key r group_col).
  set (acc1 := if dict_get kr acc is None then _ else acc).
  assert ((∀ k, is_Some (dict_get k acc1) ↔ k = kr ∨ is_Some (dict_get k acc)) ∧
          ∀ k c, c ∈ cols → is_Some (dict_get k acc1) →
            metric_values acc1 k c = Some (group_values seen group_col c k))
    as [Hkeys1 Hvals1].
  { subst acc1. destruct (dict_get kr acc) as [ms|] eqn:Hkr.
    - split; [|done]. intros k. split; [by right|]. intros [->|?]; [by rewrite Hkr|done].
    - split; [intros k; rewrite dict_get_set; case_decide; naive_solver|].
      intros k c Hc. unfold metric_values. rewrite dict_get_set.
      destruct (decide (k = kr)) as [->|Hk]; [|by apply Hvals].
      intros _. cbn. rewrite init_metrics_get, decide_True by done.
      rewrite group_values_no_rows; [done|].
      destruct (decide (group_rows seen group_col kr = [])) as [?|Hne]; [done|].
      apply Hkeys in Hne. rewrite Hkr in Hne. by destruct Hne. }
  destruct (append_metrics_values kr r cols acc1 Hnd) as (acc' & -> & Hk' & Hv').
  { intros c Hc. rewrite Hvals1; [done | done | apply Hkeys1; by left]. }
  exists acc'. split; [done|]. split.
  - intros k. rewrite Hk', Hkeys1, Hkeys, group_rows_snoc. fold kr.
    destruct (decide (kr = k)) as [->|Hk].
    + split; [intros _ | by left]. by destruct (group_rows seen group_col k).
    + rewrite app_nil_r. naive_solver.
  - intros k c Hc Hk. rewrite Hv', group_values_snoc. fold kr.
    apply Hk' in Hk. rewrite (Hvals1 k c Hc Hk).
    destruct (decide (k = kr)) as [->|Hne].
    + by rewrite !decide_True.
    + rewrite !decide_False by naive_solver. by rewrite app_nil_r.
Qed.

Lemma grouped_metrics_values (group_col : string) (cols : list string) (rows : list row) :
  NoDup cols → ∀ seen acc,
  accumulated group_col cols seen acc →
  ∃ acc', reduceM (accumulate_metrics group_col cols) rows acc = Ok acc' ∧
          accumulated group_col cols (seen ++ rows) acc'.
Proof.
  intros Hnd. induction rows as [|r rows IH]; intros seen acc Hacc; cbn [reduceM].
  - exists acc. by rewrite app_nil_r.
  - destruct (accumulate_metrics_values group_col cols seen acc r Hnd Hacc)
      as (acc1 & -> & Hacc1). cbn [mbind result_bind].
    destruct (IH (seen ++ [r]) acc1 Hacc1) as (acc' & -> & Hacc').
    exists acc'. split; [done|]. by rewrite <-(assoc_L (++)) in Hacc'.
Qed.

Lemma averages_fmap {K} (d : dict K (list F)) :
  result_mapM (λ cv, a ← calc_avg cv.2; Ok (cv.1, a)) d
    = Ok ((λ cv, (cv.1, average cv.2)) <$> d).
Proof.
  apply (result_mapM_fmap _ (λ cv : K * list F, (cv.1, average cv.2))).
  intros cv _. by rewrite calc_avg_average.
Qed.

Lemma dict_get_map_values {K A B} `{EqDecision K} (fv : A → B) (d : dict K A) (k : K) :
  dict_get k ((λ kv, (kv.1, fv kv.2)) <$> d) = fv <$> dict_get k d.
Proof.
  induction d as [|[k' v] d IH]; [done|]. rewrite fmap_cons. cbn [dict_get fst snd].
  by destruct (decide (k = k')).
Qed.

Lemma compare_metrics_values (s : self) (group_col : string) (metric_cols : list string) :
  NoDup metric_cols →
  ∃ res, compare_metrics s group_col metric_cols = Ok res ∧
    ∀ k, group_rows (data s) group_col k ≠ [] →
      ∃ metrics, dict_get k res = Some metrics ∧
        ∀ c, c ∈ metric_cols →
          dict_get c metrics = Some (average (group_values (data s) group_col c k)).
Proof.
  intros Hnd. unfold compare_metrics.
  destruct (grouped_metrics_values group_col metric_cols (data s) Hnd [] [])
    as (acc & -> & Hkeys & Hvals).
  { split; [|by intros k c _ [? ?]]. intros k. split; [by intros [? ?]|done]. }
  cbn [mbind result_bind app].
  rewrite (result_mapM_fmap _
             (λ gm : pyval * dict string (list F),
                (gm.1, (λ cv : string * list F, (cv.1, average cv.2)) <$> gm.2)));
    [|intros gm _; by rewrite averages_fmap].
  eexists. split; [done|]. intros k Hk.
  apply Hkeys in Hk as Hsome. destruct Hsome as [metrics Hm].
  exists ((λ cv : string * list F, (cv.1, average cv.2)) <$> metrics). split.
  - rewrite (dict_get_map_values
               (λ ms : dict string (list F), (λ cv, (cv.1, average cv.2)) <$> ms)).
    by rewrite Hm.
  - intros c Hc. rewrite (dict_get_map_values average).
    specialize (Hvals k c Hc (ltac:(by rewrite Hm))).
    unfold metric_values in Hvals. rewrite Hm in Hvals. cbn in Hvals. by rewrite Hvals.
Qed.

(** X11.  For metric columns without repetition, [compare_metrics] holds,
    for every group with a record and every metric column, the average of
    the values of that column that parse, over the records of the group,
    and 0 when none parses. *)
Theorem compare_metrics_averages (s : self) (group_col : string) (metric_cols : list string) :
  NoDup metric_cols →
  ∃ res, compare_metrics s group_col metric_cols = Ok res ∧
    ∀ k, group_rows (data s) group_col k ≠ [] →
      ∃ metrics, dict_get k res = Some metrics ∧
        ∀ c, c ∈ metric_cols →
          dict_get c metrics = Some (average (group_values (data s) group_col c k)).
Proof. apply compare_metrics_values. Qed.

(** X12.  [compare_metrics] agrees with [aggregate]: under a group and a
    metric column it holds the value [aggregate] with "avg" returns for
    that column and that group. *)
Theorem compare_metrics_is_aggregate_avg (s : self) (group_col : string)
    (metric_cols : list string) (c : string) :
  NoDup metric_cols → c ∈ metric_cols →
  group_col ∈ headers s → c ∈ headers s →
  ∃ res avgs, compare_metrics s group_col metric_cols = Ok res ∧
    aggregate s group_col c "avg" = Ok avgs ∧
    ∀ k a, dict_get k avgs = Some a →
      ∃ metrics, dict_get k res = Some metrics ∧ dict_get c metrics = Some a.
Proof.
  intros Hnd Hc Hg Hcol.
  destruct (compare_metrics_values s group_col metric_cols Hnd) as (res & Hres & Havg).
  exists res. eexists. split; [done|]. split; [by apply aggregate_avg|].
  intros k a.
  rewrite (dict_get_map_values
             (λ vs : list F, NFloat (f_div (to_float (py_sum (NFloat <$> vs)))
                                           (to_float (py_len vs))))).
  rewrite grouped_get. fold (group_values (data s) group_col c k).
  destruct (group_values (data s) group_col c k) as [|v vs] eqn:Hgv; [done|].
  intros [= <-].
  destruct (Havg k) as (metrics & Hm & Hvals).
  { intros Hnone. by rewrite (group_values_no_rows _ _ c _ Hnone) in Hgv. }
  exists metrics. split; [done|]. by rewrite (Hvals c Hc), Hgv.
Qed.
End compare_metrics_values.

(** ** [get_distribution] *)

Section get_distribution.
Implicit Types (k val : pyval) (acc : dict pyval Z).

Lemma dict_set_new {V} (k : pyval) (v : V) (d : dict pyval V) :
  k ∉ dict_keys d → dict_set k v d = d ++ [(k, v)].
Proof.
  induction d as [|[k' v'] d IH]; [done|]. cbn [dict_set dict_keys fmap list_fmap fst].
  intros [Hne Hnot]%not_elem_of_cons. rewrite decide_False by done.
  cbn [app]. f_equal. by apply IH.
Qed.

(** [dict(items)] of items with distinct keys holds them as they stand. *)
Lemma dict_of_items {V} (l : list (pyval * V)) : ∀ d,
  NoDup (dict_keys (d ++ l)) → foldl (λ d kv, dict_set kv.1 kv.2 d) d l = d ++ l.
Proof.
  induction l as [|[k v] l IH]; intros d Hnd; cbn [foldl fst snd].
  - by rewrite app_nil_r.
  - rewrite dict_set_new.
    + rewrite IH; rewrite <-(assoc_L (++)); done.
    + unfold dict_keys in Hnd. rewrite fmap_app, fmap_cons in Hnd.
      apply NoDup_app in Hnd as (_ & Hdisj & _). intros Hin.
      apply (Hdisj k Hin). by left.
Qed.

Lemma dict_get_perm {V} (d d' : dict pyval V) k :
  d ≡ₚ d' → NoDup (dict_keys d) → dict_get k d = dict_get k d'.
Proof.
  intros Hperm Hnd.
  assert (NoDup (dict_keys d')) as Hnd'.
  { unfold dict_keys in *. by rewrite <-Hperm. }
  destruct (dict_get k d) as [v|] eqn:Hget.
  - symmetry. apply elem_dict_get; [done|]. rewrite <-Hperm. by apply dict_get_Some_elem.
  - symmetry. apply dict_get_None. apply dict_get_None in Hget.
    unfold dict_keys in *. by rewrite <-Hperm.
Qed.

Lemma tally_get (vals : list pyval) : ∀ acc (seen : list pyval),
  NoDup (dict_keys acc) →
  (∀ k, dict_get k acc = positive_count (length (filter (λ val, val = k) seen))) →
  let d := foldl (λ acc val, dict_set val (default 0 (dict_get val acc) + 1) acc) acc vals in
  NoDup (dict_keys d) ∧
  ∀ k, dict_get k d = positive_count (length (filter (λ val, val = k) (seen ++ vals))).
Proof.
  induction vals as [|val vals IH]; intros acc seen Hnd Hseen; cbn [foldl].
  - by rewrite app_nil_r.
  - specialize (IH (dict_set val (default 0 (dict_get val acc) + 1) acc) (seen ++ [val])).
    rewrite <-(assoc_L (++)) in IH. apply IH; [by apply dict_set_NoDup|].
    intros k. rewrite dict_get_set, filter_app, length_app, Hseen, filter_cons, filter_nil.
    destruct (decide (k = val)) as [->|Hne].
    + rewrite decide_True by done. cbn [length].
      destruct (length (filter (λ v, v = val) seen)) as [|n]; cbn; f_equal; lia.
    + rewrite decide_False by done. cbn [length]. by rewrite Nat.add_0_r.
Qed.

Lemma count_nonblank (rows : list row) (col : string) k :
  length (filter (λ val, val = k)
            (filter (λ val, DataAnalyzer.nonblank val = true)
               ((λ r, get_or r col (VStr "Unknown")) <$> rows)))
    = if DataAnalyzer.nonblank k then length (group_rows rows col k) else 0%nat.
Proof.
  unfold group_rows. induction rows as [|r rows IH]; [by destruct (DataAnalyzer.nonblank k)|].
  rewrite fmap_cons, get_or_group_key, (filter_cons (λ r, group_key r col = k)).
  rewrite (filter_cons (λ val, DataAnalyzer.nonblank val = true)).
  destruct (decide (group_key r col = k)) as [<-|Hne];
    destruct (decide (DataAnalyzer.nonblank (group_key r col) = true)) as [Hb|Hb].
  - rewrite filter_cons_True by done. rewrite Hb in *. cbn [length]. by rewrite IH.
  - apply not_true_is_false in Hb. rewrite Hb in *. by rewrite IH.
  - rewrite filter_cons_False by done. by rewrite IH.
  - by rewrite IH.
Qed.

Lemma slice_to_prefix {A} (l : list A) (n : Z) : ∃ m, slice_to l n = take m l.
Proof. unfold slice_to. destruct (0 <=? n); by eexists. Qed.

(** X13.  [get_distribution] returns the first [top_n] entries of the full
    tally of the column: the tally holds, once each, the values that are
    not empty or blank, with the number of records that hold them, in the
    order of decreasing counts.  A record without the column counts under
    "Unknown". *)
Theorem get_distribution_tally (a : DataAnalyzer.self) (col : string) (top_n : Z) :
  ∃ tally,
    DataAnalyzer.get_distribution a col top_n = Ok (slice_to tally top_n) ∧
    NoDup (dict_keys tally) ∧
    (∀ k, dict_get k tally =
          if DataAnalyzer.nonblank k
          then positive_count (length (group_rows (DataAnalyzer.data a) col k))
          else None) ∧
    Sorted (λ x y : pyval * Z, (x.2 <? y.2) = false) tally.
Proof.
  unfold DataAnalyzer.get_distribution.
  set (vals := filter _ (_ <$> DataAnalyzer.data a)).
  set (d := foldl _ [] vals).
  destruct (tally_get vals [] []) as [Hnd Hget]; [apply NoDup_nil_2 | done |].
  fold d in Hnd, Hget. cbn [app] in Hget.
  set (lt := λ x y : pyval * Z, y.2 <? x.2).
  assert (NoDup (dict_keys (sorted lt d))) as Hnds.
  { unfold dict_keys in *. by rewrite (sorted_perm lt d). }
  exists (sorted lt d). split_and!.
  - f_equal. destruct (slice_to_prefix (sorted lt d) top_n) as [m ->].
    apply (dict_of_items _ []). cbn [app].
    unfold dict_keys in *. rewrite fmap_take.
    eapply sublist_NoDup; [done | apply sublist_take].
  - done.
  - intros k. rewrite <-(dict_get_perm d (sorted lt d)); [|by rewrite sorted_perm|done].
    rewrite Hget. subst vals. rewrite count_nonblank.
    by destruct (DataAnalyzer.nonblank k).
  - apply (sorted_Sorted lt). intros x y. unfold lt. lia.
Qed.
End get_distribution.

(** ** A column that no record has *)

Section absent_column.
Context {F : Type} `{PyFloat F}.
Variable pow2 : F → result F.
Variable pow_half : F → power F.
Variable round_ndigits : F → Z → F.
Variable stdev : list F → result F.

Lemma stat_values_absent (rows : list row) (col : string) :
  (∀ r, r ∈ rows → r !! col = None) →
  stat_values (F:=F) rows col = replicate (length rows) (f_of_Z 0).
Proof.
  unfold stat_values. induction rows as [|r rows IH]; intros Hcol; [done|].
  rewrite fmap_cons. unfold get_or at 1. rewrite (Hcol r) by left.
  cbn [default from_option id omap list_omap float_of py_float length replicate].
  f_equal. apply IH. intros r' Hr'. apply Hcol. by right.
Qed.

Lemma foldl_pick_replicate (pick : F → F → bool) (x : F) (n : nat) :
  foldl (λ cur item, if pick cur item then item else cur) x (replicate n x) = x.
Proof. induction n as [|n IH]; [done|]. cbn [replicate foldl]. by destruct (pick x x). Qed.

Lemma absent_is_unparsed (rows : list row) (col : string) :
  (∀ r, r ∈ rows → r !! col = None) → ∀ r, r ∈ rows → parsed (F:=F) r col = None.
Proof. intros Hcol r Hr. unfold parsed, get. by rewrite (Hcol r Hr). Qed.

Lemma items_absent (rows : list row) (other col : string) :
  (∀ r, r ∈ rows → r !! col = None) → items (F:=F) rows other col = [].
Proof.
  intros Hcol. unfold items, item_of. induction rows as [|r rows IH]; [done|].
  cbn [omap list_omap]. rewrite (absent_is_unparsed (r :: rows) col Hcol r) by left.
  cbn. apply IH. intros r' Hr'. apply Hcol. by right.
Qed.

Lemma valid_pairs_absent (rows : list row) (col other : string) :
  (∀ r, r ∈ rows → r !! col = None) → valid_pairs (F:=F) rows col other = [].
Proof.
  intros Hcol. unfold valid_pairs. induction rows as [|r rows IH]; [done|].
  cbn [omap list_omap]. rewrite (absent_is_unparsed (r :: rows) col Hcol r) by left.
  cbn. apply IH. intros r' Hr'. apply Hcol. by right.
Qed.

(** X14.  A column that no record has is read in two ways.
    [get_statistics] takes the default 0 for the cell of every record: the
    count is the number of records and the minimum and the maximum are 0.0,
    [statistics.stdev] returning on zeros as it does.  [rank] and
    [correlate_metrics] take the cell as missing: the ranking is empty and
    the correlation is the record of "none". *)
Theorem absent_column_statistics (a : DataAnalyzer.self) (col other : string)
    (limit : Z) (operation : string) :
  (∀ r, r ∈ DataAnalyzer.data a → r !! col = None) →
  DataAnalyzer.data a ≠ [] →
  ((1 < length (DataAnalyzer.data a))%nat →
   is_ok (stdev (replicate (length (DataAnalyzer.data a)) (f_of_Z 0))) = true) →
  (∃ st, DataAnalyzer.get_statistics stdev a col = Ok st ∧
     DataAnalyzer.st_count st = NInt (Z.of_nat (length (DataAnalyzer.data a))) ∧
     DataAnalyzer.st_min st = NFloat (f_of_Z 0) ∧
     DataAnalyzer.st_max st = NFloat (f_of_Z 0)) ∧
  DataAnalyzer.rank (F:=F) a other col limit operation = Ok [] ∧
  DataAnalyzer.correlate_metrics pow2 pow_half round_ndigits a col other
    = Ok (DataAnalyzer.Build_correlation_result (NInt 0) "none" "none").
Proof.
  intros Hcol Hdata Hstdev. split_and!.
  - destruct (get_statistics_values stdev a col) as (mn & mx & med & Hmn & Hmx & _ & ->).
    { rewrite stat_values_absent by done. by destruct (DataAnalyzer.data a). }
    rewrite stat_values_absent in * by done. rewrite length_replicate.
    destruct (DataAnalyzer.data a) as [|r rows]; [done|]. cbn [length replicate] in *.
    cbn [py_min py_max] in Hmn, Hmx.
    rewrite (foldl_pick_replicate (λ cur item, f_ltb item cur)) in Hmn.
    rewrite (foldl_pick_replicate (λ cur item, f_ltb cur item)) in Hmx.
    injection Hmn as <-. injection Hmx as <-.
    destruct (1 <? S (length rows))%nat eqn:Hlen.
    + apply Nat.ltb_lt in Hlen. specialize (Hstdev Hlen).
      destruct (stdev _) as [x|]; [|done]. by eexists.
    + by eexists.
  - rewrite rank_unfold, items_absent by done.
    cbn. unfold slice_to. f_equal. destruct (0 <=? limit); apply take_nil.
  - by rewrite correlate_metrics_pairs, valid_pairs_absent.
Qed.
End absent_column.

(** ** [percentile] and [find_outliers] on the values of a column *)

Section column_values.
Context {F : Type} `{PyFloat F}.
Variable pow2 : F → result F.
Variable pow_half : F → power F.

Lemma stat_values_all_valid (rows : list row) (col : string) :
  (∀ r, r ∈ rows → is_Some (float_of (F:=F) (get_or r col (VInt 0)))) →
  length (stat_values (F:=F) rows col) = length rows.
Proof.
  unfold stat_values. induction rows as [|r rows IH]; intros Hall; [done|].
  rewrite fmap_cons. cbn [omap list_omap]. destruct (Hall r) as [x ->]; [left|].
  cbn [length]. f_equal. apply IH. intros r' Hr'. apply Hall. by right.
Qed.

Lemma index_cases {A} (l : list A) (i : Z) :
  let n := Z.of_nat (length l) in
  (0 ≤ i < n → ∃ x, l !! Z.to_nat i = Some x ∧ index l i = Ok x) ∧
  (- n ≤ i < 0 → ∃ x, l !! Z.to_nat (n + i) = Some x ∧ index l i = Ok x) ∧
  (i < - n ∨ n ≤ i → index l i = Raise IndexError).
Proof.
  intros n. unfold index. fold n. split_and!.
  - intros Hi. rewrite (proj2 (Z.leb_le 0 i)), (proj2 (Z.ltb_ge i 0)) by lia.
    destruct (lookup_lt_is_Some_2 l (Z.to_nat i)) as [x Hx]; [lia|].
    exists x. by rewrite Hx.
  - intros Hi. rewrite (proj2 (Z.leb_gt 0 i)), (proj2 (Z.ltb_ge (n + i) 0)) by lia.
    destruct (lookup_lt_is_Some_2 l (Z.to_nat (n + i))) as [x Hx]; [lia|].
    exists x. by rewrite Hx.
  - intros [Hi|Hi].
    + by rewrite (proj2 (Z.leb_gt 0 i)), (proj2 (Z.ltb_lt (n + i) 0)) by lia.
    + rewrite (proj2 (Z.leb_le 0 i)), (proj2 (Z.ltb_ge i 0)) by lia.
      by rewrite lookup_ge_None_2 by lia.
Qed.

(** X15.  On a dataset with records in which every cell of the column
    parses, to values that [<] orders (none of them a nan), [percentile]
    reads the sorted values at the index [i = int((p / 100) * (n - 1))], as a
    Python list is read: at [i] from the start for [0 <= i < n], at [n + i],
    that is from the end, for a negative [i] down to [-n], and with an
    [IndexError] outside.  What it returns is always a value of the
    column. *)
Theorem percentile_index (a : DataAnalyzer.self) (col : string) (p : F) (i : Z) :
  let vs := stat_values (DataAnalyzer.data a) col in
  let n := Z.of_nat (length (DataAnalyzer.data a)) in
  (∀ r, r ∈ DataAnalyzer.data a → is_Some (float_of (F:=F) (get_or r col (VInt 0)))) →
  DataAnalyzer.data a ≠ [] →
  weak_order f_ltb vs →
  f_trunc (f_mul (f_div p (f_of_Z 100)) (f_of_Z (n - 1))) = Ok i →
  ∃ sv, stable_sort_of f_ltb vs sv ∧
    (0 ≤ i < n →
     ∃ x, sv !! Z.to_nat i = Some x ∧ DataAnalyzer.percentile a col p = Ok (NFloat x)) ∧
    (- n ≤ i < 0 →
     ∃ x, sv !! Z.to_nat (n + i) = Some x ∧ DataAnalyzer.percentile a col p = Ok (NFloat x)) ∧
    (i < - n ∨ n ≤ i → DataAnalyzer.percentile a col p = Raise IndexError) ∧
    (∀ x, DataAnalyzer.percentile a col p = Ok (NFloat x) → x ∈ vs).
Proof.
  intros vs n Hall Hdata Hwo Hi.
  set (sv := sorted f_ltb vs).
  exists sv. split; [by apply sorted_stable_sort_of|].
  assert (Z.of_nat (length sv) = n) as Hn.
  { unfold sv, vs, n. by rewrite sorted_length, stat_values_all_valid. }
  assert (DataAnalyzer.percentile a col p = x ← index sv i; Ok (NFloat x)) as ->.
  { rewrite (percentile_all_valid a col p Hall). fold vs. fold sv. rewrite Hn.
    destruct sv as [|v sv'] eqn:Hsv.
    - destruct (DataAnalyzer.data a); [done|]. cbn [length] in Hn. unfold n in Hn.
      cbn [length] in Hn. lia.
    - by rewrite Hi. }
  destruct (index_cases sv i) as (Hpos & Hneg & Hout). rewrite Hn in Hpos, Hneg, Hout.
  split_and!.
  - intros Hr. destruct (Hpos Hr) as (x & Hx & ->). by exists x.
  - intros Hr. destruct (Hneg Hr) as (x & Hx & ->). by exists x.
  - intros Hr. by rewrite (Hout Hr).
  - intros x Hx. unfold vs. rewrite <-(sorted_perm f_ltb). fold vs. fold sv.
    destruct (decide (0 ≤ i < n)) as [Hr|Hr1].
    + destruct (Hpos Hr) as (y & Hy & Hidx). rewrite Hidx in Hx. injection Hx as <-.
      by apply list_elem_of_lookup_2 in Hy.
    + destruct (decide (- n ≤ i < 0)) as [Hr|Hr2].
      * destruct (Hneg Hr) as (y & Hy & Hidx). rewrite Hidx in Hx. injection Hx as <-.
        by apply list_elem_of_lookup_2 in Hy.
      * rewrite Hout in Hx by lia. done.
Qed.

(** X16.  [find_outliers] returns the empty list when fewer than two
    values of the column parse, and whatever it returns is a part of the
    column's values, each one as it was parsed and in the order of the
    dataset. *)
Theorem find_outliers_of_the_values (a : DataAnalyzer.self) (col : string) (threshold : F) :
  ((length (stat_values (F:=F) (DataAnalyzer.data a) col) < 2)%nat →
   DataAnalyzer.find_outliers pow2 pow_half a col threshold = Ok []) ∧
  (∀ outliers, DataAnalyzer.find_outliers pow2 pow_half a col threshold = Ok outliers →
     sublist outliers (stat_values (DataAnalyzer.data a) col)).
Proof.
  rewrite find_outliers_values. unfold outliers_of.
  set (vs := stat_values (DataAnalyzer.data a) col). split.
  - intros Hlt. by rewrite (proj2 (Nat.ltb_lt _ 2)) by done.
  - intros outliers. destruct (length vs <? 2)%nat.
    + intros [= <-]. apply sublist_nil_l.
    + unfold DataAnalyzer.outliers_among.
      destruct (num_truediv _ _) as [mean_val|]; [|done]. cbn [mbind result_bind].
      destruct (reduceM _ vs (NInt 0)) as [squares|]; [|done]. cbn [mbind result_bind].
      destruct (num_truediv _ _) as [variance|]; [|done]. cbn [mbind result_bind].
      destruct (pow_half _) as [stdev_val|].
      * intros [= <-]. apply sublist_filter.
      * destruct vs; [|done]. intros [= <-]. apply sublist_nil_l.
Qed.
End column_values.

(** ** The two columns of [correlate_metrics] *)

Section correlation_symmetry.
Context {F : Type} `{PyFloat F}.
Variable pow2 : F → result F.
Variable pow_half : F → power F.
Variable round_ndigits : F → Z → F.
Hypothesis mul_comm : ∀ x y : F, f_mul x y = f_mul y x.
Hypothesis pow2_raises : ∀ x e, pow2 x = Raise e → e = OverflowError.

Lemma num_mul_comm (a b : num F) : num_mul a b = num_mul b a.
Proof using mul_comm.
  destruct a, b; unfold num_mul, arith; cbn [to_float]; f_equal;
    [apply Z.mul_comm | apply mul_comm..].
Qed.

Lemma num_square_raises (a : num F) (e : exn) :
  DataAnalyzer.num_square pow2 a = Raise e → e = OverflowError.
Proof using pow2_raises.
  destruct a as [z|x]; [done|]. cbn. destruct (pow2 x) as [y|e'] eqn:Hx; [done|].
  intros [= <-]. by apply (pow2_raises x).
Qed.

(** Two squares may be taken in either order. *)
Lemma squares_exchange {A} (a b : num F) (k : num F → num F → result A) :
  (x ← DataAnalyzer.num_square pow2 a; y ← DataAnalyzer.num_square pow2 b; k x y)
  = (y ← DataAnalyzer.num_square pow2 b; x ← DataAnalyzer.num_square pow2 a; k x y).
Proof using pow2_raises.
  destruct (DataAnalyzer.num_square pow2 a) as [x|e1] eqn:Ha,
           (DataAnalyzer.num_square pow2 b) as [y|e2] eqn:Hb; cbn; try done.
  by rewrite (num_square_raises a e1 Ha), (num_square_raises b e2 Hb).
Qed.

Lemma add_pair_exchanged (acc : DataAnalyzer.sums F) (x y : F) :
  DataAnalyzer.add_pair pow2 (exchanged acc) (y, x)
    = (stats ← DataAnalyzer.add_pair pow2 acc (x, y); Ok (exchanged stats)).
Proof using mul_comm pow2_raises.
  unfold DataAnalyzer.add_pair. cbn [fst snd].
  rewrite (squares_exchange (NFloat y) (NFloat x)).
  destruct (DataAnalyzer.num_square pow2 (NFloat x)) as [x2|]; [|done].
  destruct (DataAnalyzer.num_square pow2 (NFloat y)) as [y2|]; [|done].
  cbn. unfold exchanged. cbn. by rewrite (mul_comm y x).
Qed.

Lemma add_pairs_exchanged (pairs : list (F * F)) : ∀ acc,
  reduceM (DataAnalyzer.add_pair pow2) ((λ p, (p.2, p.1)) <$> pairs) (exchanged acc)
    = (stats ← reduceM (DataAnalyzer.add_pair pow2) pairs acc; Ok (exchanged stats)).
Proof using mul_comm pow2_raises.
  induction pairs as [|[x y] pairs IH]; intros acc; [done|].
  rewrite fmap_cons. cbn [reduceM fst snd]. rewrite add_pair_exchanged.
  destruct (DataAnalyzer.add_pair pow2 acc (x, y)) as [acc1|]; [|done].
  cbn [mbind result_bind]. apply IH.
Qed.

Lemma correlate_pairs_exchanged (pairs : list (F * F)) :
  DataAnalyzer.correlate_pairs pow2 pow_half round_ndigits ((λ p, (p.2, p.1)) <$> pairs)
    = DataAnalyzer.correlate_pairs pow2 pow_half round_ndigits pairs.
Proof using mul_comm pow2_raises.
  unfold DataAnalyzer.correlate_pairs. rewrite length_fmap.
  destruct (Z.of_nat (length pairs) <? 2); [done|].
  pose proof (add_pairs_exchanged pairs
                (DataAnalyzer.Build_sums (NInt 0) (NInt 0) (NInt 0) (NInt 0) (NInt 0))) as Hsw.
  unfold exchanged at 1 in Hsw. cbn in Hsw. unfold py_len. rewrite length_fmap, Hsw.
  destruct (reduceM _ pairs _) as [stats|]; [|done]. cbn [mbind result_bind].
  unfold exchanged.
  cbn [DataAnalyzer.sum_x DataAnalyzer.sum_y DataAnalyzer.sum_xy DataAnalyzer.sum_x2
       DataAnalyzer.sum_y2].
  rewrite (squares_exchange (DataAnalyzer.sum_y stats) (DataAnalyzer.sum_x stats)).
  destruct (DataAnalyzer.num_square pow2 (DataAnalyzer.sum_x stats)) as [sx|]; [|done].
  destruct (DataAnalyzer.num_square pow2 (DataAnalyzer.sum_y stats)) as [sy|]; [|done].
  cbn [mbind result_bind].
  rewrite (num_mul_comm (DataAnalyzer.sum_y stats) (DataAnalyzer.sum_x stats)).
  by rewrite (num_mul_comm (num_sub _ sy) (num_sub _ sx)).
Qed.

Lemma valid_pairs_exchanged (rows : list row) (col1 col2 : string) :
  valid_pairs (F:=F) rows col2 col1 = (λ p, (p.2, p.1)) <$> valid_pairs rows col1 col2.
Proof.
  unfold valid_pairs. induction rows as [|r rows IH]; [done|]. cbn [omap list_omap].
  destruct (parsed r col1) as [x|], (parsed r col2) as [y|]; cbn; by rewrite ?IH.
Qed.

Lemma correlate_metrics_exchanged (a : DataAnalyzer.self) (col1 col2 : string) :
  DataAnalyzer.correlate_metrics pow2 pow_half round_ndigits a col2 col1
    = DataAnalyzer.correlate_metrics pow2 pow_half round_ndigits a col1 col2.
Proof using mul_comm pow2_raises.
  by rewrite !correlate_metrics_pairs, valid_pairs_exchanged, correlate_pairs_exchanged.
Qed.
End correlation_symmetry.

Lemma binary64_mul_comm (x y : float) : PrimFloat.mul x y = PrimFloat.mul y x.
Proof.
  apply FloatAxioms.Prim2SF_inj. rewrite !FloatAxioms.mul_spec. unfold FloatAxioms.SF64mul, SFmul.
  destruct (Prim2SF x) as [sx|sx| |sx mx ex], (Prim2SF y) as [sy|sy| |sy my ey];
    try reflexivity; rewrite ?(xorb_comm sx sy); try reflexivity.
  by rewrite (Pos.mul_comm mx my), (Z.add_comm ex ey).
Qed.

(** X17.  On binary64 [correlate_metrics] does not depend on the order of
    its two columns: it returns the same record, or raises the same
    exception, with the columns exchanged. *)
Theorem correlate_metrics_symmetric (round_ndigits : float → Z → float)
    (a : DataAnalyzer.self) (col1 col2 : string) :
  DataAnalyzer.correlate_metrics Binary64.pow2 Binary64.pow_half round_ndigits a col2 col1
    = DataAnalyzer.correlate_metrics Binary64.pow2 Binary64.pow_half round_ndigits a col1 col2.
Proof.
  apply (correlate_metrics_exchanged (H:=Binary64.binary64)).
  - apply binary64_mul_comm.
  - intros x e. unfold Binary64.pow2. by destruct (_ && _); intros [= <-].
Qed.

(** ** The loader and the engine *)

Section loader.
Import DataLoader.
Context {F : Type} `{PyFloat F}.
Implicit Types (s : self) (stream : DictReader).

Lemma is_numeric_ok (tc : dict string confidence) (col : string) :
  ∃ b, is_numeric (F:=F) tc col = Ok b.
Proof.
  unfold is_numeric, num_truediv, num_eqb, compare_with.
  rewrite (proj2 (Z.eqb_neq _ 0)) by lia. by eexists.
Qed.

Lemma flags_of (headers : list string) (rows : list row) (cols : list string) :
  result_mapM (λ col, b ← is_numeric (F:=F) (confidence_of headers rows) col; Ok (col, b)) cols
    = Ok ((λ col, (col, classified_numeric headers rows col)) <$> cols).
Proof.
  apply result_mapM_fmap. intros col _. unfold classified_numeric.
  by destruct (is_numeric_ok (confidence_of headers rows) col) as [b ->].
Qed.

Lemma flagged_cols (test : string → bool) (cols : list string) :
  (filter (λ cb : string * bool, cb.2 = true) ((λ col, (col, test col)) <$> cols)).*1
    = filter (λ col, test col = true) cols.
Proof.
  induction cols as [|c cols IH]; [done|]. rewrite fmap_cons, !filter_cons. cbn [snd].
  destruct (decide (test c = true)); [|done]. rewrite fmap_cons. by f_equal.
Qed.

Lemma not_flagged_cols (test : string → bool) (cols : list string) : ∀ part,
  part ⊆ cols →
  filter (λ col, col ∉ filter (λ col, test col = true) cols) part
    = filter (λ col, ¬ (test col = true)) part.
Proof.
  induction part as [|c part IH]; intros Hsub; [done|].
  rewrite !filter_cons, IH by set_solver.
  destruct (decide (test c = true)) as [Hc|Hc].
  - rewrite !decide_False; [done | by intros ? |]. intros Hnot. apply Hnot.
    apply list_elem_of_filter. split; [done|]. apply Hsub. by left.
  - rewrite !decide_True; [done | done |]. by intros [? _]%list_elem_of_filter.
Qed.

Lemma process_stream_headers s stream (h : string) (hs : list string) :
  fieldnames stream = Some (h :: hs) →
  _process_stream (F:=F) s stream =
    (Build_self (h :: hs) (data s ++ rows stream)
       (filter (λ col, classified_numeric (F:=F) (h :: hs) (rows stream) col = true) (h :: hs))
       (filter (λ col, ¬ (classified_numeric (F:=F) (h :: hs) (rows stream) col = true))
               (h :: hs)),
     Ok ()).
Proof.
  intros Hfields. unfold _process_stream. rewrite Hfields. cbn [default from_option id].
  fold (confidence_of (F:=F) (h :: hs) (rows stream)).
  rewrite flags_of, flagged_cols. by rewrite (not_flagged_cols _ (h :: hs) (h :: hs)).
Qed.

(** X18.  [_process_stream] raises [ValueError] when the stream has no field
    names, and then leaves the records and the two column lists of the
    loader as they were.  Otherwise it returns, with the field names as
    headers and the rows of the stream added after the records the loader
    held; every header is then in exactly one of [numeric_cols] and
    [categorical_cols], each in the order of the headers. *)
Theorem process_stream_outcome s stream :
  let headers' := default [] (fieldnames stream) in
  let after := (_process_stream (F:=F) s stream).1 in
  (headers' = [] →
   _process_stream (F:=F) s stream
     = (Build_self [] (data s) (numeric_cols s) (categorical_cols s), Raise ValueError)) ∧
  (headers' ≠ [] →
   (_process_stream (F:=F) s stream).2 = Ok () ∧
   headers after = headers' ∧
   data after = data s ++ rows stream ∧
   sublist (numeric_cols after) headers' ∧
   sublist (categorical_cols after) headers' ∧
   numeric_cols after ++ categorical_cols after ≡ₚ headers' ∧
   ∀ col, col ∈ numeric_cols after → col ∉ categorical_cols after).
Proof.
  intros headers' after. split.
  - intros Hnone. unfold _process_stream. fold headers'. by rewrite Hnone.
  - intros Hsome. subst after.
    destruct (fieldnames stream) as [[|h hs]|] eqn:Hfields; [done| |done].
    rewrite (process_stream_headers s stream h hs Hfields). cbn [fst snd default from_option id].
    cbn [headers data numeric_cols categorical_cols].
    split_and!; [done | done | done | apply sublist_filter | apply sublist_filter
                 | apply filter_app_complement |].
    intros col [Hnum _]%list_elem_of_filter [Hcat _]%list_elem_of_filter. done.
Qed.

(** X19.  The loader never clears its records: after two streams it holds
    the rows of the first followed by the rows of the second, while its
    headers and its two column lists are those a new loader gets from the
    second stream alone. *)
Theorem process_stream_accumulates (first second : DictReader) :
  default [] (fieldnames first) ≠ [] → default [] (fieldnames second) ≠ [] →
  let twice := (_process_stream (F:=F) (_process_stream (F:=F) __init__ first).1 second).1 in
  let once := (_process_stream (F:=F) __init__ second).1 in
  data twice = rows first ++ rows second ∧
  data once = rows second ∧
  headers twice = headers once ∧
  numeric_cols twice = numeric_cols once ∧
  categorical_cols twice = categorical_cols once.
Proof.
  intros Hfirst Hsecond.
  destruct (fieldnames first) as [[|h1 hs1]|] eqn:Hf1; [done| |done].
  destruct (fieldnames second) as [[|h2 hs2]|] eqn:Hf2; [done| |done].
  cbn zeta. rewrite (process_stream_headers __init__ first h1 hs1 Hf1). cbn [fst].
  by rewrite !(process_stream_headers _ second h2 hs2 Hf2).
Qed.
End loader.

Section engine.
Context {F : Type} `{PyFloat F}.

(** X20.  When [load_csv] returns, the aggregator and the analyzer of the
    engine hold the records and the headers of the new loader, and every
    categorical column with every numeric column of the engine is a valid
    pair for [aggregate] and for [group_by_multi].  When the load raises, the
    engine has the new loader, but keeps the aggregator and the analyzer it
    had. *)
Theorem load_csv_components (engine : AnalysisEngine.self) (stream : DataLoader.DictReader) :
  let load := λ l, DataLoader._process_stream (F:=F) l stream in
  let loaded := (AnalysisEngine.load_csv load engine).1 in
  ((AnalysisEngine.load_csv load engine).2 = Ok () →
   ∃ agg an,
     AnalysisEngine.aggregator loaded = Some agg ∧
     AnalysisEngine.analyzer loaded = Some an ∧
     DataAggregator.data agg = AnalysisEngine.data loaded ∧
     DataAnalyzer.data an = AnalysisEngine.data loaded ∧
     DataAggregator.headers agg = AnalysisEngine.headers loaded ∧
     DataAnalyzer.numeric_cols an = AnalysisEngine.numeric_cols loaded ∧
     ∀ cat cat2 num operation,
       cat ∈ AnalysisEngine.categorical_cols loaded →
       cat2 ∈ AnalysisEngine.categorical_cols loaded →
       num ∈ AnalysisEngine.numeric_cols loaded →
       is_ok (DataAggregator.aggregate (F:=F) agg cat num operation) = true ∧
       is_ok (DataAggregator.group_by_multi (F:=F) agg [cat; cat2] num operation) = true) ∧
  (∀ e, (AnalysisEngine.load_csv load engine).2 = Raise e →
     e = ValueError ∧
     AnalysisEngine.headers loaded = [] ∧
     AnalysisEngine.aggregator loaded = AnalysisEngine.aggregator engine ∧
     AnalysisEngine.analyzer loaded = AnalysisEngine.analyzer engine).
Proof.
  intros load loaded. subst loaded load. unfold AnalysisEngine.load_csv.
  destruct (DataLoader.fieldnames stream) as [[|h hs]|] eqn:Hfields.
  - unfold DataLoader._process_stream. rewrite Hfields. cbn.
    split; [done|]. by intros e [= <-].
  - rewrite (process_stream_headers DataLoader.__init__ stream h hs Hfields).
    cbn [fst snd]. split; [|done]. intros _. eexists _, _. split; [done|]. split; [done|].
    cbn [AnalysisEngine.data AnalysisEngine.headers AnalysisEngine.numeric_cols
         AnalysisEngine.categorical_cols AnalysisEngine.loader DataAggregator.data
         DataAggregator.headers DataAnalyzer.data DataAnalyzer.numeric_cols
         DataLoader.data DataLoader.headers DataLoader.numeric_cols
         DataLoader.categorical_cols].
    split_and!; [done..|]. intros cat cat2 num operation Hc Hc2 Hn.
    apply list_elem_of_filter in Hc as [_ Hc]. apply list_elem_of_filter in Hn as [_ Hn].
    set (agg := DataAggregator.Build_self (DataLoader.data DataLoader.__init__
                                             ++ DataLoader.rows stream) (h :: hs)).
    split.
    + by destruct (aggregate_ok agg cat num operation Hc Hn) as (res & -> & _).
    + by destruct (group_by_multi_leaves agg [cat; cat2] num operation) as (t & -> & _).
  - unfold DataLoader._process_stream. rewrite Hfields. cbn.
    split; [done|]. by intros e [= <-].
Qed.
End engine.

(** ** Columns the loader takes for categorical *)

Section categorical.
Import DataLoader.

Lemma count_value_numeric {F} `{PyFloat F} (r : row) (tc : dict string confidence)
    (c col : string) :
  cell_numeric (F:=F) r col = false →
  numeric (default (Build_confidence 0 0) (dict_get col (count_value (F:=F) r tc c)))
    = numeric (default (Build_confidence 0 0) (dict_get col tc)).
Proof.
  intros Hcell. unfold count_value. rewrite dict_get_set.
  destruct (decide (col = c)) as [<-|Hne]; [|done].
  unfold cell_numeric in Hcell. by rewrite Hcell.
Qed.

Lemma confidence_numeric_kept {F} `{PyFloat F} (headers : list string) (rows : list row)
    (col : string) :
  (∀ r, r ∈ rows → cell_numeric (F:=F) r col = false) →
  ∀ tc : dict string confidence,
    numeric (default (Build_confidence 0 0) (dict_get col tc)) = 0 →
    numeric (default (Build_confidence 0 0)
               (dict_get col (foldl (λ tc r, foldl (count_value (F:=F) r) tc headers) tc rows)))
      = 0.
Proof.
  induction rows as [|r rows IH]; intros Hrows tc Hzero; [done|].
  cbn [foldl]. apply IH; [intros r' Hr'; apply Hrows; by right|].
  assert (cell_numeric (F:=F) r col = false) as Hcell by (apply Hrows; left).
  clear IH Hrows. revert tc Hzero.
  induction headers as [|c cs IHc]; intros tc Hzero; [done|].
  cbn [foldl]. apply IHc. by rewrite count_value_numeric.
Qed.

Lemma confidence_numeric_zero {F} `{PyFloat F} (headers : list string) (rows : list row)
    (col : string) :
  (∀ r, r ∈ rows → cell_numeric (F:=F) r col = false) →
  numeric (default (Build_confidence 0 0) (dict_get col (confidence_of (F:=F) headers rows)))
    = 0.
Proof. intros Hrows. by apply confidence_numeric_kept. Qed.

Lemma binary64_zero_share (y : float) :
  PrimFloat.leb (Binary64.dec 8 (-1)) (PrimFloat.div (Binary64.of_Z 0) y) = false.
Proof.
  rewrite FloatAxioms.leb_spec, FloatAxioms.div_spec.
  replace (Prim2SF (Binary64.of_Z 0)) with (S754_zero false) by (by vm_compute).
  replace (Prim2SF (Binary64.dec 8 (-1)))
    with (S754_finite false 7205759403792794 (-53)) by (by vm_compute).
  by destruct (Prim2SF y) as [[]|[]| |[] m e].
Qed.

(** X21.  On binary64, a column of the stream in which no cell counts as
    numeric, because it is empty, blank, missing or does not parse, is among
    the categorical columns, however many rows there are; with no rows at
    all every column is categorical. *)
Theorem text_column_is_categorical (s : self) (stream : DictReader) (col : string) :
  col ∈ default [] (fieldnames stream) →
  (∀ r, r ∈ rows stream → cell_numeric (F:=float) r col = false) →
  let after := (_process_stream (F:=float) s stream).1 in
  col ∈ categorical_cols after ∧ col ∉ numeric_cols after.
Proof.
  intros Hcol Hcells.
  destruct (fieldnames stream) as [[|h hs]|] eqn:Hfields;
    [by apply elem_of_nil in Hcol | | by apply elem_of_nil in Hcol].
  cbn [default from_option id] in Hcol. cbn zeta.
  rewrite (process_stream_headers s stream h hs Hfields).
  cbn [fst numeric_cols categorical_cols].
  assert (classified_numeric (F:=float) (h :: hs) (rows stream) col = false) as Hclass.
  { unfold classified_numeric, is_numeric.
    rewrite (confidence_numeric_zero (F:=float) (h :: hs) (rows stream) col Hcells).
    unfold num_truediv, num_eqb, compare_with.
    rewrite (proj2 (Z.eqb_neq _ 0)) by lia. cbn [mbind result_bind].
    apply binary64_zero_share. }
  rewrite !list_elem_of_filter, Hclass. split; [by split | by intros [? _]].
Qed.
End categorical.

(** ** Counts and statistics *)

Section counts.
Context {F : Type} `{PyFloat F}.
Variable stdev : list F → result F.

Lemma py_sum_lengths {A} (groups : list (list A)) :
  py_sum (F:=F) (py_len <$> groups) = NInt (Z.of_nat (length (concat groups))).
Proof.
  unfold py_sum.
  assert (∀ n, foldl num_add (NInt (F:=F) n) (py_len <$> groups)
               = NInt (n + Z.of_nat (length (concat groups)))) as Hfold; [|apply Hfold].
  induction groups as [|g groups IH]; intros n.
  - cbn. f_equal. lia.
  - cbn [fmap list_fmap foldl concat].
    change (num_add (NInt n) (py_len g)) with (NInt (F:=F) (n + Z.of_nat (length g))).
    rewrite (IH (n + Z.of_nat (length g))), length_app. f_equal. lia.
Qed.

Lemma stat_values_length (rows : list row) (col : string) :
  length (stat_values (F:=F) rows col)
    = (length (column_values (F:=F) rows col)
       + length (filter (λ r, r !! col = None) rows))%nat.
Proof.
  unfold stat_values, column_values, parsed, get, get_or.
  induction rows as [|r rows IH]; [done|].
  rewrite fmap_cons, filter_cons. cbn [omap list_omap].
  destruct (r !! col) as [v|] eqn:Hv; cbn [default from_option id].
  - rewrite decide_False by done. destruct (float_of v); cbn [length]; by rewrite IH.
  - rewrite decide_True by done. cbn [float_of py_float length]. rewrite IH. lia.
Qed.

Lemma get_statistics_count (a : DataAnalyzer.self) (col : string)
    (st : DataAnalyzer.statistics F) :
  DataAnalyzer.get_statistics stdev a col = Ok st →
  DataAnalyzer.st_count st = NInt (Z.of_nat (length (stat_values (F:=F) (DataAnalyzer.data a) col))).
Proof.
  destruct (decide (stat_values (F:=F) (DataAnalyzer.data a) col = [])) as [Hnil|Hne].
  - rewrite get_statistics_empty, Hnil by done. by intros [= <-].
  - destruct (get_statistics_values stdev a col Hne) as (mn & mx & med & _ & _ & _ & ->).
    destruct (if (1 <? _)%nat then _ else _) as [std_dev|]; [|done]. by intros [= <-].
Qed.

(** X22.  [aggregate] returns the counts of a column under any grouping,
    and the count of every record [get_statistics] returns for the column
    is their sum plus the number of records that do not have the column,
    which [get_statistics] reads as the value 0 and [aggregate] leaves out.
    [get_statistics] returns one unless [statistics.stdev] raises on the
    values, of which there are then two or more. *)
Theorem statistics_count_is_aggregate_count (s : DataAggregator.self)
    (a : DataAnalyzer.self) (group_col value_col : string) :
  DataAnalyzer.data a = DataAggregator.data s →
  group_col ∈ DataAggregator.headers s → value_col ∈ DataAggregator.headers s →
  ∃ counts,
    DataAggregator.aggregate (F:=F) s group_col value_col "count" = Ok counts ∧
    (∀ st, DataAnalyzer.get_statistics stdev a value_col = Ok st →
       DataAnalyzer.st_count st =
         num_add (py_sum (dict_values counts))
                 (NInt (Z.of_nat (length (filter (λ r, r !! value_col = None)
                                            (DataAggregator.data s)))))) ∧
    (is_ok (DataAnalyzer.get_statistics stdev a value_col) = true ↔
       (length (stat_values (F:=F) (DataAnalyzer.data a) value_col) < 2)%nat ∨
       is_ok (stdev (stat_values (DataAnalyzer.data a) value_col)) = true).
Proof.
  intros Hdata Hg Hv.
  eexists. split; [by apply aggregate_count|]. split; [|apply get_statistics_ok].
  intros st Hst. rewrite (get_statistics_count a value_col st Hst).
  set (grouped := foldl DataAggregator.group_item []
                    (items (DataAggregator.data s) group_col value_col)).
  assert (dict_values ((λ kv : pyval * list F, (kv.1, py_len (F:=F) kv.2)) <$> grouped)
          = py_len <$> dict_values grouped) as ->.
  { unfold dict_values. rewrite <-!list_fmap_compose. by apply list_fmap_ext. }
  rewrite py_sum_lengths. cbn [num_add arith]. rewrite <-Nat2Z.inj_add.
  subst grouped. rewrite (Permutation_length (concat_grouped _ [])).
  cbn [app concat dict_values fmap list_fmap].
  by rewrite items_values, <-stat_values_length, <-Hdata.
Qed.
End counts.

(** ** Two group columns *)

Section two_columns.
Import DataAggregator.
Context {F : Type} `{PyFloat F}.
Implicit Types (s : self) (k : pyval) (r : row).

(** X23.  With two group columns, every path of [group_by_multi] is a cell
    of the cross-tabulation of the two columns; and where every record has a
    value that parses, every cell of the cross-tabulation is a path. *)
Theorem two_level_paths_are_cells s (col1 col2 value_col operation : string) :
  value_col ∈ headers s →
  ∃ t cells, group_by_multi s [col1; col2] value_col operation = Ok t ∧
    cross_tabulation s col1 col2 = Ok cells ∧
    (∀ k1 k2, is_Some (nested_path [k1; k2] t) → is_Some (crosstab_get cells k1 k2)) ∧
    ((∀ r, r ∈ data s → is_Some (parsed (F:=F) r value_col)) →
     ∀ k1 k2, is_Some (crosstab_get cells k1 k2) → is_Some (nested_path [k1; k2] t)).
Proof.
  intros Hv.
  destruct (group_by_multi_leaves s [col1; col2] value_col operation) as (t & Ht & _ & Hpath);
    [done|done|].
  destruct (cross_tabulation_keys s col1 col2) as (cells & Hcells & Hkeys).
  exists t, cells. split; [done|]. split; [done|].
  assert (∀ k1 k2, is_Some (nested_path [k1; k2] t) ↔
                   ∃ r, r ∈ data s ∧ (group_key r col1 = k1 ∧ group_key r col2 = k2) ∧
                        is_Some (parsed (F:=F) r value_col)) as Hpaths.
  { intros k1 k2. rewrite (Hpath [k1; k2] eq_refl), leaf_sum_is_Some, path_values_nonempty.
    split; intros (r & Hr & Hk & Hp); exists r; (split; [done|]); (split; [|done]).
    - by injection Hk.
    - destruct Hk as [<- <-]. done. }
  split.
  - intros k1 k2 (r & Hr & [Hk1 Hk2] & _)%Hpaths. apply Hkeys. by exists r.
  - intros Hall k1 k2 (r & Hr & Hk1 & Hk2)%Hkeys. apply Hpaths.
    exists r. split; [done|]. split; [done|]. by apply Hall.
Qed.
End two_columns.

(** ** The values that [rank] sorts *)

Section ranking_values.
Context {F : Type} `{PyFloat F}.

Lemma py_sum_is_float (v : F) (vs : list F) : ∃ x, py_sum (NFloat <$> v :: vs) = NFloat x.
Proof.
  unfold py_sum. rewrite fmap_cons. cbn [foldl].
  change (num_add (NInt 0) (NFloat v)) with (NFloat (f_add (f_of_Z 0) v)).
  rewrite foldl_num_add_float. by eexists.
Qed.

(** The count of a group is an [int], and every other operation gives a
    [float]. *)
Lemma operation_kind (operation : string) (vs : list F) (x : num F) :
  vs ≠ [] →
  default DataAggregator.op_sum (dict_get operation DataAggregator.ops) vs = Ok x →
  if decide (operation = "count") then ∃ n, x = NInt n else ∃ y, x = NFloat y.
Proof.
  intros Hne. destruct vs as [|v vs]; [done|].
  destruct (py_sum_is_float v vs) as [total Htotal].
  unfold DataAggregator.ops. cbn [dict_get].
  repeat case_decide; simplify_eq; cbn [default from_option id];
    unfold DataAggregator.op_sum, DataAggregator.op_avg, DataAggregator.op_min,
      DataAggregator.op_max, DataAggregator.op_count.
  - intros [= <-]. by eexists.
  - unfold num_truediv. destruct (num_eqb _ _); [done|]. intros [= <-]. by eexists.
  - cbn. intros [= <-]. by eexists.
  - cbn. intros [= <-]. by eexists.
  - intros [= <-]. by eexists.
  - intros [= <-]. by eexists.
Qed.

Lemma values_of_one_kind (l : list (num F)) (floats : bool) :
  Forall (λ x, if floats then ∃ y, x = NFloat y else ∃ n, x = NInt n) l →
  if floats then ∃ xs, l = NFloat <$> xs else ∃ ns, l = NInt <$> ns.
Proof.
  induction 1 as [|x l Hx _ IH].
  - destruct floats; by exists [].
  - destruct floats.
    + destruct Hx as [y ->], IH as [xs ->]. by exists (y :: xs).
    + destruct Hx as [n ->], IH as [ns ->]. by exists (n :: ns).
Qed.

Lemma aggregate_values_kind (s : DataAggregator.self) (group_col value_col operation : string)
    (res : dict pyval (num F)) :
  group_col ∈ DataAggregator.headers s → value_col ∈ DataAggregator.headers s →
  DataAggregator.aggregate s group_col value_col operation = Ok res →
  (∃ xs, dict_values res = NFloat <$> xs) ∨ (∃ ns, dict_values res = NInt <$> ns).
Proof.
  intros Hg Hv. rewrite aggregate_unfold by done. intros Hres.
  assert (Forall (λ x, if decide (operation = "count") then ∃ n, x = NInt n
                       else ∃ y, x = NFloat y) (dict_values res)) as Hkind.
  { apply Forall_forall. intros x ([k x'] & -> & Hin)%list_elem_of_fmap. simpl.
    destruct (results_elem _ _ _ Hres k x' Hin) as (vs & Hvs & Hx).
    apply (operation_kind operation vs); [|done]. by eapply grouped_elem. }
  destruct (decide (operation = "count")).
  - right. by apply (values_of_one_kind _ false).
  - left. by apply (values_of_one_kind _ true).
Qed.
End ranking_values.

(** On binary64 [<] orders the values of a ranking unless one of them is a
    nan. *)
Lemma binary64_values_ordered (l : list (num float)) :
  (∃ xs, l = NFloat <$> xs) ∨ (∃ ns, l = NInt <$> ns) →
  (∀ x, NFloat x ∈ l → PrimFloat.is_nan x = false) →
  weak_order num_ltb l.
Proof.
  intros [[xs ->]|[ns ->]] Hnan.
  - assert (∀ x, x ∈ xs → Prim2SF x ≠ S754_nan) as Hxs.
    { intros x Hx. apply not_nan, Hnan. by apply list_elem_of_fmap_2. }
    intros ? ? ? (x & -> & Hx)%list_elem_of_fmap (y & -> & Hy)%list_elem_of_fmap
      (z & -> & Hz)%list_elem_of_fmap.
    exact (binary64_weak_order xs Hxs x y z Hx Hy Hz).
  - intros ? ? ? (x & -> & Hx)%list_elem_of_fmap (y & -> & Hy)%list_elem_of_fmap
      (z & -> & Hz)%list_elem_of_fmap.
    change (num_ltb (F:=float) (NInt ?a) (NInt ?b)) with (a <? b).
    unfold num_ltb, compare_with.
    destruct (Z.ltb_spec x x), (Z.ltb_spec x y), (Z.ltb_spec y z), (Z.ltb_spec x z),
      (Z.ltb_spec z y); split_and!; try done; try lia; intros; try lia; auto.
Qed.

Lemma binary64_ranking_ordered (s : DataAggregator.self) (group_col value_col operation : string)
    (res : dict pyval (num float)) :
  group_col ∈ DataAggregator.headers s → value_col ∈ DataAggregator.headers s →
  DataAggregator.aggregate s group_col value_col operation = Ok res →
  (∀ k x, (k, NFloat x) ∈ res → PrimFloat.is_nan x = false) →
  weak_order num_ltb (dict_values res).
Proof.
  intros Hg Hv Hres Hnan. apply binary64_values_ordered.
  - by apply (aggregate_values_kind s group_col value_col operation).
  - intros x ([k x'] & Hx & Hin)%list_elem_of_fmap. simpl in Hx. subst x'.
    by apply (Hnan k).
Qed.

(** ** Examples on binary64 *)

Lemma small_headers : "g" ∈ ["g"; "v"] ∧ "v" ∈ ["g"; "v"].
Proof. split; [apply list_elem_of_here | apply list_elem_of_further, list_elem_of_here]. Qed.

(** X1, on the dataset a: 1, a: 2, b: 5 with the operation "median". *)
Lemma unknown_operation_is_sum_witness :
  DataAggregator.aggregate (F:=float) (aggregator small_rows) "g" "v" "median"
    = DataAggregator.aggregate (aggregator small_rows) "g" "v" "sum" ∧
  DataAnalyzer.rank (F:=float) (analyzer small_rows) "g" "v" 10 "median"
    = DataAnalyzer.rank (analyzer small_rows) "g" "v" 10 "sum".
Proof.
  destruct (unknown_operation_is_sum (F:=float) (aggregator small_rows) (analyzer small_rows)
              "g" "v" "median" 10) as [Hagg Hrank].
  split; [apply Hagg | apply Hrank]; apply (bool_decide_unpack _); by vm_compute.
Defined.

(** X2, on the same dataset. *)
Lemma aggregate_avg_is_sum_by_count_witness :
  ∃ sums counts avgs,
    DataAggregator.aggregate (F:=float) (aggregator small_rows) "g" "v" "sum" = Ok sums ∧
    DataAggregator.aggregate (aggregator small_rows) "g" "v" "count" = Ok counts ∧
    DataAggregator.aggregate (aggregator small_rows) "g" "v" "avg" = Ok avgs ∧
    dict_keys counts = dict_keys sums ∧
    dict_keys avgs = dict_keys sums ∧
    ∀ k, dict_get k avgs =
         (total ← dict_get k sums; n ← dict_get k counts;
          Some (NFloat (f_div (to_float total) (to_float n)))).
Proof.
  apply (aggregate_avg_is_sum_by_count (F:=float) (aggregator small_rows) "g" "v");
    apply small_headers.
Defined.

(** X3, on the same dataset. *)
Lemma aggregate_min_max_of_group_witness :
  ∃ mins maxs,
    DataAggregator.aggregate (F:=float) (aggregator small_rows) "g" "v" "min" = Ok mins ∧
    DataAggregator.aggregate (aggregator small_rows) "g" "v" "max" = Ok maxs ∧
    (∀ k m, (k, m) ∈ mins → ∃ x, m = NFloat x ∧ x ∈ group_values (F:=float) small_rows "g" "v" k) ∧
    (∀ k m, (k, m) ∈ maxs → ∃ x, m = NFloat x ∧ x ∈ group_values (F:=float) small_rows "g" "v" k).
Proof.
  apply (aggregate_min_max_of_group (F:=float) (aggregator small_rows) "g" "v");
    apply small_headers.
Defined.

(** X4, on the same dataset: the keys are a, b. *)
Lemma keys_in_order_of_first_appearance_witness :
  (∃ res, DataAggregator.aggregate (F:=float) (aggregator small_rows) "g" "v" "max" = Ok res ∧
     dict_keys res =
       first_seen ((λ r, group_key r "g")
                     <$> filter (λ r, is_Some (parsed (F:=float) r "v")) small_rows)) ∧
  (∃ c, DataAggregator.group_and_count (aggregator small_rows) "g" = Ok c ∧
     dict_keys c = first_seen ((λ r, group_key r "g") <$> small_rows)) ∧
  (∃ t, DataAggregator.cross_tabulation (aggregator small_rows) "g" "v" = Ok t ∧
     dict_keys t = first_seen ((λ r, group_key r "g") <$> small_rows)).
Proof.
  apply (keys_in_order_of_first_appearance (F:=float) (aggregator small_rows) "g" "v" "max" "v");
    apply small_headers.
Defined.

(** X8, on the same dataset. *)
Lemma group_by_multi_one_column_witness :
  ∃ t res,
    DataAggregator.group_by_multi (F:=float) (aggregator small_rows) ["g"] "v" "avg" = Ok t ∧
    DataAggregator.aggregate (aggregator small_rows) "g" "v" "sum" = Ok res ∧
    ∀ k, dict_get k t = DataAggregator.NLeaf <$> dict_get k res.
Proof.
  apply (group_by_multi_one_column (F:=float) (aggregator small_rows) "g" "v" "avg");
    apply small_headers.
Defined.

(** X11, on the same dataset with the one metric "v". *)
Lemma compare_metrics_averages_witness :
  ∃ res, DataAggregator.compare_metrics (F:=float) (aggregator small_rows) "g" ["v"] = Ok res ∧
    ∀ k, group_rows small_rows "g" k ≠ [] →
      ∃ metrics, dict_get k res = Some metrics ∧
        ∀ c, c ∈ ["v"] →
          dict_get c metrics = Some (average (group_values (F:=float) small_rows "g" c k)).
Proof.
  apply (compare_metrics_averages (F:=float) (aggregator small_rows) "g" ["v"]).
  apply NoDup_singleton.
Defined.

(** X12, on the same dataset. *)
Lemma compare_metrics_is_aggregate_avg_witness :
  ∃ res avgs,
    DataAggregator.compare_metrics (F:=float) (aggregator small_rows) "g" ["v"] = Ok res ∧
    DataAggregator.aggregate (aggregator small_rows) "g" "v" "avg" = Ok avgs ∧
    ∀ k a, dict_get k avgs = Some a →
      ∃ metrics, dict_get k res = Some metrics ∧ dict_get "v" metrics = Some a.
Proof.
  apply (compare_metrics_is_aggregate_avg (F:=float) (aggregator small_rows) "g" ["v"] "v").
  - apply NoDup_singleton.
  - apply list_elem_of_here.
  - apply small_headers.
  - apply small_headers.
Defined.

(** X14, on the same dataset, which has no column "w"; the count is 3. *)
Lemma absent_column_statistics_witness :
  (∃ st, DataAnalyzer.get_statistics Binary64.stdev (analyzer small_rows) "w" = Ok st ∧
     DataAnalyzer.st_count st = NInt (Z.of_nat (length (DataAnalyzer.data (analyzer small_rows)))) ∧
     DataAnalyzer.st_min st = NFloat (f_of_Z 0) ∧
     DataAnalyzer.st_max st = NFloat (f_of_Z 0)) ∧
  DataAnalyzer.rank (F:=float) (analyzer small_rows) "v" "w" 10 "sum" = Ok [] ∧
  DataAnalyzer.correlate_metrics Binary64.pow2 Binary64.pow_half (λ x _, x)
    (analyzer small_rows) "w" "v"
    = Ok (DataAnalyzer.Build_correlation_result (NInt 0) "none" "none").
Proof.
  apply (absent_column_statistics (F:=float) Binary64.pow2 Binary64.pow_half (λ x _, x)
           Binary64.stdev (analyzer small_rows) "w" "v" 10 "sum").
  - apply Forall_forall. unfold analyzer, small_rows, table. cbn [DataAnalyzer.data fmap list_fmap].
    repeat (constructor; [by vm_compute|]). constructor.
  - done.
  - intros _. by vm_compute.
Defined.

(** X15, on the values 10, 20, ..., 100: the percentile 50 is read at
    index 4 of the sorted values. *)
Lemma percentile_index_witness :
  ∃ sv x,
    stable_sort_of PrimFloat.ltb (stat_values (DataAnalyzer.data tens) "Value") sv ∧
    sv !! 4%nat = Some x ∧
    DataAnalyzer.percentile (F:=float) tens "Value" 50%float = Ok (NFloat x).
Proof.
  pose proof (percentile_index (F:=float) tens "Value" 50%float 4) as Hindex.
  cbn zeta in Hindex. destruct Hindex as (sv & Hsv & Hstart & _).
  - apply Forall_forall. unfold tens, values_analyzer, table.
    cbn [DataAnalyzer.data fmap list_fmap].
    repeat (constructor; [vm_compute; by eexists|]). constructor.
  - done.
  - apply weak_orderb_spec. by vm_compute.
  - by vm_compute.
  - destruct Hstart as (x & Hx & Hp); [by vm_compute|]. by exists sv, x.
Defined.

(** X19, with the two streams loaded one after the other. *)
Lemma process_stream_accumulates_witness :
  let twice :=
    (DataLoader._process_stream (F:=float)
       (DataLoader._process_stream (F:=float) DataLoader.__init__ small_stream).1
       proportional_stream).1 in
  let once :=
    (DataLoader._process_stream (F:=float) DataLoader.__init__ proportional_stream).1 in
  DataLoader.data twice = DataLoader.rows small_stream ++ DataLoader.rows proportional_stream ∧
  DataLoader.data once = DataLoader.rows proportional_stream ∧
  DataLoader.headers twice = DataLoader.headers once ∧
  DataLoader.numeric_cols twice = DataLoader.numeric_cols once ∧
  DataLoader.categorical_cols twice = DataLoader.categorical_cols once.
Proof.
  apply (process_stream_accumulates (F:=float) small_stream proportional_stream); done.
Defined.

(** X21, on the stream g, v: no cell of the column g parses. *)
Lemma text_column_is_categorical_witness :
  "g" ∈ DataLoader.categorical_cols
          (DataLoader._process_stream (F:=float) DataLoader.__init__ small_stream).1 ∧
  "g" ∉ DataLoader.numeric_cols
          (DataLoader._process_stream (F:=float) DataLoader.__init__ small_stream).1.
Proof.
  apply (text_column_is_categorical DataLoader.__init__ small_stream "g").
  - apply list_elem_of_here.
  - apply Forall_forall. unfold small_stream, stream_of, table.
    cbn [DataLoader.rows fmap list_fmap].
    repeat (constructor; [by vm_compute|]). constructor.
Defined.

(** X22, on the dataset a: 1, a: 2, b: 5. *)
Lemma statistics_count_is_aggregate_count_witness :
  ∃ counts,
    DataAggregator.aggregate (F:=float) (aggregator small_rows) "g" "v" "count" = Ok counts ∧
    (∀ st, DataAnalyzer.get_statistics Binary64.stdev (analyzer small_rows) "v" = Ok st →
       DataAnalyzer.st_count st =
         num_add (py_sum (dict_values counts))
                 (NInt (Z.of_nat (length (filter (λ r, r !! "v" = None)
                                            (DataAggregator.data (aggregator small_rows))))))) ∧
    (is_ok (DataAnalyzer.get_statistics Binary64.stdev (analyzer small_rows) "v") = true ↔
       (length (stat_values (F:=float) (DataAnalyzer.data (analyzer small_rows)) "v") < 2)%nat ∨
       is_ok (Binary64.stdev (stat_values (DataAnalyzer.data (analyzer small_rows)) "v")) = true).
Proof.
  apply (statistics_count_is_aggregate_count (F:=float) Binary64.stdev
           (aggregator small_rows) (analyzer small_rows) "g" "v");
    [done | apply small_headers..].
Defined.

(** X16, on the values 10, 20, ..., 100 and on one value alone. *)
Lemma find_outliers_of_the_values_witness :
  DataAnalyzer.find_outliers Binary64.pow2 Binary64.pow_half (values_analyzer ["10"]) "Value"
    2%float = Ok [] ∧
  ∃ outliers,
    DataAnalyzer.find_outliers Binary64.pow2 Binary64.pow_half tens "Value" 1%float
      = Ok outliers ∧
    sublist outliers (stat_values (DataAnalyzer.data tens) "Value").
Proof.
  split.
  - apply (find_outliers_of_the_values (F:=float) Binary64.pow2 Binary64.pow_half
             (values_analyzer ["10"]) "Value" 2%float). vm_compute. lia.
  - eexists. split; [by vm_compute|].
    apply (find_outliers_of_the_values (F:=float) Binary64.pow2 Binary64.pow_half
             tens "Value" 1%float). by vm_compute.
Defined.

(** X18, on a stream without field names and on the stream g, v. *)
Lemma process_stream_outcome_witness :
  DataLoader._process_stream (F:=float) DataLoader.__init__
    (DataLoader.Build_DictReader None [])
    = (DataLoader.Build_self [] [] [] [], Raise ValueError) ∧
  (DataLoader._process_stream (F:=float) DataLoader.__init__ small_stream).2 = Ok ().
Proof.
  split.
  - by apply (process_stream_outcome (F:=float) DataLoader.__init__
                (DataLoader.Build_DictReader None [])).
  - by apply (process_stream_outcome (F:=float) DataLoader.__init__ small_stream).
Defined.

(** X23, on the dataset a: 1, a: 2, b: 5 grouped by g and v. *)
Lemma two_level_paths_are_cells_witness :
  ∃ t cells,
    DataAggregator.group_by_multi (F:=float) (aggregator small_rows) ["g"; "v"] "v" "sum"
      = Ok t ∧
    DataAggregator.cross_tabulation (aggregator small_rows) "g" "v" = Ok cells ∧
    (∀ k1 k2, is_Some (nested_path [k1; k2] t) → is_Some (crosstab_get cells k1 k2)) ∧
    ((∀ r, r ∈ DataAggregator.data (aggregator small_rows) →
           is_Some (parsed (F:=float) r "v")) →
     ∀ k1 k2, is_Some (crosstab_get cells k1 k2) → is_Some (nested_path [k1; k2] t)).
Proof.
  apply (two_level_paths_are_cells (F:=float) (aggregator small_rows) "g" "v" "v" "sum").
  apply small_headers.
Defined.
